(** * ExaEpi: pairwise transmission kernels and the bin-scan orchestrator

    A shallow embedding of [binaryInteractionWork] (InteractionModWork.H),
    [binaryInteractionNborhood] (InteractionModNborhood.H) and of the two
    [interactAgents] passes that drive them, followed by the properties the
    specification states about them.

    Conventions of the embedding.
    - [amrex::Real] / [amrex::ParticleReal] is a build-time choice of the
      floating-point type.  The code is embedded once, over an interface
      [RealOps] that offers exactly the operations the kernels use, and the
      interface has two instances: [float] (IEEE binary64, the default build,
      executable) and [R] (exact real arithmetic).
    - A raw device pointer ([int*], [ParticleReal*]) is a total function from
      the index to the value; the bounds the code asserts are written out in
      the orchestrator, where a failed [AMREX_ALWAYS_ASSERT] ends the pass
      with [None].
    - Agent indices are the unsigned indices held in the bin permutation, so
      they are [nat]; integer agent attributes are C [int]s, kept as [Z]
      (the kernels only compare them). *)

From Stdlib Require Import ZArith Lia Reals Lra Floats.
From stdpp Require Import base option list functions.

Set Warnings "-inexact-float".

(** ** The arithmetic the kernels use *)

Class RealOps (T : Type) := {
  rlit1 : T;                 (* the literal 1.0_prt *)
  rmul : T -> T -> T;
  rsub : T -> T -> T;
  rltb : T -> T -> bool;
  rleb : T -> T -> bool
}.

(** Laws of exact arithmetic that some statements rely on.  They are kept
    apart from the operations: [unit laws] say that multiplying by 1.0
    returns the other operand, [commutative-monoid laws] add commutativity
    and associativity. *)
Class MulUnitLaws (T : Type) `{RealOps T} : Prop := {
  rmul_1_l : forall x : T, rmul rlit1 x = x;
  rmul_1_r : forall x : T, rmul x rlit1 = x
}.

Class MulCommLaws (T : Type) `{RealOps T} : Prop := {
  rmul_comm : forall x y : T, rmul x y = rmul y x;
  rmul_assoc : forall x y z : T, rmul x (rmul y z) = rmul (rmul x y) z
}.

#[export] Instance float_ops : RealOps float := {|
  rlit1 := 1%float;
  rmul := PrimFloat.mul;
  rsub := PrimFloat.sub;
  rltb := PrimFloat.ltb;
  rleb := PrimFloat.leb
|}.

#[export] Instance R_ops : RealOps R := {|
  rlit1 := 1%R;
  rmul := Rmult;
  rsub := Rminus;
  rltb := fun x y => if Rlt_dec x y then true else false;
  rleb := fun x y => if Rle_dec x y then true else false
|}.

(** ** Data model *)

(** The integer attributes of an agent that the kernels read
    ([a_ptd.m_idata[IntIdx::...]]). *)
Module IntIdx.
Inductive t := work_i | workgroup | withdrawn | age_group | nborhood | school.
End IntIdx.

(** Modelled from the spec: the disease status of an agent (section 3 of the
    specification; the enumeration lives in AgentDefinitions.H). *)
Module Status.
Inductive t := susceptible | infected | immune | dead.

Definition eqb (a b : t) : bool :=
  match a, b with
  | susceptible, susceptible | infected, infected
  | immune, immune | dead, dead => true
  | _, _ => false
  end.
End Status.

Section Model.
Context {T : Type} `{RealOps T}.

(** Particle tile data: structure-of-arrays, one array per attribute.  The
    per-disease [status] and [disease_counter] arrays are read only by the
    eligibility predicates. *)
Record ParticleTileData := {
  m_idata : IntIdx.t -> nat -> Z;
  status : nat -> nat -> Status.t;       (* disease, agent *)
  disease_counter : nat -> nat -> T      (* disease, agent *)
}.

(** The fields of [DiseaseParm] that the kernels and predicates read.  The
    [xmit_*] tables are C arrays indexed by an [int] age group. *)
Record DiseaseParm := {
  infect : T;
  vac_eff : T;
  xmit_work : T;
  xmit_comm : Z -> T;
  xmit_comm_SC : Z -> T;
  xmit_hood : Z -> T;
  xmit_hood_SC : Z -> T;
  incubation_length : T
}.

(** The probability array of one disease ([ParticleReal* a_prob_ptr]),
    together with the trace of the atomic multiplies issued on it (index and
    operand), which the code does not keep but counting statements need. *)
Record ProbArray := {
  prob : nat -> T;
  atomics : list (nat * T)
}.

(** [Gpu::Atomic::Multiply(&a_prob_ptr[idx], v)]. *)
Definition Gpu_Atomic_Multiply (idx : nat) (v : T) (p : ProbArray) : ProbArray :=
  {| prob := <[idx := rmul (prob p idx) v]> (prob p);
     atomics := atomics p ++ [(idx, v)] |}.

(** C truth value of an [int]. *)
Definition truthy (z : Z) : bool := negb (z =? 0)%Z.

(** ** The workplace kernel (InteractionModWork.H, lines 19-47) *)
Definition binaryInteractionWork (a_i a_j : nat) (a_ptd : ParticleTileData)
    (a_lparm : DiseaseParm) (a_work_scale : T) (a_prob_ptr : ProbArray) : ProbArray :=
  let infect := infect a_lparm in
  let infect := rmul infect (vac_eff a_lparm) in
  let work_i_ptr := m_idata a_ptd IntIdx.work_i in
  let workgroup_ptr := m_idata a_ptd IntIdx.workgroup in
  let withdrawn_ptr := m_idata a_ptd IntIdx.withdrawn in
  if truthy (withdrawn_ptr a_i) || truthy (withdrawn_ptr a_j) then a_prob_ptr
  else
    let prob := rlit1 in
    let prob :=
      if truthy (workgroup_ptr a_i) && (0 <=? work_i_ptr a_i)%Z then
        if (0 <=? work_i_ptr a_j)%Z && (workgroup_ptr a_i =? workgroup_ptr a_j)%Z
        then rmul prob (rsub rlit1 (rmul (rmul infect (xmit_work a_lparm)) a_work_scale))
        else prob
      else prob in
    Gpu_Atomic_Multiply a_j prob a_prob_ptr.

(** ** The neighborhood kernel (InteractionModNborhood.H) *)
Definition binaryInteractionNborhood (a_i a_j : nat) (a_ptd : ParticleTileData)
    (a_lparm : DiseaseParm) (a_social_scale : T) (a_prob_ptr : ProbArray) : ProbArray :=
  let infect := infect a_lparm in
  let infect := rmul infect (vac_eff a_lparm) in
  let age_group_ptr := m_idata a_ptd IntIdx.age_group in
  let nborhood_ptr := m_idata a_ptd IntIdx.nborhood in
  let school_ptr := m_idata a_ptd IntIdx.school in
  let withdrawn_ptr := m_idata a_ptd IntIdx.withdrawn in
  if truthy (withdrawn_ptr a_i) || truthy (withdrawn_ptr a_j) then a_prob_ptr
  else
    let prob := rlit1 in
    let prob :=
      if (school_ptr a_i <? 0)%Z
      then rmul prob (rsub rlit1 (rmul (rmul infect (xmit_comm_SC a_lparm (age_group_ptr a_j))) a_social_scale))
      else rmul prob (rsub rlit1 (rmul (rmul infect (xmit_comm a_lparm (age_group_ptr a_j))) a_social_scale)) in
    let prob :=
      if (nborhood_ptr a_i =? nborhood_ptr a_j)%Z then
        if (school_ptr a_i <? 0)%Z
        then rmul prob (rsub rlit1 (rmul (rmul infect (xmit_hood_SC a_lparm (age_group_ptr a_j))) a_social_scale))
        else rmul prob (rsub rlit1 (rmul (rmul infect (xmit_hood a_lparm (age_group_ptr a_j))) a_social_scale))
      else prob in
    Gpu_Atomic_Multiply a_j prob a_prob_ptr.

End Model.

Arguments ParticleTileData T : clear implicits.
Arguments DiseaseParm T : clear implicits.
Arguments ProbArray T : clear implicits.

(** ** Bins and the orchestrator *)

(** What [interactAgents] reads of an [amrex::DenseBins]: the bin-sorted
    array of particle indices ([permutationPtr], [numItems] entries) and the
    offsets array ([offsetsPtr], one entry per bin and a final one).  A read
    outside either array is undefined in the source and ends the pass in the
    model. *)
Record DenseBins := {
  m_perm : list nat;
  m_offsets : list nat
}.

Definition numItems (b : DenseBins) : nat := length (m_perm b).
Definition numBins (b : DenseBins) : Z := (Z.of_nat (length (m_offsets b)) - 1)%Z.

(** [AMREX_ALWAYS_ASSERT]: a failed assertion aborts the run. *)
Definition AMREX_ALWAYS_ASSERT (b : bool) : option unit :=
  if b then Some tt else None.

Section Orchestrator.
Context {T : Type} `{RealOps T}.

(** The state of one tile during a pass: the probability array of every
    disease ([getAgentProbPtr(a_agents,lev,mfi,d)]) and the trace of kernel
    invocations (disease, source, target). *)
Record TileState := {
  agent_prob : nat -> ProbArray T;
  calls : list (nat * nat * nat)
}.

(** A C [for] loop over the given indices, stopping at the first abort. *)
Fixpoint for_loop (body : nat -> TileState -> option TileState)
    (idx : list nat) (st : TileState) : option TileState :=
  match idx with
  | [] => Some st
  | k :: rest => st' ← body k st; for_loop body rest st'
  end.

(** [amrex::ParallelForRNG(n, f)], as the CPU build runs it: [f 0] to
    [f (n-1)], in order. *)
Definition ParallelForRNG (n : nat)
    (f : nat -> TileState -> option TileState) : TileState -> option TileState :=
  for_loop f (seq 0 n).

Variable getDiseaseParameters_d : nat -> DiseaseParm T.

(** Modelled from the spec: [notSusceptible] (AgentDefinitions.H is not among
    the sources): true if status==Immune, or status==Infected with
    disease_counter < incubation length for that disease. *)
Definition notSusceptible (a_idx : nat) (a_ptd : ParticleTileData T) (a_d : nat) : bool :=
  Status.eqb (status a_ptd a_d a_idx) Status.immune
  || (Status.eqb (status a_ptd a_d a_idx) Status.infected
      && rltb (disease_counter a_ptd a_d a_idx)
              (incubation_length (getDiseaseParameters_d a_d))).

(** Modelled from the spec: [isInfectious] (AgentDefinitions.H is not among
    the sources): true only if status==Infected and disease_counter >=
    incubation length. *)
Definition isInfectious (a_idx : nat) (a_ptd : ParticleTileData T) (a_d : nat) : bool :=
  Status.eqb (status a_ptd a_d a_idx) Status.infected
  && rleb (incubation_length (getDiseaseParameters_d a_d))
          (disease_counter a_ptd a_d a_idx).

(** The pairwise kernel of the interaction model, [binaryInteractionWork] or
    [binaryInteractionNborhood]: the two [interactAgents] bodies differ in
    nothing else. *)
Variable kernel :
  nat -> nat -> ParticleTileData T -> DiseaseParm T -> T -> ProbArray T -> ProbArray T.

Variable n_disease : nat.                 (* a_agents.numDiseases() *)
Variable ptd : ParticleTileData T.        (* ptile.getParticleTileData() *)
Variable np : nat.                        (* aos.numParticles() *)
Variable binner : nat -> nat.             (* i |-> binner(pstruct_ptr[i]) *)
Variable bins_ptr : DenseBins.            (* a_agents.getBins(pair_ind, ...) *)

(** The kernel call of the inner loop, on the array of disease [d]. *)
Definition invoke (d j i : nat) (scale : T) (st : TileState) : TileState :=
  {| agent_prob :=
       <[d := kernel j i ptd (getDiseaseParameters_d d) scale (agent_prob st d)]>
         (agent_prob st);
     calls := calls st ++ [(d, j, i)] |}.

(** The body of the loop over [jj]. *)
Definition scan_step (d i jj : nat) (st : TileState) : option TileState :=
  let inds := m_perm bins_ptr in
  j ← inds !! jj;
  _ ← AMREX_ALWAYS_ASSERT (j <? np);
  if i =? j then Some st
  else if isInfectious j ptd d then
    let work_scale := rlit1 in
    Some (invoke d j i work_scale st)
  else Some st.

(** The lambda given to [ParallelForRNG]: one work item per bin entry. *)
Definition work_item (d ii : nat) (st : TileState) : option TileState :=
  let inds := m_perm bins_ptr in
  let offsets := m_offsets bins_ptr in
  i ← inds !! ii;
  let i_cell := binner i in
  cell_start ← offsets !! i_cell;
  cell_stop ← offsets !! (i_cell + 1);
  _ ← AMREX_ALWAYS_ASSERT (i <? np);
  if notSusceptible i ptd d then Some st
  else for_loop (scan_step d i) (seq cell_start (cell_stop - cell_start)) st.

(** The pass over one disease, and the pass over all of them, for one tile
    (the loops over levels and tiles repeat this body on disjoint data). *)
Definition interact_disease (d : nat) (st : TileState) : option TileState :=
  ParallelForRNG (numItems bins_ptr) (work_item d) st.

Definition interactAgents (st : TileState) : option TileState :=
  _ ← AMREX_ALWAYS_ASSERT (0 <=? numBins bins_ptr)%Z;
  for_loop interact_disease (seq 0 n_disease) st.

End Orchestrator.

Arguments TileState T : clear implicits.

Module InteractionModWork.
Definition interactAgents {T} `{RealOps T} (lparms : nat -> DiseaseParm T) :=
  interactAgents lparms binaryInteractionWork.
End InteractionModWork.

Module InteractionModNborhood.
Definition interactAgents {T} `{RealOps T} (lparms : nat -> DiseaseParm T) :=
  interactAgents lparms binaryInteractionNborhood.
End InteractionModNborhood.

(** ** Bins that agree with the binner *)

(** Agent [k] is stored in bin [c]: some position of the offsets range of
    [c] in the permutation array holds [k]. *)
Definition in_bucket (b : DenseBins) (c k : nat) : Prop :=
  exists s e p,
    m_offsets b !! c = Some s /\ m_offsets b !! (c + 1) = Some e /\
    s <= p < e /\ m_perm b !! p = Some k.

(** The check that a bin index is current for the positions the binner
    sees: every binned agent is a particle of the tile, the range of its
    cell lies inside the permutation array, the agent is stored in that
    range, and every agent stored there is mapped to the same cell. *)
Definition bins_ok (binner : nat -> nat) (np : nat) (b : DenseBins) : bool :=
  (1 <=? length (m_offsets b))
  && forallb (fun i =>
       (i <? np)
       && match m_offsets b !! binner i, m_offsets b !! (binner i + 1) with
          | Some s, Some e =>
              (e <=? length (m_perm b))
              && forallb (fun p => match m_perm b !! p with
                                   | Some j => binner j =? binner i
                                   | None => false
                                   end) (seq s (e - s))
              && existsb (fun p => match m_perm b !! p with
                                   | Some j => j =? i
                                   | None => false
                                   end) (seq s (e - s))
          | _, _ => false
          end) (m_perm b).

(** What the scan itself guarantees of a kernel invocation for disease [d]
    with source [j] and target [i], whatever the bins hold: two different
    agents, a source that is infectious for [d] and is stored in the bin of
    the target's cell, and a target taken from the permutation array. *)
Definition scanned_call {T : Type} `{RealOps T} (lparms : nat -> DiseaseParm T)
    (ptd : ParticleTileData T) (binner : nat -> nat) (b : DenseBins)
    (c : nat * nat * nat) : Prop :=
  let '(d, j, i) := c in
  j <> i /\ isInfectious lparms j ptd d = true /\
  in_bucket b (binner i) j /\ i ∈ m_perm b.

(** What the specification requires of it: two different agents, both stored
    in the bin of the target's cell and both mapped to that cell, and a
    source that is infectious for [d]. *)
Definition eligible_call {T : Type} `{RealOps T} (lparms : nat -> DiseaseParm T)
    (ptd : ParticleTileData T) (binner : nat -> nat) (b : DenseBins)
    (c : nat * nat * nat) : Prop :=
  let '(d, j, i) := c in
  j <> i /\ isInfectious lparms j ptd d = true /\
  binner j = binner i /\
  in_bucket b (binner i) j /\ in_bucket b (binner i) i.

(** The trace of [s] extends the trace of [st] by invocations that satisfy
    [Q]. *)
Definition extends_with {T : Type} (Q : nat * nat * nat -> Prop)
    (st s : TileState T) : Prop :=
  exists new, calls s = calls st ++ new /\ Forall Q new.

(** ** The bin builder *)

Module SpatialBinIndex.

(** Modelled from the spec: the counting sort of section 4.1 (the builder,
    [makeBins] of InteractionModel.H over [amrex::DenseBins::build], is not
    among the sources).  [cells] holds the flat cell id of every agent, in
    agent order.  First pass: count agents per cell. *)
Definition count_agents (nbins : nat) (cells : list nat) : list nat :=
  foldl (fun counts c => alter S c counts) (replicate nbins 0) cells.

(** Modelled from the spec: the prefix sum that turns the per-cell counts
    into the offsets array of length [nbins + 1]. *)
Fixpoint prefix_sum (acc : nat) (counts : list nat) : list nat :=
  match counts with
  | [] => [acc]
  | n :: rest => acc :: prefix_sum (acc + n) rest
  end.

(** Modelled from the spec: the scatter pass; agent [i] goes to the slot its
    cell's running counter points at, and the counter moves on. *)
Fixpoint scatter (i : nat) (cells perm counters : list nat) : list nat :=
  match cells with
  | [] => perm
  | c :: rest =>
      scatter (S i) rest (<[counters !!! c := i]> perm) (alter S c counters)
  end.

(** Modelled from the spec: the builder, returning the permutation and the
    offsets.  The spec gives no result for a cell id outside [0, nbins);
    the theorems assume there is none. *)
Definition build (nbins : nat) (cells : list nat) : DenseBins :=
  let counts := count_agents nbins cells in
  let offsets := prefix_sum 0 counts in
  {| m_perm := scatter 0 cells (replicate (length cells) 0) (take nbins offsets);
     m_offsets := offsets |}.

(** What the builder is measured against: the number of agents of cell [c]
    in a list of cell ids, the number of agents in the cells below [c], and
    the slot of agent [i]: behind the agents of lower cells and behind the
    earlier agents of its own cell. *)
Fixpoint occ (c : nat) (cells : list nat) : nat :=
  match cells with
  | [] => 0
  | x :: rest => (if x =? c then 1 else 0) + occ c rest
  end.

Fixpoint offset_of (c : nat) (cells : list nat) : nat :=
  match c with
  | 0 => 0
  | S c' => offset_of c' cells + occ c' cells
  end.

Definition slot_of (cells : list nat) (i : nat) : nat :=
  offset_of (cells !!! i) cells + occ (cells !!! i) (take i cells).

End SpatialBinIndex.

(** ** Pairwise updates applied in a given order *)

Section Orders.
Context {T : Type} `{RealOps T}.

(** The kernel invoked on target [i] for the sources [srcs], in that order:
    what the scan of one bin does once the ineligible entries are skipped. *)
Definition apply_sources
    (kernel : nat -> nat -> ParticleTileData T -> DiseaseParm T -> T ->
              ProbArray T -> ProbArray T)
    (srcs : list nat) (i : nat) (ptd : ParticleTileData T)
    (lparm : DiseaseParm T) (scale : T) (p : ProbArray T) : ProbArray T :=
  foldl (fun p j => kernel j i ptd lparm scale p) p srcs.

(** The sources the scan of target [i] keeps among the bin entries [js]:
    every entry but [i] itself that is infectious for disease [d]. *)
Definition scanned_sources (lparms : nat -> DiseaseParm T)
    (ptd : ParticleTileData T) (d i : nat) (js : list nat) : list nat :=
  List.filter (fun j => negb (i =? j) && isInfectious lparms j ptd d) js.

(** Two probability arrays with the same entries (the traces may differ). *)
Definition same_entries (p q : ProbArray T) : Prop :=
  forall k, prob p k = prob q k.

End Orders.

(** ** Conditions and factors the statements speak about *)

Section Conditions.
Context {T : Type} `{RealOps T}.

Definition not_withdrawn (ptd : ParticleTileData T) (a_i a_j : nat) : Prop :=
  m_idata ptd IntIdx.withdrawn a_i = 0%Z /\ m_idata ptd IntIdx.withdrawn a_j = 0%Z.

Definition either_withdrawn (ptd : ParticleTileData T) (a_i a_j : nat) : Prop :=
  m_idata ptd IntIdx.withdrawn a_i <> 0%Z \/ m_idata ptd IntIdx.withdrawn a_j <> 0%Z.

(** The source has a workgroup and a work location, the target has a work
    location, and both carry the same workgroup id. *)
Definition coworkers (ptd : ParticleTileData T) (a_i a_j : nat) : Prop :=
  m_idata ptd IntIdx.workgroup a_i <> 0%Z /\
  (0 <= m_idata ptd IntIdx.work_i a_i)%Z /\
  (0 <= m_idata ptd IntIdx.work_i a_j)%Z /\
  m_idata ptd IntIdx.workgroup a_i = m_idata ptd IntIdx.workgroup a_j.

(** The weaker condition that leaves the target's work location out. *)
Definition source_at_work_same_group (ptd : ParticleTileData T) (a_i a_j : nat) : Prop :=
  (0 <= m_idata ptd IntIdx.work_i a_i)%Z /\
  m_idata ptd IntIdx.workgroup a_i <> 0%Z /\
  m_idata ptd IntIdx.workgroup a_j = m_idata ptd IntIdx.workgroup a_i.

Definition same_nborhood (ptd : ParticleTileData T) (a_i a_j : nat) : Prop :=
  m_idata ptd IntIdx.nborhood a_i = m_idata ptd IntIdx.nborhood a_j.

(** [hazard = infect * vac_eff] and the per-pair factor
    [1 - hazard * rate * scale], parenthesised as C++ evaluates them. *)
Definition hazard (lparm : DiseaseParm T) : T :=
  rmul (infect lparm) (vac_eff lparm).

Definition pair_factor (hz rate scale : T) : T :=
  rsub rlit1 (rmul (rmul hz rate) scale).

(** The rate tables the neighborhood kernel selects: by the source's school
    attendance, at the target's age group. *)
Definition comm_rate (ptd : ParticleTileData T) (lparm : DiseaseParm T) (a_i a_j : nat) : T :=
  if (0 <=? m_idata ptd IntIdx.school a_i)%Z
  then xmit_comm lparm (m_idata ptd IntIdx.age_group a_j)
  else xmit_comm_SC lparm (m_idata ptd IntIdx.age_group a_j).

Definition hood_rate (ptd : ParticleTileData T) (lparm : DiseaseParm T) (a_i a_j : nat) : T :=
  if (0 <=? m_idata ptd IntIdx.school a_i)%Z
  then xmit_hood lparm (m_idata ptd IntIdx.age_group a_j)
  else xmit_hood_SC lparm (m_idata ptd IntIdx.age_group a_j).

(** Array [q] is array [p] after one atomic multiply of entry [idx] by [v]
    and nothing else: one more operation in the trace, entry [idx]
    multiplied by [v], every other entry as it was. *)
Definition one_multiply (idx : nat) (v : T) (p q : ProbArray T) : Prop :=
  atomics q = atomics p ++ [(idx, v)] /\
  prob q idx = rmul (prob p idx) v /\
  forall k, k <> idx -> prob q k = prob p k.

(** Array [q] is array [p] with no operation issued and no entry changed. *)
Definition no_multiply (p q : ProbArray T) : Prop :=
  atomics q = atomics p /\ forall k, prob q k = prob p k.

End Conditions.

(** ** Concrete tiles for the scenarios *)

Module Scenario.

(** One agent, attribute by attribute. *)
Record Agent := {
  a_work_i : Z; a_workgroup : Z; a_withdrawn : Z;
  a_age_group : Z; a_nborhood : Z; a_school : Z;
  a_status : Status.t; a_counter : float
}.

Definition attr (a : IntIdx.t) (x : Agent) : Z :=
  match a with
  | IntIdx.work_i => a_work_i x
  | IntIdx.workgroup => a_workgroup x
  | IntIdx.withdrawn => a_withdrawn x
  | IntIdx.age_group => a_age_group x
  | IntIdx.nborhood => a_nborhood x
  | IntIdx.school => a_school x
  end.

Definition nobody : Agent :=
  {| a_work_i := (-1); a_workgroup := 0; a_withdrawn := 0; a_age_group := 0;
     a_nborhood := 0; a_school := (-1);
     a_status := Status.susceptible; a_counter := 0%float |}.

(** The structure-of-arrays tile holding the given agents (one status and
    counter for every disease). *)
Definition tile (l : list Agent) : ParticleTileData float :=
  {| m_idata := fun a i => attr a (nth i l nobody);
     status := fun _ i => a_status (nth i l nobody);
     disease_counter := fun _ i => a_counter (nth i l nobody) |}.

(** A worker at work location [w] in workgroup [g]. *)
Definition worker (w g : Z) (st : Status.t) (days : float) : Agent :=
  {| a_work_i := w; a_workgroup := g; a_withdrawn := 0; a_age_group := 2;
     a_nborhood := 0; a_school := 0; a_status := st; a_counter := days |}.

(** A resident of neighborhood [n], age group [age], school id [sch]. *)
Definition resident (n age sch : Z) (st : Status.t) (days : float) : Agent :=
  {| a_work_i := (-1); a_workgroup := 0; a_withdrawn := 0; a_age_group := age;
     a_nborhood := n; a_school := sch; a_status := st; a_counter := days |}.

Definition isolate (x : Agent) : Agent :=
  {| a_work_i := a_work_i x; a_workgroup := a_workgroup x; a_withdrawn := 1;
     a_age_group := a_age_group x; a_nborhood := a_nborhood x;
     a_school := a_school x; a_status := a_status x; a_counter := a_counter x |}.

(** A rate table with one value for age group 1 and another for the rest. *)
Definition by_age (young rest : float) (age : Z) : float :=
  if (age =? 1)%Z then young else rest.

(** The disease of the workplace scenarios of the specification. *)
Definition flu : DiseaseParm float :=
  {| infect := 0.5%float; vac_eff := 1%float; xmit_work := 0.1%float;
     xmit_comm := by_age 0.2 0.25; xmit_comm_SC := by_age 0.3 0.35;
     xmit_hood := by_age 0.4 0.45; xmit_hood_SC := by_age 0.7 0.75;
     incubation_length := 3%float |}.

(** A disease whose hazard times rate exceeds one. *)
Definition overdriven : DiseaseParm float :=
  {| infect := 2%float; vac_eff := 1%float; xmit_work := 1%float;
     xmit_comm := fun _ => 1%float; xmit_comm_SC := fun _ => 1%float;
     xmit_hood := fun _ => 0%float; xmit_hood_SC := fun _ => 0%float;
     incubation_length := 3%float |}.

(** Every accumulator at its step-initial value 1.0, nothing issued yet. *)
Definition fresh : ProbArray float := {| prob := fun _ => 1%float; atomics := [] |}.

Definition fresh_tile : TileState float := {| agent_prob := fun _ => fresh; calls := [] |}.

(** The same tile, disease and accumulators in exact real arithmetic. *)
Definition exact_tile (l : list Agent) : ParticleTileData R :=
  {| m_idata := fun a i => attr a (nth i l nobody);
     status := fun _ i => a_status (nth i l nobody);
     disease_counter := fun _ _ => 0%R |}.

Definition exact_by_age (young rest : R) (age : Z) : R :=
  if (age =? 1)%Z then young else rest.

Definition exact_flu : DiseaseParm R :=
  {| infect := (5 / 10)%R; vac_eff := 1%R; xmit_work := (1 / 10)%R;
     xmit_comm := exact_by_age (2 / 10) (25 / 100);
     xmit_comm_SC := exact_by_age (3 / 10) (35 / 100);
     xmit_hood := exact_by_age (4 / 10) (45 / 100);
     xmit_hood_SC := exact_by_age (7 / 10) (75 / 100);
     incubation_length := 3%R |}.

Definition exact_fresh : ProbArray R := {| prob := fun _ => 1%R; atomics := [] |}.

(** Five coworkers of workgroup 5 in two cells: agent 0 immune, agents 1
    and 2 infectious (four days into a three-day incubation), agents 3 and 4
    susceptible; agents 2 and 4 sit in cell 1, the others in cell 0. *)
Definition office : list Agent :=
  [worker 3 5 Status.immune 9%float;
   worker 3 5 Status.infected 4%float;
   worker 3 5 Status.infected 4%float;
   worker 3 5 Status.susceptible 0%float;
   worker 3 5 Status.susceptible 0%float].

Definition office_cells : list nat := [0; 0; 1; 0; 1].

Definition office_binner (i : nat) : nat := nth i office_cells 0.

Definition office_bins : DenseBins := SpatialBinIndex.build 2 office_cells.

(** A susceptible worker (agent 0) and three infectious agents at the same
    work location: a member of its workgroup, a member of another workgroup,
    and a second member of its own. *)
Definition desks : list Agent :=
  [worker 3 5 Status.susceptible 0%float;
   worker 3 5 Status.infected 4%float;
   worker 3 7 Status.infected 4%float;
   worker 3 5 Status.infected 4%float].

(** A target of neighborhood 7 (agent 0) and three infectious residents: one
    of the same neighborhood attending school, one of another neighborhood
    not attending, one of the same neighborhood not attending. *)
Definition block : list Agent :=
  [resident 7 1 4 Status.susceptible 0%float;
   resident 7 3 4 Status.infected 4%float;
   resident 8 3 (-1) Status.infected 4%float;
   resident 7 3 (-1) Status.infected 4%float].

End Scenario.

(** ** What a pass leaves in the arrays *)

Section PassResult.
Context {T : Type} `{RealOps T}.

(** The agents stored in bin [c], in bin order. *)
Definition bucket (b : DenseBins) (c : nat) : list nat :=
  match m_offsets b !! c, m_offsets b !! (c + 1) with
  | Some s, Some e => omap (fun jj => m_perm b !! jj) (seq s (e - s))
  | _, _ => []
  end.

(** The entry a pass for disease [d] is expected to leave for a binned agent
    [i], from the array [p] it started with: the old entry if [i] is not
    susceptible; otherwise the old entry after the kernel has been invoked,
    with scale 1.0 and in bin order, for every other agent of the bin of
    [i]'s cell that is infectious for [d]. *)
Definition expected_entry
    (kernel : nat -> nat -> ParticleTileData T -> DiseaseParm T -> T ->
              ProbArray T -> ProbArray T)
    (lparms : nat -> DiseaseParm T) (ptd : ParticleTileData T)
    (binner : nat -> nat) (b : DenseBins) (d i : nat) (p : ProbArray T) : T :=
  if notSusceptible lparms i ptd d then prob p i
  else prob (apply_sources kernel
               (scanned_sources lparms ptd d i (bucket b (binner i)))
               i ptd (lparms d) rlit1 p) i.

End PassResult.

(** The contacts that count in the workplace pass for target [i] and
    disease [d]: none if [i] is not susceptible; otherwise the other
    infectious agents stored in the bin of [i]'s cell that pass the tests of
    the kernel: neither agent withdrawn, the source with a workgroup and a
    work location, the target with a work location, the same workgroup. *)
Definition infectious_coworkers {T : Type} `{RealOps T}
    (lparms : nat -> DiseaseParm T) (ptd : ParticleTileData T)
    (binner : nat -> nat) (b : DenseBins) (d i : nat) : list nat :=
  if notSusceptible lparms i ptd d then []
  else
    List.filter
      (fun j =>
         negb (truthy (m_idata ptd IntIdx.withdrawn j)
               || truthy (m_idata ptd IntIdx.withdrawn i))
         && ((truthy (m_idata ptd IntIdx.workgroup j)
              && (0 <=? m_idata ptd IntIdx.work_i j)%Z)
             && ((0 <=? m_idata ptd IntIdx.work_i i)%Z
                 && (m_idata ptd IntIdx.workgroup j
                     =? m_idata ptd IntIdx.workgroup i)%Z)))
      (scanned_sources lparms ptd d i (bucket b (binner i))).

(** The targets of the atomic multiplies that the invocations [cs] issue on
    the array of disease [d]: one for every invocation for [d] whose source
    and target are both not withdrawn, in order. *)
Definition atomic_targets {T : Type} (ptd : ParticleTileData T) (d : nat)
    (cs : list (nat * nat * nat)) : list nat :=
  omap (fun c : nat * nat * nat =>
          let '(d', j, i) := c in
          if (d' =? d)
             && negb (truthy (m_idata ptd IntIdx.withdrawn j)
                      || truthy (m_idata ptd IntIdx.withdrawn i))
          then Some i else None) cs.

(** The traces of [s] extend those of [st] in step: the kernel invocations
    by some list [new], and the atomic multiplies of every disease by
    operations on the targets that [atomic_targets] names for [new]. *)
Definition in_step {T : Type} (ptd : ParticleTileData T) (st s : TileState T) : Prop :=
  exists new,
    calls s = calls st ++ new /\
    forall d, exists ops,
      atomics (agent_prob s d) = atomics (agent_prob st d) ++ ops /\
      map fst ops = atomic_targets ptd d new.

(** Variants of the office for the further scenarios: agent 3 isolating;
    agent 3 away from work; both infectious agents isolating. *)
Module ScenarioMore.

Definition quarantined : list Scenario.Agent :=
  [Scenario.worker 3 5 Status.immune 9%float;
   Scenario.worker 3 5 Status.infected 4%float;
   Scenario.worker 3 5 Status.infected 4%float;
   Scenario.isolate (Scenario.worker 3 5 Status.susceptible 0%float);
   Scenario.worker 3 5 Status.susceptible 0%float].

Definition remote : list Scenario.Agent :=
  [Scenario.worker 3 5 Status.immune 9%float;
   Scenario.worker 3 5 Status.infected 4%float;
   Scenario.worker 3 5 Status.infected 4%float;
   Scenario.worker (-1) 5 Status.susceptible 0%float;
   Scenario.worker 3 5 Status.susceptible 0%float].

Definition contained : list Scenario.Agent :=
  [Scenario.worker 3 5 Status.immune 9%float;
   Scenario.isolate (Scenario.worker 3 5 Status.infected 4%float);
   Scenario.isolate (Scenario.worker 3 5 Status.infected 4%float);
   Scenario.worker 3 5 Status.susceptible 0%float;
   Scenario.worker 3 5 Status.susceptible 0%float].

(** The step-initial state in exact arithmetic. *)
Definition exact_fresh_tile : TileState R :=
  {| agent_prob := fun _ => Scenario.exact_fresh; calls := [] |}.

(** The tile in exact arithmetic with every infected agent four days into
    the disease, and so infectious for an incubation of three days. *)
Definition exact_sick_tile (l : list Scenario.Agent) : ParticleTileData R :=
  {| m_idata := fun a i => Scenario.attr a (nth i l Scenario.nobody);
     status := fun _ i => Scenario.a_status (nth i l Scenario.nobody);
     disease_counter := fun _ i =>
       if Status.eqb (Scenario.a_status (nth i l Scenario.nobody)) Status.infected
       then 4%R else 0%R |}.

End ScenarioMore.

(** ** The driver (main.cpp) *)

(** How a call ends in the model: with a result, in behaviour the language
    leaves undefined (signed overflow, a conversion out of range, a read of
    an uninitialised variable or outside an array), with the fuel of a
    loop used up, or with the program aborted (a failed
    [AMREX_ALWAYS_ASSERT], a file that cannot be opened). *)
Inductive Outcome (A : Type) :=
| Returns (a : A)
| Undefined
| OutOfFuel
| Aborts.

Arguments Returns {A} a.
Arguments Undefined {A}.
Arguments OutOfFuel {A}.
Arguments Aborts {A}.

(** The range of [int]. *)
Definition INT_MAX : Z := 2147483647.
Definition INT_MIN : Z := (-2147483648)%Z.

Definition fits_int (z : Z) : bool := (INT_MIN <=? z)%Z && (z <=? INT_MAX)%Z.

(** [(double) z] for an integer of at most 62 bits: exact. *)
Definition double_of_Z (z : Z) : float :=
  if (z <? 0)%Z then PrimFloat.opp (PrimFloat.of_uint63 (Uint63.of_Z (- z)))
  else PrimFloat.of_uint63 (Uint63.of_Z z).

(** [std::floor] of a double, as an integer: a finite double is
    [+-m * 2^e]; infinities and NaN have no integer value. *)
Definition floor_of_double (x : float) : option Z :=
  match Prim2SF x with
  | S754_zero _ => Some 0%Z
  | S754_finite s m e =>
      let sm := if s then Z.neg m else Z.pos m in
      Some (if (0 <=? e)%Z then sm * 2 ^ e else sm / 2 ^ (- e))%Z
  | S754_infinity _ | S754_nan => None
  end.

(** [(int) std::floor(std::sqrt((double) n))]; the conversion to [int] is
    undefined for a value outside its range. *)
Definition int_floor_sqrt (n : Z) : option Z :=
  match floor_of_double (PrimFloat.sqrt (double_of_Z n)) with
  | Some v => if fits_int v then Some v else None
  | None => None
  end.

Module ICType.
Inductive t := Demo | Census.
End ICType.

Module Driver.

(** The fields of [TestParams] that [get_geometry] and [runAgent] read. *)
Record TestParams := {
  ic_type : ICType.t;
  size : Z * Z;
  nsteps : Z
}.

(** The fields of [DemographicData] that [get_geometry] and
    [read_workerflow] read.  The class is not part of these sources: its
    arrays are read as total maps from [int] to [int], their bounds are
    not modelled. *)
Record DemographicData := {
  Ncommunity : Z;
  Nunit : Z;
  Unit_on_proc : Z -> Z;
  myIDtoUnit : Z -> Z;
  Start : Z -> Z;
  Population : Z -> Z
}.

(** An [amrex::Box] in two dimensions, by its corners, and the part of an
    [amrex::Geometry] that [get_geometry] sets. *)
Record Box := {
  smallEnd : Z * Z;
  bigEnd : Z * Z
}.

Definition numPts (b : Box) : Z :=
  ((fst (bigEnd b) - fst (smallEnd b) + 1)
   * (snd (bigEnd b) - snd (smallEnd b) + 1))%Z.

Record Geometry := {
  Domain : Box;
  ProbLo : float * float;
  ProbHi : float * float;
  isPeriodic : bool * bool
}.

(** [while (iv[0]*iv[1] <= demo.Ncommunity) { ++iv[0]; }] on [int]s. *)
Fixpoint widen (fuel : nat) (iv0 iv1 ncommunity : Z) : Outcome Z :=
  match fuel with
  | O => OutOfFuel
  | S fuel' =>
      if negb (fits_int (iv0 * iv1)) then Undefined
      else if (iv0 * iv1 <=? ncommunity)%Z then
        if fits_int (iv0 + 1) then widen fuel' (iv0 + 1) iv1 ncommunity
        else Undefined
      else Returns iv0
  end.

(** [get_geometry] (lines 26-65), in two dimensions. *)
Definition get_geometry (fuel : nat) (demo : DemographicData)
    (params : TestParams) : Outcome Geometry :=
  let is_per := (true, true) in
  match ic_type params with
  | ICType.Demo =>
      let domain_lo := (0, 0)%Z in
      if fits_int (fst (size params) - 1) && fits_int (snd (size params) - 1)
      then
        let domain_hi := (fst (size params) - 1, snd (size params) - 1)%Z in
        Returns {| Domain := {| smallEnd := domain_lo; bigEnd := domain_hi |};
                   ProbLo := (0%float, 0%float);
                   ProbHi := (3000%float, 3000%float);
                   isPeriodic := is_per |}
      else Undefined
  | ICType.Census =>
      match int_floor_sqrt (Ncommunity demo) with
      | None => Undefined
      | Some iv1 =>
          match widen fuel iv1 iv1 (Ncommunity demo) with
          | Returns iv0 =>
              Returns {| Domain := {| smallEnd := (0, 0)%Z;
                                      bigEnd := (iv0 - 1, iv1 - 1)%Z |};
                         ProbLo := (0%float, 0%float);
                         ProbHi := (1%float, 1%float);
                         isPeriodic := is_per |}
          | Undefined => Undefined
          | OutOfFuel => OutOfFuel
          | Aborts => Aborts
          end
      end
  end.

(** A census of [n] communities in no unit. *)
Definition communities (n : Z) : DemographicData :=
  {| Ncommunity := n; Nunit := 0; Unit_on_proc := fun _ => 0%Z;
     myIDtoUnit := fun _ => 0%Z; Start := fun _ => 0%Z;
     Population := fun _ => 0%Z |}.

End Driver.

(** ** The worker-flow matrix (main.cpp, lines 67-207) *)

(** [unsigned int]: 32 bits, arithmetic modulo 2^32. *)
Definition UINT_MAX : Z := 4294967295.

Definition fits_unsigned (z : Z) : bool := (0 <=? z)%Z && (z <=? UINT_MAX)%Z.

Definition wrap (z : Z) : Z := (z mod (UINT_MAX + 1))%Z.

(** The integer value of [rint] of a double, in the default rounding mode
    (to nearest, ties to even): a finite double is [+-m * 2^e]. *)
Definition rint (x : float) : option Z :=
  match Prim2SF x with
  | S754_zero _ => Some 0%Z
  | S754_finite s m e =>
      let n :=
        if (0 <=? e)%Z then (Z.pos m * 2 ^ e)%Z
        else
          let q := (Z.pos m / 2 ^ (- e))%Z in
          let r := (Z.pos m mod 2 ^ (- e))%Z in
          match (2 * r ?= 2 ^ (- e))%Z with
          | Lt => q
          | Gt => (q + 1)%Z
          | Eq => if Z.even q then q else (q + 1)%Z
          end in
      Some (if s then (- n)%Z else n)
  | S754_infinity _ | S754_nan => None
  end.

(** The conversion of an integral double to [unsigned int]: undefined
    outside its range (and for an infinity or a NaN). *)
Definition unsigned_of (v : option Z) : Outcome Z :=
  match v with
  | Some z => if fits_unsigned z then Returns z else Undefined
  | None => Undefined
  end.

Definition bind {A B : Type} (x : Outcome A) (f : A -> Outcome B) : Outcome B :=
  match x with
  | Returns a => f a
  | Undefined => Undefined
  | OutOfFuel => OutOfFuel
  | Aborts => Aborts
  end.

(** A [for] loop over [l] whose body can end in undefined behaviour. *)
Fixpoint for_each {A S : Type} (body : S -> A -> Outcome S) (l : list A)
    (s : S) : Outcome S :=
  match l with
  | [] => Returns s
  | a :: l' => bind (body s a) (for_each body l')
  end.

Module Workerflow.
Import Driver.

(** [unsigned int **flow]: the rows [flow[i]] and their entries [flow[i][j]],
    as total maps.  Row [i] is allocated, with [demo.Nunit] entries, for
    the units [0 <= i < demo.Nunit] with [demo.Unit_on_proc[i]]. *)
Definition Row : Type := Z -> Z.
Definition Flow : Type := Z -> Row.

Definition is_unit (demo : DemographicData) (i : Z) : bool :=
  (0 <=? i)%Z && (i <? Nunit demo)%Z.

(** Lines 77-83: the rows of the units on this processor, set to 0. *)
Definition zero_row (nunit : Z) (row : Row) : Row :=
  foldl (fun (r : Row) (j : Z) => <[j := 0%Z]> r) row (seqZ 0 nunit).

Definition allocate (demo : DemographicData) (flow : Flow) : Flow :=
  foldl (fun (fl : Flow) (i : Z) =>
           if truthy (Unit_on_proc demo i)
           then <[i := zero_row (Nunit demo) (fl i)]> fl
           else fl)
        flow (seqZ 0 (Nunit demo)).

(** One record of the worker-flow file: three [unsigned int]s. *)
Record Work := {
  from : Z;
  to : Z;
  number : Z
}.

(** Lines 103-113: the body of the loop over the records.  The write to
    [flow[i][j]] is outside the matrix unless [i] and [j] are units. *)
Definition read_record (demo : DemographicData) (flow : Flow) (w : Work)
    : Outcome Flow :=
  let i := myIDtoUnit demo (from w) in
  if truthy (Unit_on_proc demo i) then
    let j := myIDtoUnit demo (to w) in
    if negb (fits_int (j + 1)) then Undefined
    else if negb (Start demo (j + 1) =? Start demo j)%Z then
      if is_unit demo i && is_unit demo j
      then Returns (<[i := <[j := number w]> (flow i)]> flow)
      else Undefined
    else Returns flow
  else Returns flow.

(** Lines 117-123: cumulative numbers, row by row. *)
Definition accumulate_row (nunit : Z) (row : Row) : Row :=
  foldl (fun (r : Row) (j : Z) => <[j := wrap (r j + r (j - 1))%Z]> r) row
    (seqZ 1 (nunit - 1)).

Definition accumulate (demo : DemographicData) (flow : Flow) : Flow :=
  foldl (fun (fl : Flow) (i : Z) =>
           if truthy (Unit_on_proc demo i)
           then <[i := accumulate_row (Nunit demo) (fl i)]> fl
           else fl)
        flow (seqZ 0 (Nunit demo)).

(** Lines 130-138: the rows scaled to the model population of the unit. *)
Definition scale_of (population : Z) : Outcome float :=
  bind (unsigned_of (rint (double_of_Z population / 2000)%float))
    (fun number =>
       Returns (1.02 * (2000 * double_of_Z number) / double_of_Z population)%float).

Definition rescale_row (nunit : Z) (scale : float) (row : Row) : Outcome Row :=
  for_each (fun (r : Row) (j : Z) =>
              bind (unsigned_of (rint (double_of_Z (r j) * scale)%float))
                (fun v => Returns (<[j := v]> r)))
           (seqZ 0 nunit) row.

Definition rescale_unit (demo : DemographicData) (i : Z) (row : Row)
    : Outcome Row :=
  bind (scale_of (Population demo i))
    (fun scale => rescale_row (Nunit demo) scale row).

Definition rescale (demo : DemographicData) (flow : Flow) : Outcome Flow :=
  for_each (fun (fl : Flow) (i : Z) =>
              if truthy (Unit_on_proc demo i) && truthy (Population demo i)
              then bind (rescale_unit demo i (fl i))
                     (fun row => Returns (<[i := row]> fl))
              else Returns fl)
           (seqZ 0 (Nunit demo)) flow.

(** Lines 77-138: the matrix that [read_workerflow] leaves in [flow], from
    the records of the file and whatever the memory held before. *)
Definition read_workerflow (demo : DemographicData) (records : list Work)
    (memory : Flow) : Outcome Flow :=
  bind (for_each (read_record demo) records (allocate demo memory))
    (fun flow => rescale demo (accumulate demo flow)).

(** Lines 176-180: the destination unit for the draw [irnd] of an agent
    living in unit [from]; [None] is the variable [to] left uninitialised.
    [while (irnd >= flow[from][to]) { to++; }] reads outside the row when
    [to] is not a unit. *)
Fixpoint search (fuel : nat) (nunit : Z) (row : Row) (irnd to : Z) : Outcome Z :=
  match fuel with
  | O => OutOfFuel
  | S fuel' =>
      if negb ((0 <=? to)%Z && (to <? nunit)%Z) then Undefined
      else if (row to <=? irnd)%Z then
        if fits_int (to + 1) then search fuel' nunit row irnd (to + 1)
        else Undefined
      else Returns to
  end.

Definition destination (fuel : nat) (demo : DemographicData) (flow : Flow)
    (from irnd : Z) : Outcome (option Z) :=
  if is_unit demo from && truthy (Unit_on_proc demo from) then
    if (irnd <? flow from (Nunit demo - 1))%Z then
      bind (search fuel (Nunit demo) (flow from) irnd 0) (fun to => Returns (Some to))
    else Returns None
  else Undefined.

(** The sum of the entries [0 .. j] of a row. *)
Definition partial_sum (row : Row) (j : Z) : Z :=
  foldr Z.add 0%Z (row <$> seqZ 0 (j + 1)).

(** The records of a file that go from unit [i] to unit [j]. *)
Definition records_between (demo : DemographicData) (records : list Work)
    (i j : Z) : list Work :=
  List.filter
    (fun w => (myIDtoUnit demo (from w) =? i)%Z && (myIDtoUnit demo (to w) =? j)%Z)
    records.

End Workerflow.

(** Three units: two communities in the first, none in the second, three
    in the third; the third unit lives on another processor.  The file has
    a record into the unit without communities, one from the unit on the
    other processor, and two for the same pair of units. *)
Module Towns.
Import Driver Workerflow.

Definition towns : DemographicData :=
  {| Ncommunity := 5;
     Nunit := 3;
     Unit_on_proc := fun i => if (i =? 2)%Z then 0%Z else 1%Z;
     myIDtoUnit := fun id => (id - 100)%Z;
     Start := fun j => match j with
                       | 0 => 0 | 1 => 2 | 2 => 2 | _ => 5
                       end%Z;
     Population := fun i => if (i =? 0)%Z then 4100%Z else 0%Z |}.

Definition file : list Work :=
  [ {| from := 100; to := 100; number := 30 |};
    {| from := 100; to := 101; number := 7 |};
    {| from := 100; to := 102; number := 12 |};
    {| from := 102; to := 100; number := 5 |};
    {| from := 101; to := 100; number := 9 |};
    {| from := 100; to := 102; number := 20 |} ]%Z.

Definition garbage : Flow := fun _ _ => 77%Z.

End Towns.

(** ** The assignment of workplaces and the run (main.cpp, lines 140-268) *)

(** The integer value of a double truncated toward zero, as the conversion
    to an integer type takes it. *)
Definition trunc (x : float) : option Z :=
  match Prim2SF x with
  | S754_zero _ => Some 0%Z
  | S754_finite s m e =>
      let n := if (0 <=? e)%Z then (Z.pos m * 2 ^ e)%Z
               else (Z.pos m / 2 ^ (- e))%Z in
      Some (if s then (- n)%Z else n)
  | S754_infinity _ | S754_nan => None
  end.

(** The conversion of an [unsigned int] to [int]: modulo 2^32. *)
Definition int_of_unsigned (z : Z) : Z :=
  if (z <=? INT_MAX)%Z then z else (z - (UINT_MAX + 1))%Z.

(** A loop that makes a new list, element by element, and ends where an
    element does not return. *)
Fixpoint map_each {A B : Type} (f : A -> Outcome B) (l : list A)
    : Outcome (list B) :=
  match l with
  | [] => Returns []
  | a :: l' => bind (f a) (fun b => bind (map_each f l') (fun bs => Returns (b :: bs)))
  end.

Module Main.
Import Driver Workerflow.

(** The attributes of an agent that [read_workerflow] reads and writes. *)
Record Agent := {
  home_i : Z;
  home_j : Z;
  age_group : Z;
  work_i : Z;
  work_j : Z
}.

(** What the random number generator gives the work item of an agent:
    [Random_int(nwork, engine)], [Random(engine)] and
    [Random_int(Start[to+1] - Start[to])].  The generator is not part of
    these sources; its results are inputs, and any values. *)
Record Draws := {
  irnd : Z;
  coin : float;
  pick : Z
}.

(** One tile of the container: the unit and the community of every cell
    ([unit_mf], [comm_mf]) and the agents with their draws.  The arrays and
    the agents are what [initAgentsDemo] or [initAgentsCensus] has left;
    that code is not part of these sources. *)
Record Tile := {
  unit_arr : Z -> Z -> Z;
  comm_arr : Z -> Z -> Z;
  agents : list (Agent * Draws)
}.

(** Lines 162-205: the work item of agent [a], with [amrex::Real] a double.
    [atOffset] is [Box::atOffset] of the domain, which is not part of these
    sources.  A draw at or above the last entry of the row leaves [to]
    uninitialised, and [from == to] reads it. *)
Definition assign_workplace (fuel : nat) (demo : DemographicData) (flow : Flow)
    (atOffset : Z -> Z * Z) (t : Tile) (a : Agent) (dr : Draws) : Outcome Agent :=
  let from := unit_arr t (home_i a) (home_j a) in
  bind (unsigned_of (rint (double_of_Z (Population demo from) / 2000)%float))
    (fun number =>
  bind (unsigned_of (trunc (2000 * double_of_Z number * 0.586)%float))
    (fun nwork =>
  if (nwork =? 0)%Z then Returns a
  else if (age_group a =? 2)%Z || (age_group a =? 3)%Z then
    bind (destination fuel demo flow from (irnd dr))
      (fun to_set =>
         match to_set with
         | None => Undefined
         | Some to =>
             bind
               (if (from =? to)%Z && PrimFloat.ltb (coin dr) 0.25
                then Returns (comm_arr t (home_i a) (home_j a))
                else if negb (fits_int (Start demo (to + 1) - Start demo to))
                then Undefined
                else
                  let comm_to :=
                    int_of_unsigned (wrap (Start demo to + pick dr)) in
                  if (comm_to <? Ncommunity demo)%Z then Returns comm_to
                  else Aborts)
               (fun comm_to =>
                  let comm_to_iv := atOffset comm_to in
                  Returns {| home_i := home_i a; home_j := home_j a;
                             age_group := age_group a;
                             work_i := fst comm_to_iv;
                             work_j := snd comm_to_iv |})
         end)
  else Returns a)).

(** Lines 146-206: the loop over the tiles and, in each, over the agents. *)
Definition assign_tile (fuel : nat) (demo : DemographicData) (flow : Flow)
    (atOffset : Z -> Z * Z) (t : Tile) : Outcome Tile :=
  bind (map_each (fun ad : Agent * Draws =>
                    bind (assign_workplace fuel demo flow atOffset t (fst ad) (snd ad))
                      (fun a => Returns (a, snd ad)))
          (agents t))
    (fun ags => Returns {| unit_arr := unit_arr t; comm_arr := comm_arr t;
                           agents := ags |}).

(** [read_workerflow] (lines 69-207): the matrix, then the workplaces.
    [file] is the list of records of the worker-flow file, or [None] if it
    cannot be opened ([amrex::FileOpenFailed] aborts). *)
Definition read_workerflow (fuel : nat) (demo : DemographicData)
    (file : option (list Work)) (memory : Flow) (atOffset : Z -> Z * Z)
    (tiles : list Tile) : Outcome (Flow * list Tile) :=
  match file with
  | None => Aborts
  | Some records =>
      bind (Workerflow.read_workerflow demo records memory)
        (fun flow =>
           bind (map_each (assign_tile fuel demo flow atOffset) tiles)
             (fun tiles' => Returns (flow, tiles')))
  end.

(** The calls [runAgent] makes on its collaborators, in order. *)
Module Call.
Inductive t :=
| get_test_params
| InitFromFile
| get_geometry
| initAgentsDemo
| initAgentsCensus
| read_workerflow
| Print (i : Z)
| writePlotFile (step : Z)
| updateStatus
| interactAgents
| moveAgentsRandomWalk
| moveRandomTravel
| Redistribute
| printTotals.
End Call.

(** The body of the evolution loop for step [i]. *)
Definition step (i : Z) : list Call.t :=
  [Call.Print i]
  ++ (if (Z.rem i 168 =? 0)%Z then [Call.writePlotFile i] else [])
  ++ [Call.updateStatus; Call.interactAgents; Call.moveAgentsRandomWalk]
  ++ (if (Z.rem i 24 =? 0)%Z then [Call.moveRandomTravel] else [])
  ++ [Call.Redistribute; Call.printTotals].

(** The calls of a run of [runAgent] that reaches its end. *)
Definition calls (params : TestParams) : list Call.t :=
  [Call.get_test_params]
  ++ match ic_type params with
     | ICType.Census => [Call.InitFromFile]
     | ICType.Demo => []
     end
  ++ [Call.get_geometry]
  ++ match ic_type params with
     | ICType.Demo => [Call.initAgentsDemo]
     | ICType.Census => [Call.initAgentsCensus]
     end
  ++ [Call.read_workerflow]
  ++ concat (map step (seqZ 0 (nsteps params)))
  ++ (if (Z.rem (nsteps params) 168 =? 0)%Z
      then [Call.writePlotFile (nsteps params)] else []).

(** The steps for which a trace writes a plot file, and how often a call
    occurs in it. *)
Definition plot_steps (trace : list Call.t) : list Z :=
  omap (fun c => match c with Call.writePlotFile s => Some s | _ => None end) trace.

Definition is_call (c : Call.t) (x : Call.t) : bool :=
  match c, x with
  | Call.updateStatus, Call.updateStatus
  | Call.interactAgents, Call.interactAgents
  | Call.moveAgentsRandomWalk, Call.moveAgentsRandomWalk
  | Call.moveRandomTravel, Call.moveRandomTravel
  | Call.Redistribute, Call.Redistribute
  | Call.printTotals, Call.printTotals => true
  | _, _ => false
  end.

Definition count (c : Call.t) (trace : list Call.t) : nat :=
  length (List.filter (is_call c) trace).

(** [runAgent] (lines 209-268): the calls it has made when it returns.
    The parameters, the demographic data, the file, the tiles and the
    memory are what the code outside these sources provides; the run ends
    where [get_geometry] or [read_workerflow] does not return. *)
Definition runAgent (fuel : nat) (params : TestParams) (demo : DemographicData)
    (file : option (list Work)) (memory : Flow) (atOffset : Box -> Z -> Z * Z)
    (tiles : list Tile) : Outcome (list Call.t) :=
  bind (get_geometry fuel demo params)
    (fun geom =>
       bind (read_workerflow fuel demo file memory (atOffset (Domain geom)) tiles)
         (fun _ => Returns (calls params))).

End Main.

(** The residents of the towns: a worker of the first unit whose draw goes
    to the third, a child, a worker who stays in the first unit and in the
    home community, and a worker living in the second unit, which has no
    population.  Cells are laid out row by row. *)
Module Townsfolk.
Import Driver Workerflow Main.

Definition resident (i j age : Z) : Agent :=
  {| home_i := i; home_j := j; age_group := age; work_i := (-1); work_j := (-1) |}.

Definition tiles : list Tile :=
  [ {| unit_arr := fun i _ => if (i =? 2)%Z then 1%Z else 0%Z;
       comm_arr := fun i j => (i + 3 * j)%Z;
       agents :=
         [ (resident 0 0 2, {| irnd := 30; coin := 0.5; pick := 1 |});
           (resident 1 0 1, {| irnd := 0; coin := 0; pick := 0 |});
           (resident 1 0 3, {| irnd := 10; coin := 0.125; pick := 0 |});
           (resident 2 1 2, {| irnd := 0; coin := 0; pick := 0 |}) ]%Z |} ].

Definition atOffset (domain : Box) (offset : Z) : Z * Z :=
  let len := (fst (bigEnd domain) - fst (smallEnd domain) + 1)%Z in
  (fst (smallEnd domain) + offset mod len, snd (smallEnd domain) + offset / len)%Z.

Definition params (n : Z) : TestParams :=
  {| ic_type := ICType.Census; size := (0, 0)%Z; nsteps := n |}.

End Townsfolk.

(** * Properties *)

(** ** The laws in the two arithmetics *)

#[export] Instance R_unit_laws : MulUnitLaws R.
Proof. split; intros; simpl; ring. Qed.

#[export] Instance R_comm_laws : MulCommLaws R.
Proof. split; intros; simpl; ring. Qed.

(** Multiplying a binary64 value by 1.0 is exact: the product of the
    mantissas is the mantissa shifted by 52 bits, which rounding shifts
    back.  The statement is first made on the specification of the
    primitive multiplication. *)
Lemma digits2_pos_shift52 (m : positive) :
  Z.pos (digits2_pos (Pos.mul 4503599627370496 m)) = (Z.pos (digits2_pos m) + 52)%Z.
Proof.
  cbv [Pos.mul]. cbn [digits2_pos]. repeat rewrite Pos2Z.inj_succ. lia.
Qed.

Lemma SF64mul_one_r (x : spec_float) :
  valid_binary x = true ->
  SF64mul x (S754_finite false 4503599627370496 (-52)) = x.
Proof.
  destruct x as [s|s| |s m e]; intros Hv;
    try (destruct s; reflexivity); try reflexivity.
  unfold SF64mul, SFmul. cbn [xorb valid_binary] in *.
  unfold bounded, canonical_mantissa in Hv.
  apply andb_prop in Hv as [Hc Hb]. apply Z.eqb_eq in Hc.
  rewrite (Pos.mul_comm m).
  unfold binary_round_aux, shr_fexp, Zdigits2.
  rewrite digits2_pos_shift52.
  replace (Z.pos (digits2_pos m) + 52 + (e + -52))%Z
    with (Z.pos (digits2_pos m) + e)%Z by lia.
  rewrite Hc. replace (e - (e + -52))%Z with 52%Z by lia.
  cbv [Pos.mul]. cbn -[fexp Z.add Z.sub Z.leb].
  replace (e + -52 + 52)%Z with e by lia.
  rewrite Hc, Z.sub_diag. cbn -[Z.leb Z.sub].
  rewrite Hb. destruct s; reflexivity.
Qed.

Lemma SF64mul_one_l (x : spec_float) :
  valid_binary x = true ->
  SF64mul (S754_finite false 4503599627370496 (-52)) x = x.
Proof.
  destruct x as [s|s| |s m e]; intros Hv; try reflexivity.
  unfold SF64mul, SFmul. cbn [xorb valid_binary] in *.
  unfold bounded, canonical_mantissa in Hv.
  apply andb_prop in Hv as [Hc Hb]. apply Z.eqb_eq in Hc.
  unfold binary_round_aux, shr_fexp, Zdigits2.
  rewrite digits2_pos_shift52.
  replace (Z.pos (digits2_pos m) + 52 + (-52 + e))%Z
    with (Z.pos (digits2_pos m) + e)%Z by lia.
  rewrite Hc. replace (e - (-52 + e))%Z with 52%Z by lia.
  cbv [Pos.mul]. cbn -[fexp Z.add Z.sub Z.leb].
  replace (-52 + e + 52)%Z with e by lia.
  rewrite Hc, Z.sub_diag. cbn -[Z.leb Z.sub].
  rewrite Hb. reflexivity.
Qed.

#[export] Instance float_unit_laws : MulUnitLaws float.
Proof.
  split; intros x; simpl; apply Prim2SF_inj; rewrite mul_spec;
    change (Prim2SF 1) with (S754_finite false 4503599627370496 (-52)).
  - apply SF64mul_one_l, Prim2SF_valid.
  - apply SF64mul_one_r, Prim2SF_valid.
Qed.

(** Two binary64 values that a comparison tells apart are different. *)
Lemma float_neq (x y : float) : PrimFloat.ltb x y = true -> x <> y.
Proof.
  intros Hlt ->. rewrite ltb_spec in Hlt. unfold SFltb in Hlt.
  destruct (Prim2SF y) as [s|s| |s m e]; simpl in Hlt;
    try destruct s; try discriminate.
  - rewrite Z.compare_refl, Pos.compare_cont_refl in Hlt. discriminate.
  - rewrite Z.compare_refl, Pos.compare_cont_refl in Hlt. discriminate.
Qed.

(** ** The kernels, case by case *)

Section KernelFacts.
Context {T : Type} `{RealOps T}.
Implicit Types (ptd : ParticleTileData T) (lparm : DiseaseParm T) (p : ProbArray T).

Lemma Gpu_Atomic_Multiply_prob_eq idx v p :
  prob (Gpu_Atomic_Multiply idx v p) idx = rmul (prob p idx) v.
Proof. simpl. apply fn_lookup_insert. Qed.

Lemma Gpu_Atomic_Multiply_prob_ne idx v p k :
  k <> idx -> prob (Gpu_Atomic_Multiply idx v p) k = prob p k.
Proof. intros Hk. simpl. apply fn_lookup_insert_ne. congruence. Qed.

Lemma withdrawn_test_false ptd a_i a_j :
  truthy (m_idata ptd IntIdx.withdrawn a_i)
  || truthy (m_idata ptd IntIdx.withdrawn a_j) = false
  <-> not_withdrawn ptd a_i a_j.
Proof.
  unfold not_withdrawn, truthy.
  rewrite orb_false_iff, !negb_false_iff, !Z.eqb_eq. tauto.
Qed.

Lemma withdrawn_test_true ptd a_i a_j :
  truthy (m_idata ptd IntIdx.withdrawn a_i)
  || truthy (m_idata ptd IntIdx.withdrawn a_j) = true
  <-> either_withdrawn ptd a_i a_j.
Proof.
  unfold either_withdrawn, truthy.
  rewrite orb_true_iff, !negb_true_iff, !Z.eqb_neq. tauto.
Qed.

Lemma coworkers_test ptd a_i a_j :
  (truthy (m_idata ptd IntIdx.workgroup a_i)
   && (0 <=? m_idata ptd IntIdx.work_i a_i)%Z)
  && ((0 <=? m_idata ptd IntIdx.work_i a_j)%Z
      && (m_idata ptd IntIdx.workgroup a_i =? m_idata ptd IntIdx.workgroup a_j)%Z)
  = true <-> coworkers ptd a_i a_j.
Proof.
  unfold coworkers, truthy.
  rewrite !andb_true_iff, negb_true_iff, Z.eqb_neq, !Z.leb_le, Z.eqb_eq. tauto.
Qed.

(** The workplace kernel is one early return or one atomic multiply, by the
    local product [prob]. *)
Lemma binaryInteractionWork_eq a_i a_j ptd lparm scale p :
  binaryInteractionWork a_i a_j ptd lparm scale p =
  if truthy (m_idata ptd IntIdx.withdrawn a_i)
     || truthy (m_idata ptd IntIdx.withdrawn a_j)
  then p
  else Gpu_Atomic_Multiply a_j
         (if (truthy (m_idata ptd IntIdx.workgroup a_i)
              && (0 <=? m_idata ptd IntIdx.work_i a_i)%Z)
             && ((0 <=? m_idata ptd IntIdx.work_i a_j)%Z
                 && (m_idata ptd IntIdx.workgroup a_i
                     =? m_idata ptd IntIdx.workgroup a_j)%Z)
          then rmul rlit1 (pair_factor (hazard lparm) (xmit_work lparm) scale)
          else rlit1) p.
Proof.
  unfold binaryInteractionWork, pair_factor, hazard.
  destruct (truthy (m_idata ptd IntIdx.withdrawn a_i)
            || truthy (m_idata ptd IntIdx.withdrawn a_j)); [reflexivity|].
  destruct (truthy (m_idata ptd IntIdx.workgroup a_i)
            && (0 <=? m_idata ptd IntIdx.work_i a_i)%Z); [|reflexivity].
  destruct ((0 <=? m_idata ptd IntIdx.work_i a_j)%Z
            && (m_idata ptd IntIdx.workgroup a_i
                =? m_idata ptd IntIdx.workgroup a_j)%Z); reflexivity.
Qed.

(** The neighborhood kernel likewise: the community factor always enters the
    local product, the neighborhood factor when the ids agree. *)
Lemma binaryInteractionNborhood_eq a_i a_j ptd lparm scale p :
  binaryInteractionNborhood a_i a_j ptd lparm scale p =
  if truthy (m_idata ptd IntIdx.withdrawn a_i)
     || truthy (m_idata ptd IntIdx.withdrawn a_j)
  then p
  else
    let fc := pair_factor (hazard lparm) (comm_rate ptd lparm a_i a_j) scale in
    let fh := pair_factor (hazard lparm) (hood_rate ptd lparm a_i a_j) scale in
    Gpu_Atomic_Multiply a_j
      (if (m_idata ptd IntIdx.nborhood a_i =? m_idata ptd IntIdx.nborhood a_j)%Z
       then rmul (rmul rlit1 fc) fh else rmul rlit1 fc) p.
Proof.
  unfold binaryInteractionNborhood, pair_factor, hazard, comm_rate, hood_rate.
  rewrite (Z.leb_antisym (m_idata ptd IntIdx.school a_i) 0).
  destruct (truthy (m_idata ptd IntIdx.withdrawn a_i)
            || truthy (m_idata ptd IntIdx.withdrawn a_j)); [reflexivity|].
  destruct (m_idata ptd IntIdx.school a_i <? 0)%Z;
    destruct (m_idata ptd IntIdx.nborhood a_i
              =? m_idata ptd IntIdx.nborhood a_j)%Z; reflexivity.
Qed.

(** Both kernels write the target's entry only. *)
Lemma binaryInteractionWork_frame a_i a_j ptd lparm scale p k :
  k <> a_j -> prob (binaryInteractionWork a_i a_j ptd lparm scale p) k = prob p k.
Proof.
  intros Hk. rewrite binaryInteractionWork_eq.
  destruct (_ || _); [reflexivity|].
  apply Gpu_Atomic_Multiply_prob_ne, Hk.
Qed.

Lemma binaryInteractionNborhood_frame a_i a_j ptd lparm scale p k :
  k <> a_j -> prob (binaryInteractionNborhood a_i a_j ptd lparm scale p) k = prob p k.
Proof.
  intros Hk. rewrite binaryInteractionNborhood_eq.
  destruct (_ || _); [reflexivity|].
  apply Gpu_Atomic_Multiply_prob_ne, Hk.
Qed.

End KernelFacts.

(** ** Withdrawn agents *)

(** C3: if the source or the target is withdrawn, both kernels return the
    probability array as they received it: no entry changes and no atomic
    operation is issued, whatever the workgroup, neighborhood, school and age
    data and whatever the disease parameters. *)
Theorem withdrawn_pair_no_effect {T : Type} `{RealOps T}
    (a_i a_j : nat) (ptd : ParticleTileData T) (lparm : DiseaseParm T)
    (scale : T) (p : ProbArray T) :
  either_withdrawn ptd a_i a_j ->
  binaryInteractionWork a_i a_j ptd lparm scale p = p /\
  binaryInteractionNborhood a_i a_j ptd lparm scale p = p.
Proof.
  intros Hw. apply withdrawn_test_true in Hw.
  rewrite binaryInteractionWork_eq, binaryInteractionNborhood_eq, Hw.
  split; reflexivity.
Qed.

(** An isolating coworker of the same workgroup and neighborhood. *)
Lemma withdrawn_pair_no_effect_witness :
  let ptd := Scenario.tile
               [Scenario.isolate (Scenario.worker 3 5 Status.infected 4%float);
                Scenario.worker 3 5 Status.susceptible 0%float] in
  either_withdrawn ptd 0 1 /\
  binaryInteractionWork 0 1 ptd Scenario.flu 1%float Scenario.fresh = Scenario.fresh /\
  binaryInteractionNborhood 0 1 ptd Scenario.flu 1%float Scenario.fresh = Scenario.fresh.
Proof.
  intros ptd.
  assert (Hw : either_withdrawn ptd 0 1) by (left; simpl; lia).
  split; [exact Hw|].
  exact (withdrawn_pair_no_effect 0 1 ptd Scenario.flu 1%float Scenario.fresh Hw).
Defined.

(** ** The workplace kernel *)

(** C1, as the code has it: for a pair neither of whom is withdrawn, the
    workplace kernel multiplies the target's accumulator by
    1 - infect*vac_eff*xmit_work*scale when the source has a workgroup and a
    valid work location, the target has a valid work location too, and the
    workgroup ids agree; otherwise the target's accumulator keeps its value.
    No other entry changes. *)
Theorem work_kernel_effect {T : Type} `{MulUnitLaws T}
    (a_i a_j : nat) (ptd : ParticleTileData T) (lparm : DiseaseParm T)
    (scale : T) (p : ProbArray T) :
  not_withdrawn ptd a_i a_j ->
  (coworkers ptd a_i a_j ->
   prob (binaryInteractionWork a_i a_j ptd lparm scale p) a_j
   = rmul (prob p a_j) (pair_factor (hazard lparm) (xmit_work lparm) scale)) /\
  (~ coworkers ptd a_i a_j ->
   prob (binaryInteractionWork a_i a_j ptd lparm scale p) a_j = prob p a_j) /\
  (forall k, k <> a_j ->
   prob (binaryInteractionWork a_i a_j ptd lparm scale p) k = prob p k).
Proof.
  intros Hw. apply withdrawn_test_false in Hw.
  split; [|split].
  - intros Hc. apply coworkers_test in Hc.
    rewrite binaryInteractionWork_eq, Hw, Hc, Gpu_Atomic_Multiply_prob_eq.
    now rewrite rmul_1_l.
  - intros Hc. rewrite binaryInteractionWork_eq, Hw.
    destruct (_ && _) eqn:Ht; [apply coworkers_test in Ht; contradiction|].
    rewrite Gpu_Atomic_Multiply_prob_eq. apply rmul_1_r.
  - intros k Hk. now apply binaryInteractionWork_frame.
Qed.

(** The two workplace scenarios of the specification in binary64: a shared
    workgroup 5 takes the accumulator from 1.0 to 0.95, workgroups 5 and 7
    leave it at 1.0. *)
Lemma work_kernel_effect_witness :
  let shared := Scenario.tile [Scenario.worker 3 5 Status.infected 4%float;
                               Scenario.worker 3 5 Status.susceptible 0%float] in
  let apart := Scenario.tile [Scenario.worker 3 5 Status.infected 4%float;
                              Scenario.worker 3 7 Status.susceptible 0%float] in
  (not_withdrawn shared 0 1 /\ coworkers shared 0 1 /\
   prob (binaryInteractionWork 0 1 shared Scenario.flu 1%float Scenario.fresh) 1
   = 0.95%float) /\
  (not_withdrawn apart 0 1 /\ ~ coworkers apart 0 1 /\
   prob (binaryInteractionWork 0 1 apart Scenario.flu 1%float Scenario.fresh) 1
   = 1%float).
Proof.
  intros shared apart.
  assert (Hs : not_withdrawn shared 0 1) by (split; reflexivity).
  assert (Ha : not_withdrawn apart 0 1) by (split; reflexivity).
  assert (Hc : coworkers shared 0 1) by (unfold coworkers; simpl; lia).
  assert (Hn : ~ coworkers apart 0 1) by (unfold coworkers; simpl; lia).
  split; (split; [assumption|split; [assumption|]]).
  - rewrite (proj1 (work_kernel_effect 0 1 shared Scenario.flu 1%float
                      Scenario.fresh Hs) Hc).
    reflexivity.
  - rewrite (proj1 (proj2 (work_kernel_effect 0 1 apart Scenario.flu 1%float
                             Scenario.fresh Ha)) Hn).
    reflexivity.
Defined.

(** C1 as stated fails: the source has a valid work location and workgroup 5,
    the target carries workgroup 5 as well but has no valid work location
    (work_i = -1).  The stated condition holds, yet the accumulator is not
    multiplied by 0.95: it stays 1.0. *)
Lemma work_kernel_target_off_site_counterexample :
  let ptd := Scenario.tile [Scenario.worker 3 5 Status.infected 4%float;
                            Scenario.worker (-1) 5 Status.susceptible 0%float] in
  let after := binaryInteractionWork 0 1 ptd Scenario.flu 1%float Scenario.fresh in
  not_withdrawn ptd 0 1 /\
  source_at_work_same_group ptd 0 1 /\
  prob after 1 = 1%float /\
  prob after 1
  <> rmul (prob Scenario.fresh 1)
          (pair_factor (hazard Scenario.flu) (xmit_work Scenario.flu) 1%float).
Proof.
  intros ptd after.
  split; [split; reflexivity|].
  split; [unfold source_at_work_same_group; simpl; lia|].
  split; [reflexivity|].
  intros E. symmetry in E. revert E. apply float_neq. reflexivity.
Qed.

(** C9: the workplace kernel changes an entry of the probability array only
    if that entry is the target's and all four conditions hold: the source's
    workgroup id is nonzero, the source's work location is valid, the
    target's work location is valid, and the workgroup ids are equal.  In
    particular a target without a valid work location is not affected even
    when the workgroup ids match, and neither is a target when source and
    target both carry the workgroup id 0. *)
Theorem work_kernel_changes_only_coworkers {T : Type} `{MulUnitLaws T}
    (a_i a_j : nat) (ptd : ParticleTileData T) (lparm : DiseaseParm T)
    (scale : T) (p : ProbArray T) :
  (forall k, prob (binaryInteractionWork a_i a_j ptd lparm scale p) k <> prob p k ->
             k = a_j /\ coworkers ptd a_i a_j) /\
  ((m_idata ptd IntIdx.work_i a_j < 0)%Z ->
   m_idata ptd IntIdx.workgroup a_i = m_idata ptd IntIdx.workgroup a_j ->
   forall k, prob (binaryInteractionWork a_i a_j ptd lparm scale p) k = prob p k) /\
  (m_idata ptd IntIdx.workgroup a_i = 0%Z ->
   m_idata ptd IntIdx.workgroup a_j = 0%Z ->
   forall k, prob (binaryInteractionWork a_i a_j ptd lparm scale p) k = prob p k).
Proof.
  assert (Hno : ~ coworkers ptd a_i a_j ->
                forall k, prob (binaryInteractionWork a_i a_j ptd lparm scale p) k
                          = prob p k).
  { intros Hc k. rewrite binaryInteractionWork_eq.
    destruct (_ || _); [reflexivity|].
    destruct (_ && _) eqn:Ht; [apply coworkers_test in Ht; contradiction|].
    destruct (decide (k = a_j)) as [->|Hk].
    - rewrite Gpu_Atomic_Multiply_prob_eq. apply rmul_1_r.
    - now apply Gpu_Atomic_Multiply_prob_ne. }
  split; [|split].
  - intros k Hch.
    destruct (decide (k = a_j)) as [->|Hk].
    + split; [reflexivity|].
      destruct ((truthy (m_idata ptd IntIdx.workgroup a_i)
                 && (0 <=? m_idata ptd IntIdx.work_i a_i)%Z)
                && ((0 <=? m_idata ptd IntIdx.work_i a_j)%Z
                    && (m_idata ptd IntIdx.workgroup a_i
                        =? m_idata ptd IntIdx.workgroup a_j)%Z)) eqn:Ht.
      * now apply coworkers_test.
      * exfalso. apply Hch, Hno. intros Hc.
        apply coworkers_test in Hc. congruence.
    + exfalso. apply Hch. now apply binaryInteractionWork_frame.
  - intros Hj _. apply Hno. unfold coworkers. lia.
  - intros Hi _. apply Hno. unfold coworkers. tauto.
Qed.

(** A changed accumulator reveals coworkers; an off-site target and a pair
    of sentinel workgroups see no change. *)
Lemma work_kernel_changes_only_coworkers_witness :
  let shared := Scenario.tile [Scenario.worker 3 5 Status.infected 4%float;
                               Scenario.worker 3 5 Status.susceptible 0%float] in
  let off_site := Scenario.tile [Scenario.worker 3 5 Status.infected 4%float;
                                 Scenario.worker (-1) 5 Status.susceptible 0%float] in
  let sentinel := Scenario.tile [Scenario.worker 3 0 Status.infected 4%float;
                                 Scenario.worker 3 0 Status.susceptible 0%float] in
  (prob (binaryInteractionWork 0 1 shared Scenario.flu 1%float Scenario.fresh) 1
   <> prob Scenario.fresh 1 /\ coworkers shared 0 1) /\
  prob (binaryInteractionWork 0 1 off_site Scenario.flu 1%float Scenario.fresh) 1
  = prob Scenario.fresh 1 /\
  prob (binaryInteractionWork 0 1 sentinel Scenario.flu 1%float Scenario.fresh) 1
  = prob Scenario.fresh 1.
Proof.
  intros shared off_site sentinel.
  assert (Hch : prob (binaryInteractionWork 0 1 shared Scenario.flu 1%float
                        Scenario.fresh) 1 <> prob Scenario.fresh 1)
    by (apply float_neq; reflexivity).
  split; [split; [exact Hch|]|split].
  - exact (proj2 (proj1 (work_kernel_changes_only_coworkers 0 1 shared
                           Scenario.flu 1%float Scenario.fresh) 1 Hch)).
  - apply (proj1 (proj2 (work_kernel_changes_only_coworkers 0 1 off_site
                           Scenario.flu 1%float Scenario.fresh)));
      [simpl; lia|reflexivity].
  - apply (proj2 (proj2 (work_kernel_changes_only_coworkers 0 1 sentinel
                           Scenario.flu 1%float Scenario.fresh))); reflexivity.
Defined.

(** ** The neighborhood kernel *)

(** C2: for a pair neither of whom is withdrawn, the neighborhood kernel
    always applies the community factor, with the rate taken from xmit_comm
    when the source attends school (school >= 0) and from xmit_comm_SC
    otherwise, at the target's age group; it applies the neighborhood
    factor, with xmit_hood / xmit_hood_SC chosen the same way, exactly when
    the two neighborhood ids agree.  With scale 1.0, a source attending
    school and a shared neighborhood, the target's accumulator is multiplied
    by (1 - hazard*xmit_comm[age]) * (1 - hazard*xmit_hood[age]). *)
Theorem nborhood_kernel_effect {T : Type} `{MulUnitLaws T}
    (a_i a_j : nat) (ptd : ParticleTileData T) (lparm : DiseaseParm T)
    (scale : T) (p : ProbArray T) :
  not_withdrawn ptd a_i a_j ->
  let after := binaryInteractionNborhood a_i a_j ptd lparm scale p in
  let fc := pair_factor (hazard lparm) (comm_rate ptd lparm a_i a_j) scale in
  let fh := pair_factor (hazard lparm) (hood_rate ptd lparm a_i a_j) scale in
  let age := m_idata ptd IntIdx.age_group a_j in
  (same_nborhood ptd a_i a_j -> prob after a_j = rmul (prob p a_j) (rmul fc fh)) /\
  (~ same_nborhood ptd a_i a_j -> prob after a_j = rmul (prob p a_j) fc) /\
  (scale = rlit1 -> (0 <= m_idata ptd IntIdx.school a_i)%Z ->
   same_nborhood ptd a_i a_j ->
   prob after a_j
   = rmul (prob p a_j)
       (rmul (rsub rlit1 (rmul (hazard lparm) (xmit_comm lparm age)))
             (rsub rlit1 (rmul (hazard lparm) (xmit_hood lparm age))))).
Proof.
  intros Hw after fc fh age. apply withdrawn_test_false in Hw.
  assert (Hsame : same_nborhood ptd a_i a_j ->
                  prob after a_j = rmul (prob p a_j) (rmul fc fh)).
  { intros Hn. apply Z.eqb_eq in Hn. subst after.
    rewrite binaryInteractionNborhood_eq, Hw. cbv zeta.
    rewrite Hn, Gpu_Atomic_Multiply_prob_eq. now rewrite rmul_1_l. }
  split; [exact Hsame|split].
  - intros Hn. apply Z.eqb_neq in Hn. subst after.
    rewrite binaryInteractionNborhood_eq, Hw. cbv zeta.
    rewrite Hn, Gpu_Atomic_Multiply_prob_eq. now rewrite rmul_1_l.
  - intros -> Hs Hn. rewrite (Hsame Hn). subst fc fh.
    unfold pair_factor, comm_rate, hood_rate.
    apply Z.leb_le in Hs. rewrite Hs, !rmul_1_r. reflexivity.
Qed.

(** A school-attending source of age group 3 and a target of age group 1 in
    the same neighborhood, in binary64 with hazard 0.5 and the rates 0.2 and
    0.4 of the target's age group: the accumulator becomes
    (1 - 0.5*0.2) * (1 - 0.5*0.4); with different neighborhoods only the
    community factor 1 - 0.5*0.2 is applied. *)
Lemma nborhood_kernel_effect_witness :
  let same := Scenario.tile [Scenario.resident 7 3 4 Status.infected 4%float;
                             Scenario.resident 7 1 4 Status.susceptible 0%float] in
  let other := Scenario.tile [Scenario.resident 7 3 4 Status.infected 4%float;
                              Scenario.resident 8 1 4 Status.susceptible 0%float] in
  (not_withdrawn same 0 1 /\ same_nborhood same 0 1 /\
   prob (binaryInteractionNborhood 0 1 same Scenario.flu 1%float Scenario.fresh) 1
   = ((1 - 0.5 * 0.2) * (1 - 0.5 * 0.4))%float) /\
  (not_withdrawn other 0 1 /\ ~ same_nborhood other 0 1 /\
   prob (binaryInteractionNborhood 0 1 other Scenario.flu 1%float Scenario.fresh) 1
   = (1 - 0.5 * 0.2)%float).
Proof.
  intros same other.
  assert (Hs : not_withdrawn same 0 1) by (split; reflexivity).
  assert (Ho : not_withdrawn other 0 1) by (split; reflexivity).
  assert (Hn : same_nborhood same 0 1) by reflexivity.
  assert (Hd : ~ same_nborhood other 0 1) by (unfold same_nborhood; simpl; lia).
  split; (split; [assumption|split; [assumption|]]).
  - pose proof (nborhood_kernel_effect 0 1 same Scenario.flu 1%float
                  Scenario.fresh Hs) as (_ & _ & Hschool).
    rewrite (Hschool eq_refl); [reflexivity|simpl; lia|exact Hn].
  - rewrite (proj1 (proj2 (nborhood_kernel_effect 0 1 other Scenario.flu 1%float
                             Scenario.fresh Ho)) Hd).
    reflexivity.
Defined.

(** ** Atomic operations per kernel invocation *)

(** C10: when neither party is withdrawn, each kernel performs exactly one
    atomic multiply, on the target's accumulator: the trace grows by one
    operation on the target, the target's entry is its old value times the
    operand, and no other entry changes.  The operand of the workplace
    kernel is 1.0 when the coworker conditions fail (and 1.0 times the
    factor when they hold); the operand of the neighborhood kernel is the
    local product of the community factor and, for a shared neighborhood,
    the neighborhood factor, committed in that one multiply.  When either
    party is withdrawn, neither kernel issues an operation or changes an
    entry. *)
Theorem kernel_atomic_operations {T : Type} `{RealOps T}
    (a_i a_j : nat) (ptd : ParticleTileData T) (lparm : DiseaseParm T)
    (scale : T) (p : ProbArray T) :
  let work := binaryInteractionWork a_i a_j ptd lparm scale p in
  let hood := binaryInteractionNborhood a_i a_j ptd lparm scale p in
  let fw := pair_factor (hazard lparm) (xmit_work lparm) scale in
  let fc := pair_factor (hazard lparm) (comm_rate ptd lparm a_i a_j) scale in
  let fh := pair_factor (hazard lparm) (hood_rate ptd lparm a_i a_j) scale in
  (not_withdrawn ptd a_i a_j ->
   (coworkers ptd a_i a_j -> one_multiply a_j (rmul rlit1 fw) p work) /\
   (~ coworkers ptd a_i a_j -> one_multiply a_j rlit1 p work) /\
   (same_nborhood ptd a_i a_j ->
    one_multiply a_j (rmul (rmul rlit1 fc) fh) p hood) /\
   (~ same_nborhood ptd a_i a_j -> one_multiply a_j (rmul rlit1 fc) p hood)) /\
  (either_withdrawn ptd a_i a_j -> no_multiply p work /\ no_multiply p hood).
Proof.
  intros work hood fw fc fh. subst work hood.
  rewrite binaryInteractionWork_eq, binaryInteractionNborhood_eq.
  assert (Hone : forall v, one_multiply a_j v p (Gpu_Atomic_Multiply a_j v p)).
  { intros v. split; [reflexivity|]. split.
    - apply Gpu_Atomic_Multiply_prob_eq.
    - intros k Hk. now apply Gpu_Atomic_Multiply_prob_ne. }
  split.
  - intros Hw. apply withdrawn_test_false in Hw. rewrite Hw. cbv zeta.
    repeat apply conj.
    + intros Hc. apply coworkers_test in Hc. rewrite Hc. apply Hone.
    + intros Hc. destruct (_ && _) eqn:Ht; [|apply Hone].
      apply coworkers_test in Ht. contradiction.
    + intros Hn. apply Z.eqb_eq in Hn. rewrite Hn. apply Hone.
    + intros Hn. apply Z.eqb_neq in Hn. rewrite Hn. apply Hone.
  - intros Hw. apply withdrawn_test_true in Hw. rewrite Hw.
    split; (split; [reflexivity|intros k; reflexivity]).
Qed.

(** Workgroups 5 and 7: one multiply by 1.0, which leaves the accumulator
    at 1.0.  Coworkers: one multiply, the accumulator at 1.0 * (1.0 * 0.95).
    A shared neighborhood: one multiply by the product of both factors, the
    accumulator at that product.  An isolating source: no operation, the
    accumulator as it was. *)
Lemma kernel_atomic_operations_witness :
  let apart := Scenario.tile [Scenario.worker 3 5 Status.infected 4%float;
                              Scenario.worker 3 7 Status.susceptible 0%float] in
  let mates := Scenario.tile [Scenario.worker 3 5 Status.infected 4%float;
                              Scenario.worker 3 5 Status.susceptible 0%float] in
  let away := Scenario.tile
                [Scenario.isolate (Scenario.worker 3 5 Status.infected 4%float);
                 Scenario.worker 3 5 Status.susceptible 0%float] in
  let work_apart := binaryInteractionWork 0 1 apart Scenario.flu 1%float Scenario.fresh in
  let work_mates := binaryInteractionWork 0 1 mates Scenario.flu 1%float Scenario.fresh in
  let hood_apart := binaryInteractionNborhood 0 1 apart Scenario.flu 1%float Scenario.fresh in
  let work_away := binaryInteractionWork 0 1 away Scenario.flu 1%float Scenario.fresh in
  let hood_away := binaryInteractionNborhood 0 1 away Scenario.flu 1%float Scenario.fresh in
  (atomics work_apart = [(1, 1%float)] /\ prob work_apart 1 = 1%float) /\
  (atomics work_mates = [(1, (1 * (1 - 0.5 * 1 * 0.1 * 1))%float)] /\
   prob work_mates 1 = (1 * (1 * (1 - 0.5 * 1 * 0.1 * 1)))%float /\
   prob work_mates 1 <> 1%float /\ prob work_mates 0 = 1%float) /\
  (atomics hood_apart
   = [(1, (1 * (1 - 0.5 * 1 * 0.25 * 1) * (1 - 0.5 * 1 * 0.45 * 1))%float)] /\
   prob hood_apart 1
   = (1 * (1 * (1 - 0.5 * 1 * 0.25 * 1) * (1 - 0.5 * 1 * 0.45 * 1)))%float /\
   prob hood_apart 1 <> 1%float /\ prob hood_apart 0 = 1%float) /\
  (atomics work_away = [] /\ prob work_away 1 = 1%float) /\
  (atomics hood_away = [] /\ prob hood_away 1 = 1%float).
Proof.
  intros apart mates away. cbv zeta.
  assert (Ha : not_withdrawn apart 0 1) by (split; reflexivity).
  assert (Hm : not_withdrawn mates 0 1) by (split; reflexivity).
  assert (Hc : ~ coworkers apart 0 1) by (unfold coworkers; simpl; lia).
  assert (Hcm : coworkers mates 0 1) by (unfold coworkers; simpl; lia).
  assert (Hn : same_nborhood apart 0 1) by reflexivity.
  assert (Hw : either_withdrawn away 0 1) by (left; simpl; lia).
  pose proof (kernel_atomic_operations 0 1 apart Scenario.flu 1%float
                Scenario.fresh) as [Hone _].
  pose proof (kernel_atomic_operations 0 1 mates Scenario.flu 1%float
                Scenario.fresh) as [Hmates _].
  pose proof (kernel_atomic_operations 0 1 away Scenario.flu 1%float
                Scenario.fresh) as [_ Hnone].
  destruct (Hone Ha) as (_ & Hwork & Hhood & _).
  destruct (Hmates Hm) as (Hco & _).
  destruct (Hnone Hw) as [[Hw1 Hw1'] [Hw2 Hw2']].
  destruct (Hwork Hc) as (Ht1 & Hp1 & _).
  destruct (Hco Hcm) as (Ht2 & Hp2 & Hf2).
  destruct (Hhood Hn) as (Ht3 & Hp3 & Hf3).
  repeat apply conj.
  - rewrite Ht1. reflexivity.
  - rewrite Hp1. reflexivity.
  - rewrite Ht2. reflexivity.
  - rewrite Hp2. reflexivity.
  - rewrite Hp2. apply float_neq. reflexivity.
  - rewrite (Hf2 0) by lia. reflexivity.
  - rewrite Ht3. reflexivity.
  - rewrite Hp3. reflexivity.
  - rewrite Hp3. apply float_neq. reflexivity.
  - rewrite (Hf3 0) by lia. reflexivity.
  - rewrite Hw1. reflexivity.
  - rewrite Hw1'. reflexivity.
  - rewrite Hw2. reflexivity.
  - rewrite Hw2'. reflexivity.
Defined.

(** ** No clamping *)

(** C6: neither kernel clamps the per-pair factor.  With infect = 2,
    vac_eff = 1 and rates 1 (hazard*rate*scale = 2 > 1) the operand of the
    atomic multiply is 1 - 2 = -1 in both kernels: one infectious contact
    takes the accumulator from 1.0 to -1.0, a second one back to 1.0.  The
    kernels accept these parameters as they accept any others. *)
Theorem kernels_do_not_clamp :
  let lp := Scenario.overdriven in
  let ptd := Scenario.tile [Scenario.worker 3 5 Status.infected 4%float;
                            Scenario.worker 3 5 Status.susceptible 0%float;
                            Scenario.worker 3 5 Status.infected 4%float] in
  let work1 := binaryInteractionWork 0 1 ptd lp 1%float Scenario.fresh in
  let hood1 := binaryInteractionNborhood 0 1 ptd lp 1%float Scenario.fresh in
  PrimFloat.ltb 1 (hazard lp * xmit_work lp * 1) = true /\
  PrimFloat.ltb 1 (hazard lp * comm_rate ptd lp 0 1 * 1) = true /\
  atomics work1 = [(1, (-1)%float)] /\ prob work1 1 = (-1)%float /\
  atomics hood1 = [(1, (-1)%float)] /\ prob hood1 1 = (-1)%float /\
  PrimFloat.ltb (prob work1 1) 0 = true /\
  PrimFloat.ltb (prob hood1 1) 0 = true /\
  prob (apply_sources binaryInteractionWork [0; 2] 1 ptd lp 1%float Scenario.fresh) 1
  = 1%float /\
  prob (apply_sources binaryInteractionNborhood [0; 2] 1 ptd lp 1%float Scenario.fresh) 1
  = 1%float.
Proof. repeat split; reflexivity. Qed.

(** ** Order of the pairwise updates *)

Section OrderInvariance.
Context {T : Type} `{RealOps T}.

(** An update that leaves the array alone or multiplies entry [i] by a
    factor depending on the source only, with factors that may be applied
    in either order. *)
Variable i : nat.
Variable step : nat -> ProbArray T -> ProbArray T.
Variable factor : nat -> option T.
Hypothesis step_prob : forall j p k,
  prob (step j p) k =
  match factor j with
  | Some f => if decide (k = i) then rmul (prob p i) f else prob p k
  | None => prob p k
  end.
Hypothesis factor_swap : forall a b fa fb x,
  factor a = Some fa -> factor b = Some fb ->
  rmul (rmul x fb) fa = rmul (rmul x fa) fb.

Lemma step_same_entries j p q :
  same_entries p q -> same_entries (step j p) (step j q).
Proof.
  intros Hpq k. rewrite !step_prob.
  destruct (factor j); [|apply Hpq].
  destruct (decide (k = i)); [now rewrite Hpq|apply Hpq].
Qed.

Lemma step_swap a b p :
  same_entries (step a (step b p)) (step b (step a p)).
Proof.
  intros k. rewrite !step_prob.
  destruct (factor a) as [fa|] eqn:Ha, (factor b) as [fb|] eqn:Hb;
    destruct (decide (k = i)); try reflexivity;
    destruct (decide (i = i)); try congruence.
  now apply (factor_swap a b).
Qed.

Lemma foldl_step_same_entries l p q :
  same_entries p q ->
  same_entries (foldl (fun p j => step j p) p l) (foldl (fun p j => step j p) q l).
Proof.
  revert p q. induction l as [|a l IH]; intros p q Hpq; [exact Hpq|].
  simpl. apply IH, step_same_entries, Hpq.
Qed.

Lemma foldl_step_permutation l l' p :
  l ≡ₚ l' ->
  same_entries (foldl (fun p j => step j p) p l) (foldl (fun p j => step j p) p l').
Proof.
  intros Hperm. revert p.
  induction Hperm as [|a l l' _ IH|a b l|l l' l'' _ IH1 _ IH2]; intros p.
  - intros k. reflexivity.
  - simpl. apply IH.
  - simpl. apply foldl_step_same_entries, step_swap.
  - intros k. rewrite IH1. apply IH2.
Qed.

End OrderInvariance.

(** Both kernels are updates of that kind. *)
Lemma binaryInteractionWork_step {T : Type} `{RealOps T} (i : nat)
    (ptd : ParticleTileData T) (lparm : DiseaseParm T) (scale : T) :
  exists factor : nat -> option T, forall j p k,
    prob (binaryInteractionWork j i ptd lparm scale p) k =
    match factor j with
    | Some f => if decide (k = i) then rmul (prob p i) f else prob p k
    | None => prob p k
    end.
Proof.
  eexists (fun j =>
    if truthy (m_idata ptd IntIdx.withdrawn j)
       || truthy (m_idata ptd IntIdx.withdrawn i)
    then None else Some _).
  intros j p k. rewrite binaryInteractionWork_eq.
  destruct (_ || _); [reflexivity|].
  destruct (decide (k = i)) as [->|Hk].
  - apply Gpu_Atomic_Multiply_prob_eq.
  - now apply Gpu_Atomic_Multiply_prob_ne.
Qed.

Lemma binaryInteractionNborhood_step {T : Type} `{RealOps T} (i : nat)
    (ptd : ParticleTileData T) (lparm : DiseaseParm T) (scale : T) :
  exists factor : nat -> option T, forall j p k,
    prob (binaryInteractionNborhood j i ptd lparm scale p) k =
    match factor j with
    | Some f => if decide (k = i) then rmul (prob p i) f else prob p k
    | None => prob p k
    end.
Proof.
  eexists (fun j =>
    if truthy (m_idata ptd IntIdx.withdrawn j)
       || truthy (m_idata ptd IntIdx.withdrawn i)
    then None else Some _).
  intros j p k. rewrite binaryInteractionNborhood_eq.
  destruct (_ || _); [reflexivity|]. cbv zeta.
  destruct (decide (k = i)) as [->|Hk].
  - apply Gpu_Atomic_Multiply_prob_eq.
  - now apply Gpu_Atomic_Multiply_prob_ne.
Qed.

(** When 1.0 is a unit, the workplace kernel for one disease and one scale
    multiplies by one and the same factor or not at all. *)
Lemma binaryInteractionWork_step_unit {T : Type} `{MulUnitLaws T} (i : nat)
    (ptd : ParticleTileData T) (lparm : DiseaseParm T) (scale : T) :
  exists factor : nat -> option T,
    (forall j p k,
       prob (binaryInteractionWork j i ptd lparm scale p) k =
       match factor j with
       | Some f => if decide (k = i) then rmul (prob p i) f else prob p k
       | None => prob p k
       end) /\
    (forall a b fa fb, factor a = Some fa -> factor b = Some fb -> fa = fb).
Proof.
  exists (fun j =>
    if truthy (m_idata ptd IntIdx.withdrawn j)
       || truthy (m_idata ptd IntIdx.withdrawn i)
    then None
    else if (truthy (m_idata ptd IntIdx.workgroup j)
             && (0 <=? m_idata ptd IntIdx.work_i j)%Z)
            && ((0 <=? m_idata ptd IntIdx.work_i i)%Z
                && (m_idata ptd IntIdx.workgroup j
                    =? m_idata ptd IntIdx.workgroup i)%Z)
         then Some (pair_factor (hazard lparm) (xmit_work lparm) scale)
         else None).
  split.
  - intros j p k. rewrite binaryInteractionWork_eq.
    destruct (_ || _); [reflexivity|].
    destruct (_ && _).
    + destruct (decide (k = i)) as [->|Hk].
      * rewrite Gpu_Atomic_Multiply_prob_eq. now rewrite rmul_1_l.
      * now apply Gpu_Atomic_Multiply_prob_ne.
    + destruct (decide (k = i)) as [->|Hk].
      * rewrite Gpu_Atomic_Multiply_prob_eq. apply rmul_1_r.
      * now apply Gpu_Atomic_Multiply_prob_ne.
  - intros a b fa fb Ha Hb.
    destruct (_ || _) in Ha; [discriminate|].
    destruct (_ && _) in Ha; [|discriminate].
    destruct (_ || _) in Hb; [discriminate|].
    destruct (_ && _) in Hb; [|discriminate].
    congruence.
Qed.

(** C7, as far as it holds: the entries of the probability array after the
    kernel has been invoked for a list of sources of one target do not
    depend on the order of the list
    - for the workplace kernel, in any arithmetic in which 1.0 is a unit of
      multiplication (binary64 is one): all its factors for one disease are
      equal or 1.0;
    - for either kernel, in exact arithmetic, where multiplication is
      associative and commutative. *)
Theorem accumulated_product_order_invariant {T : Type} `{RealOps T}
    (srcs srcs' : list nat) (i : nat) (ptd : ParticleTileData T)
    (lparm : DiseaseParm T) (scale : T) (p : ProbArray T) :
  srcs ≡ₚ srcs' ->
  (MulUnitLaws T \/ MulCommLaws T ->
   forall k,
     prob (apply_sources binaryInteractionWork srcs i ptd lparm scale p) k
     = prob (apply_sources binaryInteractionWork srcs' i ptd lparm scale p) k) /\
  (MulCommLaws T ->
   forall k,
     prob (apply_sources binaryInteractionNborhood srcs i ptd lparm scale p) k
     = prob (apply_sources binaryInteractionNborhood srcs' i ptd lparm scale p) k).
Proof.
  intros Hperm. unfold apply_sources. split.
  - intros [Hunit|Hcomm] k.
    + destruct (binaryInteractionWork_step_unit i ptd lparm scale)
        as (fw & Hfw & Hsame).
      apply (foldl_step_permutation i
               (fun j p => binaryInteractionWork j i ptd lparm scale p)
               fw Hfw); [|exact Hperm].
      intros a b fa fb x Ha Hb. now rewrite (Hsame a b fa fb Ha Hb).
    + destruct (binaryInteractionWork_step i ptd lparm scale) as [fw Hfw].
      apply (foldl_step_permutation i
               (fun j p => binaryInteractionWork j i ptd lparm scale p)
               fw Hfw); [|exact Hperm].
      intros a b fa fb x _ _.
      rewrite <- !rmul_assoc. now rewrite (rmul_comm fb fa).
  - intros Hcomm k.
    destruct (binaryInteractionNborhood_step i ptd lparm scale) as [fn Hfn].
    apply (foldl_step_permutation i
             (fun j p => binaryInteractionNborhood j i ptd lparm scale p)
             fn Hfn); [|exact Hperm].
    intros a b fa fb x _ _.
    rewrite <- !rmul_assoc. now rewrite (rmul_comm fb fa).
Qed.

(** Three infectious agents around one target, in two orders: the workplace
    kernel in binary64, the neighborhood kernel in exact arithmetic. *)
Lemma accumulated_product_order_invariant_witness :
  [1; 2; 3] ≡ₚ [2; 3; 1] /\
  prob (apply_sources binaryInteractionWork [1; 2; 3] 0
          (Scenario.tile Scenario.desks) Scenario.flu 1%float Scenario.fresh) 0
  = prob (apply_sources binaryInteractionWork [2; 3; 1] 0
            (Scenario.tile Scenario.desks) Scenario.flu 1%float Scenario.fresh) 0 /\
  prob (apply_sources binaryInteractionNborhood [1; 2; 3] 0
          (Scenario.exact_tile Scenario.block) Scenario.exact_flu 1%R
          Scenario.exact_fresh) 0
  = prob (apply_sources binaryInteractionNborhood [2; 3; 1] 0
            (Scenario.exact_tile Scenario.block) Scenario.exact_flu 1%R
            Scenario.exact_fresh) 0.
Proof.
  assert (Hperm : [1; 2; 3] ≡ₚ [2; 3; 1]).
  { change ([1] ++ [2; 3] ≡ₚ [2; 3] ++ [1]). apply Permutation_app_comm. }
  split; [exact Hperm|]. split.
  - exact (proj1 (accumulated_product_order_invariant [1; 2; 3] [2; 3; 1] 0
                    (Scenario.tile Scenario.desks) Scenario.flu 1%float
                    Scenario.fresh Hperm)
             (or_introl float_unit_laws) 0).
  - exact (proj2 (accumulated_product_order_invariant [1; 2; 3] [2; 3; 1] 0
                    (Scenario.exact_tile Scenario.block) Scenario.exact_flu 1%R
                    Scenario.exact_fresh Hperm)
             R_comm_laws 0).
Defined.

(** C7 as stated fails in binary64: the same three infectious residents,
    giving the same three factors, leave the target's accumulator at two
    different values in the orders 1, 2, 3 and 2, 3, 1. *)
Lemma accumulated_product_order_counterexample :
  let ptd := Scenario.tile Scenario.block in
  let after := fun srcs =>
    apply_sources binaryInteractionNborhood srcs 0 ptd Scenario.flu 1%float
      Scenario.fresh in
  [1; 2; 3] ≡ₚ [2; 3; 1] /\
  map snd (atomics (after [1; 2; 3])) ≡ₚ map snd (atomics (after [2; 3; 1])) /\
  prob (after [1; 2; 3]) 0 = 0x1.5a3ec02f2f988p-2%float /\
  prob (after [2; 3; 1]) 0 = 0x1.5a3ec02f2f987p-2%float /\
  prob (after [2; 3; 1]) 0 <> prob (after [1; 2; 3]) 0.
Proof.
  intros ptd after.
  split; [change ([1] ++ [2; 3] ≡ₚ [2; 3] ++ [1]); apply Permutation_app_comm|].
  split.
  { change (map snd (atomics (after [1; 2; 3])))
      with ([0.72000000000000008%float] ++ [0.84999999999999998%float; 0.55249999999999999%float]).
    apply Permutation_app_comm. }
  split; [reflexivity|]. split; [reflexivity|].
  apply float_neq. reflexivity.
Qed.

(** ** The orchestrator *)

Section LoopFacts.
Context {T : Type}.

(** A property kept by every iteration that returns is kept by the loop. *)
Lemma for_loop_invariant (P : TileState T -> Prop)
    (body : nat -> TileState T -> option (TileState T)) (idx : list nat) :
  (forall k s s', k ∈ idx -> P s -> body k s = Some s' -> P s') ->
  forall st st', P st -> for_loop body idx st = Some st' -> P st'.
Proof.
  induction idx as [|k idx IH]; intros Hbody st st' HP Hrun; simpl in Hrun.
  - congruence.
  - destruct (body k st) as [s1|] eqn:Hk; simpl in Hrun; [|discriminate].
    apply (IH (fun k' s s' Hin => Hbody k' s s' (list_elem_of_further _ _ _ Hin)) s1);
      [|exact Hrun].
    apply (Hbody k st s1); [apply list_elem_of_here|exact HP|exact Hk].
Qed.

(** A loop whose iterations never abort does not abort. *)
Lemma for_loop_is_Some
    (body : nat -> TileState T -> option (TileState T)) (idx : list nat) :
  (forall k s, k ∈ idx -> is_Some (body k s)) ->
  forall st, is_Some (for_loop body idx st).
Proof.
  induction idx as [|k idx IH]; intros Hbody st; simpl.
  - eauto.
  - destruct (Hbody k st (list_elem_of_here _ _)) as [s1 ->]. simpl.
    apply IH. intros k' s Hin. apply Hbody. now apply list_elem_of_further.
Qed.

End LoopFacts.

(** What [bins_ok] says about one entry of the permutation array. *)
Lemma bins_ok_entry (binner : nat -> nat) (np : nat) (b : DenseBins) (i : nat) :
  bins_ok binner np b = true -> i ∈ m_perm b ->
  i < np /\
  exists s e,
    m_offsets b !! binner i = Some s /\ m_offsets b !! (binner i + 1) = Some e /\
    e <= length (m_perm b) /\
    (forall p, s <= p < e -> exists j, m_perm b !! p = Some j /\ binner j = binner i) /\
    (exists p, s <= p < e /\ m_perm b !! p = Some i).
Proof.
  unfold bins_ok. rewrite andb_true_iff, forallb_forall. intros [_ Hall] Hi.
  apply list_elem_of_In, Hall in Hi.
  apply andb_true_iff in Hi as [Hnp Hi]. apply Nat.ltb_lt in Hnp.
  split; [exact Hnp|].
  destruct (m_offsets b !! binner i) as [s|]; [|discriminate].
  destruct (m_offsets b !! (binner i + 1)) as [e|]; [|discriminate].
  rewrite !andb_true_iff, forallb_forall, existsb_exists in Hi.
  destruct Hi as [[He Hcells] (p & Hp & Hpi)].
  apply Nat.leb_le in He.
  exists s, e. repeat split; try reflexivity; try exact He.
  - intros q Hq. specialize (Hcells q).
    destruct (m_perm b !! q) as [j|].
    + exists j. split; [reflexivity|]. apply Nat.eqb_eq, Hcells, in_seq. lia.
    + discriminate Hcells. apply in_seq. lia.
  - exists p. apply in_seq in Hp. split; [lia|].
    destruct (m_perm b !! p) as [j|]; [|discriminate].
    apply Nat.eqb_eq in Hpi. now subst.
Qed.

Lemma bins_ok_numBins (binner : nat -> nat) (np : nat) (b : DenseBins) :
  bins_ok binner np b = true -> (0 <=? numBins b)%Z = true.
Proof.
  unfold bins_ok, numBins. rewrite andb_true_iff. intros [Hlen _].
  apply Nat.leb_le in Hlen. apply Z.leb_le. lia.
Qed.

Section OrchestratorFacts.
Context {T : Type} `{RealOps T}.
Variable lparms : nat -> DiseaseParm T.
Variable kernel :
  nat -> nat -> ParticleTileData T -> DiseaseParm T -> T -> ProbArray T -> ProbArray T.
Variable n_disease : nat.
Variable ptd : ParticleTileData T.
Variable np : nat.
Variable binner : nat -> nat.
Variable bins : DenseBins.

(** *** Frame: who is written *)

Hypothesis kernel_frame : forall a_i a_j ptd' lparm scale p k,
  k <> a_j -> prob (kernel a_i a_j ptd' lparm scale p) k = prob p k.

Lemma invoke_frame d j i scale st d' k :
  d' <> d \/ k <> i ->
  prob (agent_prob (invoke lparms kernel ptd d j i scale st) d') k
  = prob (agent_prob st d') k.
Proof.
  intros Hne. unfold invoke. simpl.
  destruct (decide (d' = d)) as [->|Hd].
  - rewrite fn_lookup_insert. apply kernel_frame. tauto.
  - rewrite fn_lookup_insert_ne by congruence. reflexivity.
Qed.

Lemma scan_step_frame d i jj st st' d' k :
  d' <> d \/ k <> i ->
  scan_step lparms kernel ptd np bins d i jj st = Some st' ->
  prob (agent_prob st' d') k = prob (agent_prob st d') k.
Proof.
  intros Hne. unfold scan_step.
  destruct (m_perm bins !! jj) as [j|]; simpl; [|discriminate].
  destruct (j <? np); simpl; [|discriminate].
  destruct (i =? j); [intros [= <-]; reflexivity|].
  destruct (isInfectious lparms j ptd d); intros [= <-]; [|reflexivity].
  now apply invoke_frame.
Qed.

Lemma work_item_frame d ii st st' d' k :
  notSusceptible lparms k ptd d' = true ->
  work_item lparms kernel ptd np binner bins d ii st = Some st' ->
  prob (agent_prob st' d') k = prob (agent_prob st d') k.
Proof.
  intros Hns. unfold work_item.
  destruct (m_perm bins !! ii) as [i|]; simpl; [|discriminate].
  destruct (m_offsets bins !! binner i) as [cell_start|]; simpl; [|discriminate].
  destruct (m_offsets bins !! (binner i + 1)) as [cell_stop|]; simpl; [|discriminate].
  destruct (i <? np); simpl; [|discriminate].
  destruct (notSusceptible lparms i ptd d) eqn:Hi; [intros [= <-]; reflexivity|].
  assert (Hne : d' <> d \/ k <> i).
  { destruct (decide (d' = d)) as [->|]; [|now left].
    right. intros ->. congruence. }
  apply (for_loop_invariant
           (fun s => prob (agent_prob s d') k = prob (agent_prob st d') k));
    [|reflexivity].
  intros jj s s' _ Hs Hstep. rewrite <- Hs.
  now apply (scan_step_frame d i jj).
Qed.

Lemma interactAgents_frame st st' d k :
  notSusceptible lparms k ptd d = true ->
  interactAgents lparms kernel n_disease ptd np binner bins st = Some st' ->
  prob (agent_prob st' d) k = prob (agent_prob st d) k.
Proof.
  intros Hns. unfold interactAgents.
  destruct (AMREX_ALWAYS_ASSERT _); simpl; [|discriminate].
  apply (for_loop_invariant
           (fun s => prob (agent_prob s d) k = prob (agent_prob st d) k));
    [|reflexivity].
  intros d' s s' _ Hs. unfold interact_disease, ParallelForRNG.
  apply (for_loop_invariant
           (fun s0 => prob (agent_prob s0 d) k = prob (agent_prob st d) k));
    [|exact Hs].
  intros ii s0 s0' _ Hs0 Hitem. rewrite <- Hs0.
  now apply (work_item_frame d' ii).
Qed.

End OrchestratorFacts.

Section OrchestratorTotal.
Context {T : Type} `{RealOps T}.
Variable lparms : nat -> DiseaseParm T.
Variable kernel :
  nat -> nat -> ParticleTileData T -> DiseaseParm T -> T -> ProbArray T -> ProbArray T.
Variable n_disease : nat.
Variable ptd : ParticleTileData T.
Variable np : nat.
Variable binner : nat -> nat.
Variable bins : DenseBins.
Hypothesis Hok : bins_ok binner np bins = true.

(** *** No abort on bins that agree with the binner *)

Lemma scan_step_is_Some d i jj st :
  jj < length (m_perm bins) ->
  is_Some (scan_step lparms kernel ptd np bins d i jj st).
Proof.
  intros Hjj. unfold scan_step.
  destruct (lookup_lt_is_Some_2 _ _ Hjj) as [j Hj]. rewrite Hj. simpl.
  destruct (bins_ok_entry binner np bins j Hok (list_elem_of_lookup_2 _ _ _ Hj))
    as [Hnp _].
  apply Nat.ltb_lt in Hnp. rewrite Hnp. simpl.
  destruct (i =? j); [eauto|]. destruct (isInfectious lparms j ptd d); eauto.
Qed.

Lemma work_item_is_Some d ii st :
  ii < length (m_perm bins) ->
  is_Some (work_item lparms kernel ptd np binner bins d ii st).
Proof.
  intros Hii. unfold work_item.
  destruct (lookup_lt_is_Some_2 _ _ Hii) as [i Hi]. rewrite Hi. simpl.
  destruct (bins_ok_entry binner np bins i Hok (list_elem_of_lookup_2 _ _ _ Hi))
    as (Hnp & s & e & Hs & He & Hle & _).
  rewrite Hs, He. simpl. apply Nat.ltb_lt in Hnp. rewrite Hnp. simpl.
  destruct (notSusceptible lparms i ptd d); [eauto|].
  apply for_loop_is_Some. intros jj s0 Hjj.
  apply scan_step_is_Some. apply elem_of_seq in Hjj. lia.
Qed.

Lemma interactAgents_is_Some st :
  is_Some (interactAgents lparms kernel n_disease ptd np binner bins st).
Proof.
  unfold interactAgents. rewrite (bins_ok_numBins binner np bins Hok). simpl.
  apply for_loop_is_Some. intros d s _.
  unfold interact_disease, ParallelForRNG.
  apply for_loop_is_Some. intros ii s0 Hii.
  apply work_item_is_Some. apply elem_of_seq in Hii. unfold numItems in Hii. lia.
Qed.

(** On such bins a scanned invocation is an eligible one. *)
Lemma scanned_call_eligible c :
  scanned_call lparms ptd binner bins c -> eligible_call lparms ptd binner bins c.
Proof.
  destruct c as [[d j] i]. intros (Hne & Hinf & Hj & Hi).
  destruct (bins_ok_entry binner np bins i Hok Hi)
    as (_ & s & e & Hs & He & _ & Hcells & (p & Hp & Hpi)).
  destruct Hj as (s' & e' & q & Hs' & He' & Hq & Hqj).
  rewrite Hs in Hs'. rewrite He in He'. injection Hs' as <-. injection He' as <-.
  destruct (Hcells q Hq) as (j' & Hj' & Hcell).
  rewrite Hqj in Hj'. injection Hj' as <-.
  repeat split; try assumption.
  - exists s, e, q. auto.
  - exists s, e, p. auto.
Qed.

End OrchestratorTotal.

Section OrchestratorTrace.
Context {T : Type} `{RealOps T}.
Variable lparms : nat -> DiseaseParm T.
Variable kernel :
  nat -> nat -> ParticleTileData T -> DiseaseParm T -> T -> ProbArray T -> ProbArray T.
Variable n_disease : nat.
Variable ptd : ParticleTileData T.
Variable np : nat.
Variable binner : nat -> nat.
Variable bins : DenseBins.

(** *** The kernel invocations of a pass *)

Local Abbreviation extends_scanned :=
  (extends_with (scanned_call lparms ptd binner bins)).

Lemma extends_with_refl (Q : nat * nat * nat -> Prop) (st : TileState T) :
  extends_with Q st st.
Proof. exists []. split; [now rewrite app_nil_r|constructor]. Qed.

Lemma scan_step_trace d i s e jj st0 st st' :
  m_offsets bins !! binner i = Some s ->
  m_offsets bins !! (binner i + 1) = Some e ->
  i ∈ m_perm bins ->
  s <= jj < e ->
  extends_scanned st0 st ->
  scan_step lparms kernel ptd np bins d i jj st = Some st' ->
  extends_scanned st0 st'.
Proof.
  intros Hs He Hi Hjj Hext. unfold scan_step.
  destruct (m_perm bins !! jj) as [j|] eqn:Hj; simpl; [|discriminate].
  destruct (j <? np); simpl; [|discriminate].
  destruct (i =? j) eqn:Hij; [intros [= <-]; exact Hext|].
  destruct (isInfectious lparms j ptd d) eqn:Hinf; intros [= <-]; [|exact Hext].
  destruct Hext as (new & Hnew & Hall).
  exists (new ++ [(d, j, i)]). simpl. split; [rewrite Hnew; now rewrite app_assoc|].
  apply Forall_app_2; [exact Hall|]. constructor; [|constructor].
  apply Nat.eqb_neq in Hij.
  repeat split; try congruence; try assumption.
  exists s, e, jj. auto.
Qed.

Lemma work_item_trace d ii st0 st st' :
  extends_scanned st0 st ->
  work_item lparms kernel ptd np binner bins d ii st = Some st' ->
  extends_scanned st0 st'.
Proof.
  intros Hext. unfold work_item.
  destruct (m_perm bins !! ii) as [i|] eqn:Hi; simpl; [|discriminate].
  destruct (m_offsets bins !! binner i) as [s|] eqn:Hs; simpl; [|discriminate].
  destruct (m_offsets bins !! (binner i + 1)) as [e|] eqn:He; simpl; [|discriminate].
  destruct (i <? np); simpl; [|discriminate].
  destruct (notSusceptible lparms i ptd d); [intros [= <-]; exact Hext|].
  apply (for_loop_invariant (extends_scanned st0)); [|exact Hext].
  intros jj s0 s0' Hjj Hs0. apply elem_of_seq in Hjj.
  apply (scan_step_trace d i s e jj); auto.
  - now apply list_elem_of_lookup_2 in Hi.
  - lia.
Qed.

Lemma interactAgents_trace st st' :
  interactAgents lparms kernel n_disease ptd np binner bins st = Some st' ->
  extends_scanned st st'.
Proof.
  unfold interactAgents.
  destruct (AMREX_ALWAYS_ASSERT _); simpl; [|discriminate].
  apply (for_loop_invariant (extends_scanned st)); [|apply extends_with_refl].
  intros d s s' _ Hs. unfold interact_disease, ParallelForRNG.
  apply (for_loop_invariant (extends_scanned st)); [|exact Hs].
  intros ii s0 s0' _ Hs0. now apply work_item_trace.
Qed.

(** With bins that agree with the binner the pass ends, and its invocations
    are eligible. *)
Lemma interactAgents_eligible st :
  bins_ok binner np bins = true ->
  exists st' new,
    interactAgents lparms kernel n_disease ptd np binner bins st = Some st' /\
    calls st' = calls st ++ new /\
    Forall (eligible_call lparms ptd binner bins) new.
Proof.
  intros Hok.
  destruct (interactAgents_is_Some lparms kernel n_disease ptd np binner bins Hok st)
    as [st' Hst'].
  destruct (interactAgents_trace st st' Hst') as (new & Hnew & Hall).
  exists st', new. repeat split; [exact Hst'|exact Hnew|].
  revert Hall. apply Forall_impl.
  intros c. now apply (scanned_call_eligible lparms ptd np).
Qed.

End OrchestratorTrace.

Section OrchestratorScan.
Context {T : Type} `{RealOps T}.
Variable lparms : nat -> DiseaseParm T.
Variable kernel :
  nat -> nat -> ParticleTileData T -> DiseaseParm T -> T -> ProbArray T -> ProbArray T.
Variable ptd : ParticleTileData T.
Variable np : nat.
Variable bins : DenseBins.

(** The scan of target [i] over the positions [idx] is the kernel applied,
    in bin order and with scale 1.0, for the sources kept among the entries
    at these positions; the arrays of the other diseases are not touched. *)
Lemma scan_as_apply_sources d i idx st st' :
  for_loop (scan_step lparms kernel ptd np bins d i) idx st = Some st' ->
  exists js,
    Forall2 (fun jj j => m_perm bins !! jj = Some j) idx js /\
    agent_prob st' d
    = apply_sources kernel (scanned_sources lparms ptd d i js) i ptd (lparms d)
        rlit1 (agent_prob st d) /\
    (forall d', d' <> d -> agent_prob st' d' = agent_prob st d').
Proof.
  revert st. induction idx as [|jj idx IH]; intros st Hrun; simpl in Hrun.
  - injection Hrun as <-. exists []. repeat split. constructor.
  - destruct (scan_step lparms kernel ptd np bins d i jj st) as [s1|] eqn:Hstep;
      simpl in Hrun; [|discriminate].
    destruct (IH s1 Hrun) as (js & Hjs & Hd & Hother).
    unfold scan_step in Hstep.
    destruct (m_perm bins !! jj) as [j|] eqn:Hj; simpl in Hstep; [|discriminate].
    destruct (j <? np); simpl in Hstep; [|discriminate].
    exists (j :: js). split; [constructor; assumption|].
    unfold scanned_sources in *. simpl.
    destruct (i =? j); simpl.
    { injection Hstep as <-. auto. }
    destruct (isInfectious lparms j ptd d); injection Hstep as <-; [|auto].
    split.
    + rewrite Hd. unfold apply_sources, invoke. simpl.
      now rewrite fn_lookup_insert.
    + intros d' Hd'. rewrite (Hother d' Hd'). unfold invoke. simpl.
      apply fn_lookup_insert_ne. congruence.
Qed.

End OrchestratorScan.

(** ** Agents that are not susceptible *)

(** C4: if [notSusceptible] holds of agent [i] for disease [d], a pass of
    [interactAgents], workplace or neighborhood, that runs to its end leaves
    entry [i] of the probability array of disease [d] as it was, whatever the
    bins hold; and on bins that agree with the binner the pass does run to
    its end. *)
Theorem notSusceptible_accumulator_unchanged {T : Type} `{RealOps T}
    (lparms : nat -> DiseaseParm T) (n_disease : nat) (ptd : ParticleTileData T)
    (np : nat) (binner : nat -> nat) (bins : DenseBins) (st : TileState T)
    (d i : nat) :
  notSusceptible lparms i ptd d = true ->
  (forall st',
     InteractionModWork.interactAgents lparms n_disease ptd np binner bins st
     = Some st' ->
     prob (agent_prob st' d) i = prob (agent_prob st d) i) /\
  (forall st',
     InteractionModNborhood.interactAgents lparms n_disease ptd np binner bins st
     = Some st' ->
     prob (agent_prob st' d) i = prob (agent_prob st d) i) /\
  (bins_ok binner np bins = true ->
   is_Some (InteractionModWork.interactAgents lparms n_disease ptd np binner bins st) /\
   is_Some (InteractionModNborhood.interactAgents lparms n_disease ptd np binner bins st)).
Proof.
  intros Hns. split; [|split].
  - intros st'. apply interactAgents_frame; [|exact Hns].
    intros. now apply binaryInteractionWork_frame.
  - intros st'. apply interactAgents_frame; [|exact Hns].
    intros. now apply binaryInteractionNborhood_frame.
  - intros Hok. split; now apply interactAgents_is_Some.
Qed.

(** The immune agent 0 of the office keeps its accumulator in both passes. *)
Lemma notSusceptible_accumulator_unchanged_witness :
  let ptd := Scenario.tile Scenario.office in
  let lparms := fun _ : nat => Scenario.flu in
  notSusceptible lparms 0 ptd 0 = true /\
  bins_ok Scenario.office_binner 5 Scenario.office_bins = true /\
  (exists st',
     InteractionModWork.interactAgents lparms 1 ptd 5 Scenario.office_binner
       Scenario.office_bins Scenario.fresh_tile = Some st' /\
     prob (agent_prob st' 0) 0 = 1%float) /\
  (exists st',
     InteractionModNborhood.interactAgents lparms 1 ptd 5 Scenario.office_binner
       Scenario.office_bins Scenario.fresh_tile = Some st' /\
     prob (agent_prob st' 0) 0 = 1%float).
Proof.
  intros ptd lparms.
  assert (Hns : notSusceptible lparms 0 ptd 0 = true) by reflexivity.
  assert (Hok : bins_ok Scenario.office_binner 5 Scenario.office_bins = true)
    by reflexivity.
  split; [exact Hns|]. split; [exact Hok|].
  destruct (notSusceptible_accumulator_unchanged lparms 1 ptd 5
              Scenario.office_binner Scenario.office_bins Scenario.fresh_tile
              0 0 Hns) as (Hwork & Hhood & Hruns).
  destruct (Hruns Hok) as [[sw Hsw] [sn Hsn]].
  split.
  - exists sw. split; [exact Hsw|]. now rewrite (Hwork sw Hsw).
  - exists sn. split; [exact Hsn|]. now rewrite (Hhood sn Hsn).
Defined.

(** ** Which pairs reach the kernel *)

(** C5: every kernel invocation of a pass of [interactAgents], workplace or
    neighborhood, that runs to its end has a source different from the
    target, a source that is infectious for the disease being processed, and
    a source stored in the bin of the target's cell; and on bins that agree
    with the binner the pass does run to its end, and source and target of
    every invocation are both stored in the bin of the target's cell and are
    both mapped to that cell. *)
Theorem kernel_invocations_eligible {T : Type} `{RealOps T}
    (lparms : nat -> DiseaseParm T) (n_disease : nat) (ptd : ParticleTileData T)
    (np : nat) (binner : nat -> nat) (bins : DenseBins) (st : TileState T) :
  (forall st',
     InteractionModWork.interactAgents lparms n_disease ptd np binner bins st
     = Some st' ->
     extends_with (scanned_call lparms ptd binner bins) st st') /\
  (forall st',
     InteractionModNborhood.interactAgents lparms n_disease ptd np binner bins st
     = Some st' ->
     extends_with (scanned_call lparms ptd binner bins) st st') /\
  (bins_ok binner np bins = true ->
   (exists st' new,
      InteractionModWork.interactAgents lparms n_disease ptd np binner bins st
      = Some st' /\
      calls st' = calls st ++ new /\
      Forall (eligible_call lparms ptd binner bins) new) /\
   (exists st' new,
      InteractionModNborhood.interactAgents lparms n_disease ptd np binner bins st
      = Some st' /\
      calls st' = calls st ++ new /\
      Forall (eligible_call lparms ptd binner bins) new)).
Proof.
  split; [|split].
  - intros st'. apply interactAgents_trace.
  - intros st'. apply interactAgents_trace.
  - intros Hok. split; now apply interactAgents_eligible.
Qed.

(** The office: the workplace pass invokes the kernel for the pairs (1, 3)
    and (2, 4) only, each inside one cell. *)
Lemma kernel_invocations_eligible_witness :
  let ptd := Scenario.tile Scenario.office in
  let lparms := fun _ : nat => Scenario.flu in
  bins_ok Scenario.office_binner 5 Scenario.office_bins = true /\
  exists st',
    InteractionModWork.interactAgents lparms 1 ptd 5 Scenario.office_binner
      Scenario.office_bins Scenario.fresh_tile = Some st' /\
    Forall (eligible_call lparms ptd Scenario.office_binner Scenario.office_bins)
      (calls st').
Proof.
  intros ptd lparms.
  assert (Hok : bins_ok Scenario.office_binner 5 Scenario.office_bins = true)
    by reflexivity.
  split; [exact Hok|].
  destruct (kernel_invocations_eligible lparms 1 ptd 5 Scenario.office_binner
              Scenario.office_bins Scenario.fresh_tile)
    as (_ & _ & Hall).
  destruct (Hall Hok) as [(st' & new & Hrun & Hcalls & Hnew) _].
  exists st'. split; [exact Hrun|]. rewrite Hcalls. exact Hnew.
Defined.

(** The office pass, evaluated: two invocations, and the accumulators of the
    susceptible agents 3 and 4 at 0.95. *)
Example office_work_pass :
  match InteractionModWork.interactAgents (fun _ => Scenario.flu) 1
          (Scenario.tile Scenario.office) 5 Scenario.office_binner
          Scenario.office_bins Scenario.fresh_tile with
  | Some st' =>
      calls st' = [(0, 1, 3); (0, 2, 4)] /\
      map (prob (agent_prob st' 0)) [0; 1; 2; 3; 4]
      = [1%float; 1%float; 1%float; 0.95%float; 0.95%float]
  | None => False
  end.
Proof. vm_compute. split; reflexivity. Qed.

(** ** The bin builder, pass by pass *)

Module SpatialBinIndexFacts.
Import SpatialBinIndex.

Lemma occ_app c l k : occ c (l ++ k) = occ c l + occ c k.
Proof. induction l as [|x l IH]; simpl; [reflexivity|]. rewrite IH. lia. Qed.

Lemma occ_snoc_eq c l : occ c (l ++ [c]) = S (occ c l).
Proof. rewrite occ_app. simpl. rewrite Nat.eqb_refl. lia. Qed.

Lemma occ_snoc_ne c x l : x <> c -> occ c (l ++ [x]) = occ c l.
Proof.
  intros Hx. rewrite occ_app. simpl.
  apply Nat.eqb_neq in Hx. rewrite Hx. lia.
Qed.

Lemma offset_of_cons n x l :
  offset_of n (x :: l) = offset_of n l + (if x <? n then 1 else 0).
Proof.
  induction n as [|n IH]; cbn [offset_of occ]; [reflexivity|]. rewrite IH.
  destruct (Nat.ltb_spec x n), (Nat.eqb_spec x n), (Nat.ltb_spec x (S n)); lia.
Qed.

Lemma offset_of_total nbins cells :
  Forall (fun c => c < nbins) cells -> offset_of nbins cells = length cells.
Proof.
  induction 1 as [|x l Hx _ IH]; simpl.
  - induction nbins; simpl; lia.
  - rewrite offset_of_cons, IH. apply Nat.ltb_lt in Hx. rewrite Hx. lia.
Qed.

Lemma offset_of_mono cells c c' : c <= c' -> offset_of c cells <= offset_of c' cells.
Proof. induction 1; simpl; lia. Qed.

(** The first pass counts the agents of every cell. *)
Lemma count_fold_lookup (cells init : list nat) (c : nat) :
  foldl (fun counts x => alter S x counts) init cells !! c
  = (fun n => n + occ c cells) <$> init !! c.
Proof.
  revert init. induction cells as [|x cells IH]; intros init; simpl.
  - destruct (init !! c); simpl; f_equal; lia.
  - rewrite IH, list_lookup_alter.
    destruct (decide (x = c)) as [->|Hx].
    + rewrite Nat.eqb_refl. destruct (init !! c); simpl; f_equal; lia.
    + apply Nat.eqb_neq in Hx. rewrite Hx. reflexivity.
Qed.

Lemma count_fold_length (cells init : list nat) :
  length (foldl (fun counts x => alter S x counts) init cells) = length init.
Proof.
  revert init. induction cells as [|x cells IH]; intros init; simpl; [reflexivity|].
  rewrite IH. apply length_alter.
Qed.

Lemma count_agents_lookup nbins cells c :
  c < nbins -> count_agents nbins cells !! c = Some (occ c cells).
Proof.
  intros Hc. unfold count_agents.
  rewrite count_fold_lookup, lookup_replicate_2 by exact Hc. reflexivity.
Qed.

Lemma count_agents_length nbins cells : length (count_agents nbins cells) = nbins.
Proof. unfold count_agents. rewrite count_fold_length. apply length_replicate. Qed.

(** The offsets are the numbers of agents in the lower cells. *)
Lemma prefix_sum_length acc counts : length (prefix_sum acc counts) = S (length counts).
Proof. revert acc. induction counts as [|n l IH]; intros acc; simpl; [reflexivity|]. now rewrite IH. Qed.

Lemma prefix_sum_lookup counts acc c :
  c <= length counts ->
  prefix_sum acc counts !! c = Some (acc + sum_list (take c counts)).
Proof.
  revert acc c. induction counts as [|n l IH]; intros acc [|c] Hc; simpl in *;
    try (f_equal; lia).
  rewrite IH by lia. f_equal. lia.
Qed.

Lemma sum_counts nbins cells c :
  c <= nbins -> sum_list (take c (count_agents nbins cells)) = offset_of c cells.
Proof.
  induction c as [|c IH]; intros Hc; simpl; [reflexivity|].
  rewrite (take_S_r _ _ (occ c cells)) by (apply count_agents_lookup; lia).
  rewrite sum_list_with_app, IH by lia. simpl. unfold id. lia.
Qed.

Lemma offsets_lookup nbins cells c :
  c <= nbins ->
  m_offsets (build nbins cells) !! c = Some (offset_of c cells).
Proof.
  intros Hc. unfold build. simpl.
  rewrite prefix_sum_lookup by (rewrite count_agents_length; exact Hc).
  now rewrite sum_counts.
Qed.

Lemma offsets_lookup_inv nbins cells c s :
  m_offsets (build nbins cells) !! c = Some s -> c <= nbins /\ s = offset_of c cells.
Proof.
  intros Hs. assert (Hc : c <= nbins).
  { apply lookup_lt_Some in Hs. unfold build in Hs. simpl in Hs.
    rewrite prefix_sum_length, count_agents_length in Hs. lia. }
  split; [exact Hc|]. rewrite offsets_lookup in Hs by exact Hc. congruence.
Qed.

(** Slots: inside the range of the agent's cell, below the number of
    agents, and different for different agents. *)
Lemma occ_take_lt (cells : list nat) i c :
  cells !! i = Some c -> occ c (take i cells) < occ c cells.
Proof.
  intros Hi. rewrite <- (take_drop_middle cells i c Hi) at 2.
  rewrite occ_app. simpl. rewrite Nat.eqb_refl. lia.
Qed.

Lemma occ_take_lt_take (cells : list nat) i i' c :
  i < i' -> cells !! i = Some c -> occ c (take i cells) < occ c (take i' cells).
Proof.
  intros Hlt Hi.
  replace (take i cells) with (take i (take i' cells))
    by (rewrite take_take; f_equal; lia).
  apply occ_take_lt. now rewrite lookup_take_lt.
Qed.

Lemma slot_of_range (cells : list nat) i c :
  cells !! i = Some c ->
  offset_of c cells <= slot_of cells i < offset_of (S c) cells.
Proof.
  intros Hi. unfold slot_of. rewrite (list_lookup_total_correct _ _ _ Hi).
  pose proof (occ_take_lt cells i c Hi). simpl. lia.
Qed.

Lemma slot_of_lt_length nbins (cells : list nat) i :
  Forall (fun c => c < nbins) cells -> i < length cells ->
  slot_of cells i < length cells.
Proof.
  intros Hall Hi. destruct (lookup_lt_is_Some_2 _ _ Hi) as [c Hc].
  pose proof (slot_of_range cells i c Hc) as Hr.
  assert (Hcn : c < nbins) by (eapply (proj1 (Forall_lookup _ _) Hall); eauto).
  pose proof (offset_of_mono cells (S c) nbins Hcn).
  rewrite (offset_of_total nbins cells Hall) in *. lia.
Qed.

Lemma slot_of_inj (cells : list nat) i i' :
  i < i' -> i' < length cells -> slot_of cells i <> slot_of cells i'.
Proof.
  intros Hlt Hi'.
  destruct (lookup_lt_is_Some_2 cells i ltac:(lia)) as [c Hc].
  destruct (lookup_lt_is_Some_2 cells i' Hi') as [c' Hc'].
  pose proof (slot_of_range cells i c Hc) as Hr.
  pose proof (slot_of_range cells i' c' Hc') as Hr'.
  destruct (Nat.lt_trichotomy c c') as [Hcc|[->|Hcc]].
  - pose proof (offset_of_mono cells (S c) c' Hcc). lia.
  - unfold slot_of. rewrite (list_lookup_total_correct _ _ _ Hc),
      (list_lookup_total_correct _ _ _ Hc').
    pose proof (occ_take_lt_take cells i i' c' Hlt Hc). lia.
  - pose proof (offset_of_mono cells (S c') c Hcc). lia.
Qed.

(** The scatter pass, started after the agents [done], puts every later
    agent into its slot and touches no other slot. *)
Lemma scatter_spec nbins (all : list nat) :
  Forall (fun c => c < nbins) all ->
  forall (rest done perm counters : list nat),
    all = done ++ rest ->
    length perm = length all ->
    (forall c, c < nbins -> counters !! c = Some (offset_of c all + occ c done)) ->
    let res := scatter (length done) rest perm counters in
    length res = length all /\
    (forall i, length done <= i < length all -> res !! slot_of all i = Some i) /\
    (forall q, (forall i, length done <= i < length all -> slot_of all i <> q) ->
               res !! q = perm !! q).
Proof.
  intros Hall rest.
  induction rest as [|c rest IH]; intros done perm counters Hsplit Hlen Hcnt; simpl.
  - rewrite app_nil_r in Hsplit. subst done.
    repeat split; [exact Hlen|intros i Hi; lia].
  - assert (Hc : all !! length done = Some c)
      by (rewrite Hsplit; apply list_lookup_middle; reflexivity).
    assert (Hcn : c < nbins) by (eapply (proj1 (Forall_lookup _ _) Hall); eauto).
    assert (Hdone : length done < length all) by (eapply lookup_lt_Some; eauto).
    assert (Hslot : counters !!! c = slot_of all (length done)).
    { rewrite (list_lookup_total_correct _ _ _ (Hcnt c Hcn)). unfold slot_of.
      rewrite (list_lookup_total_correct _ _ _ Hc).
      rewrite Hsplit at 3. now rewrite take_app_length. }
    rewrite Hslot.
    destruct (IH (done ++ [c]) (<[slot_of all (length done) := length done]> perm)
                 (alter S c counters)) as (Hl & Hin & Hout).
    + rewrite <- app_assoc. exact Hsplit.
    + rewrite length_insert. exact Hlen.
    + intros c0 Hc0. rewrite list_lookup_alter.
      destruct (decide (c = c0)) as [<-|Hne].
      * rewrite (Hcnt c Hcn), occ_snoc_eq. simpl. f_equal. lia.
      * rewrite (Hcnt c0 Hc0), occ_snoc_ne by exact Hne. reflexivity.
    + rewrite length_app in Hl, Hin, Hout. simpl in Hl, Hin, Hout.
      rewrite Nat.add_1_r in Hl, Hin, Hout.
      split; [exact Hl|split].
      * intros i Hi. destruct (decide (i = length done)) as [->|Hne].
        -- rewrite Hout.
           ++ apply list_lookup_insert_eq. rewrite Hlen.
              now apply (slot_of_lt_length nbins).
           ++ intros i' Hi' Heq. symmetry in Heq. revert Heq.
              apply slot_of_inj; lia.
        -- apply Hin. lia.
      * intros q Hq. rewrite Hout.
        -- apply list_lookup_insert_ne. apply Hq. lia.
        -- intros i Hi. apply Hq. lia.
Qed.

Lemma build_slots nbins (cells : list nat) :
  Forall (fun c => c < nbins) cells ->
  length (m_perm (build nbins cells)) = length cells /\
  forall i, i < length cells ->
            m_perm (build nbins cells) !! slot_of cells i = Some i.
Proof.
  intros Hall. unfold build. cbn [m_perm].
  destruct (scatter_spec nbins cells Hall cells [] (replicate (length cells) 0)
              (take nbins (prefix_sum 0 (count_agents nbins cells))))
    as (Hl & Hin & _).
  - reflexivity.
  - apply length_replicate.
  - intros c Hc. rewrite lookup_take_lt by exact Hc.
    pose proof (offsets_lookup nbins cells c ltac:(lia)) as Ho.
    unfold build in Ho. cbn [m_offsets] in Ho. rewrite Ho. simpl. f_equal. lia.
  - split; [exact Hl|]. intros i Hi. apply Hin. simpl. lia.
Qed.

Lemma build_permutation nbins (cells : list nat) :
  Forall (fun c => c < nbins) cells ->
  m_perm (build nbins cells) ≡ₚ seq 0 (length cells).
Proof.
  intros Hall. destruct (build_slots nbins cells Hall) as [Hl Hin].
  symmetry. apply submseteq_length_Permutation.
  - apply NoDup_submseteq; [apply NoDup_seq|].
    intros i Hi. apply elem_of_seq in Hi.
    apply (list_elem_of_lookup_2 _ (slot_of cells i)). apply Hin. lia.
  - rewrite Hl, length_seq. lia.
Qed.



(** An entry found in the range of cell [c] belongs to an agent of cell [c]. *)
Lemma build_consistent nbins (cells : list nat) c p k :
  Forall (fun c => c < nbins) cells ->
  offset_of c cells <= p < offset_of (S c) cells ->
  m_perm (build nbins cells) !! p = Some k ->
  cells !! k = Some c.
Proof.
  intros Hall Hp Hk.
  pose proof (build_permutation nbins cells Hall) as Hperm.
  destruct (build_slots nbins cells Hall) as [_ Hin].
  assert (Hkn : k < length cells).
  { apply list_elem_of_lookup_2 in Hk. rewrite Hperm in Hk.
    apply elem_of_seq in Hk. lia. }
  assert (Hnd : NoDup (m_perm (build nbins cells))) by (rewrite Hperm; apply NoDup_seq).
  pose proof (NoDup_lookup _ _ _ _ Hnd Hk (Hin k Hkn)) as ->.
  destruct (lookup_lt_is_Some_2 cells k Hkn) as [ck Hck].
  pose proof (slot_of_range cells k ck Hck) as Hr.
  destruct (Nat.lt_trichotomy c ck) as [Hlt|[->|Hlt]]; [|exact Hck|].
  - pose proof (offset_of_mono cells (S c) ck Hlt). lia.
  - pose proof (offset_of_mono cells (S ck) c Hlt). lia.
Qed.

(** The bins the builder returns agree with the cell ids they were built
    from: they pass the check that the orchestrator's statements assume. *)
Lemma build_bins_ok nbins (cells : list nat) :
  Forall (fun c => c < nbins) cells ->
  bins_ok (fun i => cells !!! i) (length cells) (build nbins cells) = true.
Proof.
  intros Hall. unfold bins_ok. apply andb_true_iff. split.
  { apply Nat.leb_le. unfold build. simpl. rewrite prefix_sum_length. lia. }
  apply forallb_forall. intros i Hi. apply list_elem_of_In in Hi.
  rewrite (build_permutation nbins cells Hall) in Hi. apply elem_of_seq in Hi.
  assert (Hin : i < length cells) by lia.
  destruct (lookup_lt_is_Some_2 cells i Hin) as [c Hc].
  assert (Hcn : c < nbins) by (eapply (proj1 (Forall_lookup _ _) Hall); eauto).
  rewrite (list_lookup_total_correct _ _ _ Hc).
  rewrite !offsets_lookup by lia. rewrite Nat.add_1_r.
  destruct (build_slots nbins cells Hall) as [Hl Hslots].
  pose proof (slot_of_range cells i c Hc) as Hr.
  pose proof (offset_of_mono cells (S c) nbins Hcn) as Hm.
  rewrite (offset_of_total nbins cells Hall) in Hm.
  rewrite !andb_true_iff. repeat split.
  - now apply Nat.ltb_lt.
  - apply Nat.leb_le. now rewrite Hl.
  - apply forallb_forall. intros p Hp. apply in_seq in Hp.
    destruct (lookup_lt_is_Some_2 (m_perm (build nbins cells)) p) as [j Hj];
      [rewrite Hl; lia|].
    rewrite Hj. apply Nat.eqb_eq.
    apply (list_lookup_total_correct cells).
    apply (build_consistent nbins cells c p j Hall); [lia|exact Hj].
  - apply existsb_exists. exists (slot_of cells i). split.
    + apply in_seq. lia.
    + rewrite (Hslots i Hin). apply Nat.eqb_refl.
Qed.

End SpatialBinIndexFacts.

(** ** The bin index *)

(** C8: for every list of cell ids below the number of bins, the bin index
    the counting sort builds has a permutation array that is a permutation
    of 0 .. N-1 (N the number of agents), an offsets array of nbins + 1
    entries from 0 to N that never decreases, with the range of cell c as
    long as the count of cell c and the counts summing to N, and every
    entry found in the range of a cell is an agent whose cell id is that
    cell. *)
Theorem build_bins_invariant (nbins : nat) (cells : list nat) :
  Forall (fun c => c < nbins) cells ->
  let b := SpatialBinIndex.build nbins cells in
  m_perm b ≡ₚ seq 0 (length cells) /\
  length (m_offsets b) = S nbins /\
  m_offsets b !! 0 = Some 0 /\
  m_offsets b !! nbins = Some (length cells) /\
  sum_list (SpatialBinIndex.count_agents nbins cells) = length cells /\
  (forall c s e,
     m_offsets b !! c = Some s -> m_offsets b !! (c + 1) = Some e ->
     s <= e /\ e - s = SpatialBinIndex.occ c cells) /\
  (forall c s e p k,
     m_offsets b !! c = Some s -> m_offsets b !! (c + 1) = Some e ->
     s <= p < e -> m_perm b !! p = Some k -> cells !! k = Some c).
Proof.
  intros Hall b. subst b.
  split; [exact (SpatialBinIndexFacts.build_permutation nbins cells Hall)|].
  split.
  { unfold SpatialBinIndex.build. simpl.
    now rewrite SpatialBinIndexFacts.prefix_sum_length,
      SpatialBinIndexFacts.count_agents_length. }
  split; [now rewrite SpatialBinIndexFacts.offsets_lookup by lia|].
  split.
  { rewrite SpatialBinIndexFacts.offsets_lookup by lia.
    now rewrite (SpatialBinIndexFacts.offset_of_total nbins cells Hall). }
  split.
  { rewrite <- (SpatialBinIndexFacts.offset_of_total nbins cells Hall),
      <- (SpatialBinIndexFacts.sum_counts nbins cells nbins) by lia.
    rewrite take_ge; [reflexivity|].
    rewrite SpatialBinIndexFacts.count_agents_length. lia. }
  split.
  - intros c s e Hs He.
    apply SpatialBinIndexFacts.offsets_lookup_inv in Hs as [_ ->].
    apply SpatialBinIndexFacts.offsets_lookup_inv in He as [_ ->].
    rewrite Nat.add_1_r. simpl. lia.
  - intros c s e p k Hs He Hp Hk.
    apply SpatialBinIndexFacts.offsets_lookup_inv in Hs as [_ ->].
    apply SpatialBinIndexFacts.offsets_lookup_inv in He as [_ ->].
    rewrite Nat.add_1_r in Hp.
    now apply (SpatialBinIndexFacts.build_consistent nbins cells c p k Hall).
Qed.

(** The office: five agents in two cells. *)
Lemma build_bins_invariant_witness :
  Forall (fun c => c < 2) Scenario.office_cells /\
  m_perm Scenario.office_bins = [0; 1; 3; 2; 4] /\
  m_offsets Scenario.office_bins = [0; 3; 5] /\
  m_perm Scenario.office_bins ≡ₚ seq 0 5 /\
  (forall p k, 3 <= p < 5 -> m_perm Scenario.office_bins !! p = Some k ->
               Scenario.office_cells !! k = Some 1).
Proof.
  assert (Hall : Forall (fun c => c < 2) Scenario.office_cells)
    by (repeat constructor; lia).
  split; [exact Hall|]. split; [reflexivity|]. split; [reflexivity|].
  destruct (build_bins_invariant 2 Scenario.office_cells Hall)
    as (Hperm & _ & _ & _ & _ & _ & Hcell).
  split; [exact Hperm|].
  intros p k Hp Hk. exact (Hcell 1 3 5 p k eq_refl eq_refl Hp Hk).
Defined.

(** * Further properties of the passes *)

Section PassEntries.
Context {T : Type} `{RealOps T}.
Variable lparms : nat -> DiseaseParm T.
Variable kernel :
  nat -> nat -> ParticleTileData T -> DiseaseParm T -> T -> ProbArray T -> ProbArray T.
Variable n_disease : nat.
Variable ptd : ParticleTileData T.
Variable np : nat.
Variable binner : nat -> nat.
Variable bins : DenseBins.

(** The kernel multiplies the target's entry by a factor that depends on the
    source only, or leaves the array alone. *)
Hypothesis kernel_step : forall i ptd' lparm scale,
  exists factor : nat -> option T, forall j p k,
    prob (kernel j i ptd' lparm scale p) k =
    match factor j with
    | Some f => if decide (k = i) then rmul (prob p i) f else prob p k
    | None => prob p k
    end.

Lemma kernel_step_frame a_i a_j ptd' lparm scale p k :
  k <> a_j -> prob (kernel a_i a_j ptd' lparm scale p) k = prob p k.
Proof.
  intros Hk. destruct (kernel_step a_j ptd' lparm scale) as [f Hf].
  rewrite Hf. destruct (f a_i); [|reflexivity].
  destruct (decide (k = a_j)); [contradiction|reflexivity].
Qed.

(** The target's entry after a run of invocations depends on the target's
    entry before only. *)
Lemma apply_sources_entry srcs i ptd' lparm scale p q :
  prob p i = prob q i ->
  prob (apply_sources kernel srcs i ptd' lparm scale p) i
  = prob (apply_sources kernel srcs i ptd' lparm scale q) i.
Proof.
  destruct (kernel_step i ptd' lparm scale) as [f Hf].
  unfold apply_sources. revert p q.
  induction srcs as [|j srcs IH]; intros p q Hpq; simpl; [exact Hpq|].
  apply IH. rewrite !Hf. destruct (f j); [|exact Hpq].
  destruct (decide (i = i)); [|contradiction]. now rewrite Hpq.
Qed.

Lemma expected_entry_entry d i p q :
  prob p i = prob q i ->
  expected_entry kernel lparms ptd binner bins d i p
  = expected_entry kernel lparms ptd binner bins d i q.
Proof.
  intros Hpq. unfold expected_entry.
  destruct (notSusceptible lparms i ptd d); [exact Hpq|].
  now apply apply_sources_entry.
Qed.

(** A work item writes the entry of its own target, for its own disease. *)
Lemma work_item_other d ii i st st' d' k :
  m_perm bins !! ii = Some i ->
  d' <> d \/ k <> i ->
  work_item lparms kernel ptd np binner bins d ii st = Some st' ->
  prob (agent_prob st' d') k = prob (agent_prob st d') k.
Proof.
  intros Hi Hne. unfold work_item. rewrite Hi. simpl.
  destruct (m_offsets bins !! binner i) as [s|]; simpl; [|discriminate].
  destruct (m_offsets bins !! (binner i + 1)) as [e|]; simpl; [|discriminate].
  destruct (i <? np); simpl; [|discriminate].
  destruct (notSusceptible lparms i ptd d); [intros [= <-]; reflexivity|].
  apply (for_loop_invariant
           (fun s0 => prob (agent_prob s0 d') k = prob (agent_prob st d') k));
    [|reflexivity].
  intros jj s0 s0' _ Hs0 Hstep. rewrite <- Hs0.
  apply (scan_step_frame lparms kernel n_disease ptd np binner bins
           kernel_step_frame d i jj);
    assumption.
Qed.

Lemma bucket_lookups (idx js : list nat) :
  Forall2 (fun jj j => m_perm bins !! jj = Some j) idx js ->
  omap (fun jj => m_perm bins !! jj) idx = js.
Proof.
  induction 1 as [|jj j idx js Hj _ IH]; [reflexivity|].
  cbn [omap list_omap]. rewrite Hj. now rewrite IH.
Qed.

Lemma work_item_target d ii i st st' :
  m_perm bins !! ii = Some i ->
  work_item lparms kernel ptd np binner bins d ii st = Some st' ->
  prob (agent_prob st' d) i
  = expected_entry kernel lparms ptd binner bins d i (agent_prob st d).
Proof.
  intros Hi. unfold work_item, expected_entry, bucket. rewrite Hi. simpl.
  destruct (m_offsets bins !! binner i) as [s|]; simpl; [|discriminate].
  destruct (m_offsets bins !! (binner i + 1)) as [e|]; simpl; [|discriminate].
  destruct (i <? np); simpl; [|discriminate].
  destruct (notSusceptible lparms i ptd d); [intros [= <-]; reflexivity|].
  intros Hrun.
  destruct (scan_as_apply_sources lparms kernel ptd np bins d i _ st st' Hrun)
    as (js & Hjs & Hd & _).
  rewrite (bucket_lookups _ _ Hjs), Hd. reflexivity.
Qed.

Lemma work_item_lookup d ii st st' :
  work_item lparms kernel ptd np binner bins d ii st = Some st' ->
  exists i, m_perm bins !! ii = Some i.
Proof.
  unfold work_item. destruct (m_perm bins !! ii) as [i|]; simpl; [eauto|discriminate].
Qed.

(** Work items run in any order [sched], each position at most once: the
    entry of the target at position [ii] is the expected one if [ii] is in
    the schedule and the old one otherwise. *)
Lemma schedule_entry d sched : NoDup (m_perm bins) -> NoDup sched ->
  forall st st' ii i,
    m_perm bins !! ii = Some i ->
    for_loop (work_item lparms kernel ptd np binner bins d) sched st = Some st' ->
    (ii ∈ sched ->
     prob (agent_prob st' d) i
     = expected_entry kernel lparms ptd binner bins d i (agent_prob st d)) /\
    (ii ∉ sched -> prob (agent_prob st' d) i = prob (agent_prob st d) i).
Proof.
  intros Hperm Hsched. induction Hsched as [|a rest Ha _ IH];
    intros st st' ii i Hi Hrun; simpl in Hrun.
  - injection Hrun as <-. split; [intros Hin; inversion Hin|reflexivity].
  - destruct (work_item lparms kernel ptd np binner bins d a st) as [s1|] eqn:Hitem;
      simpl in Hrun; [|discriminate].
    destruct (IH s1 st' ii i Hi Hrun) as [Hin Hout].
    destruct (decide (a = ii)) as [->|Hne].
    + split; [|intros Hn; exfalso; apply Hn; apply list_elem_of_here].
      intros _. rewrite (Hout Ha). now apply (work_item_target d ii).
    + destruct (work_item_lookup d a st s1 Hitem) as [ia Hia].
      assert (Hk : prob (agent_prob s1 d) i = prob (agent_prob st d) i).
      { apply (work_item_other d a ia); [exact Hia| |exact Hitem].
        right. intros ->. apply Hne. exact (NoDup_lookup _ _ _ _ Hperm Hia Hi). }
      split.
      * intros Hmem. apply elem_of_cons in Hmem as [->|Hmem]; [congruence|].
        rewrite (Hin Hmem). now apply expected_entry_entry.
      * intros Hmem. rewrite Hout, Hk; [reflexivity|].
        intros Hr. apply Hmem. now apply list_elem_of_further.
Qed.

(** No schedule touches the entry of an agent that is not binned, or the
    array of another disease. *)
Lemma schedule_untouched d sched st st' d' k :
  d' <> d \/ k ∉ m_perm bins ->
  for_loop (work_item lparms kernel ptd np binner bins d) sched st = Some st' ->
  prob (agent_prob st' d') k = prob (agent_prob st d') k.
Proof.
  intros Hne.
  apply (for_loop_invariant
           (fun s0 => prob (agent_prob s0 d') k = prob (agent_prob st d') k));
    [|reflexivity].
  intros ii s0 s0' _ Hs0 Hitem. rewrite <- Hs0.
  destruct (work_item_lookup d ii s0 s0' Hitem) as [i Hi].
  apply (work_item_other d ii i); [exact Hi| |exact Hitem].
  destruct Hne as [Hd|Hk]; [now left|right].
  intros ->. apply Hk. now apply list_elem_of_lookup_2 in Hi.
Qed.

End PassEntries.

Section PassDiseases.
Context {T : Type} `{RealOps T}.
Variable lparms : nat -> DiseaseParm T.
Variable kernel :
  nat -> nat -> ParticleTileData T -> DiseaseParm T -> T -> ProbArray T -> ProbArray T.
Variable n_disease : nat.
Variable ptd : ParticleTileData T.
Variable np : nat.
Variable binner : nat -> nat.
Variable bins : DenseBins.
Hypothesis kernel_step : forall i ptd' lparm scale,
  exists factor : nat -> option T, forall j p k,
    prob (kernel j i ptd' lparm scale p) k =
    match factor j with
    | Some f => if decide (k = i) then rmul (prob p i) f else prob p k
    | None => prob p k
    end.
Hypothesis Hperm : NoDup (m_perm bins).

(** The passes of a list of diseases, each at most once. *)
Lemma disease_loop_entry ds : NoDup ds ->
  forall st st' d k,
    for_loop (interact_disease lparms kernel ptd np binner bins) ds st = Some st' ->
    (d ∈ ds -> k ∈ m_perm bins ->
     prob (agent_prob st' d) k
     = expected_entry kernel lparms ptd binner bins d k (agent_prob st d)) /\
    (d ∉ ds \/ k ∉ m_perm bins ->
     prob (agent_prob st' d) k = prob (agent_prob st d) k).
Proof.
  induction 1 as [|d0 ds Hd0 _ IH]; intros st st' d k Hrun; simpl in Hrun.
  - injection Hrun as <-. split; [intros Hin; inversion Hin|reflexivity].
  - destruct (interact_disease lparms kernel ptd np binner bins d0 st)
      as [s1|] eqn:Hpass; simpl in Hrun; [|discriminate].
    destruct (IH s1 st' d k Hrun) as [Hin Hout].
    unfold interact_disease, ParallelForRNG in Hpass.
    destruct (decide (d = d0)) as [->|Hne].
    + split.
      * intros _ Hk. rewrite Hout by now left.
        apply list_elem_of_lookup in Hk as [ii Hii].
        apply (schedule_entry lparms kernel n_disease ptd np binner bins kernel_step
                 d0 (seq 0 (numItems bins)) Hperm (NoDup_seq _ _) st s1 ii k Hii
                 Hpass).
        apply elem_of_seq. apply lookup_lt_Some in Hii. unfold numItems. lia.
      * intros [Hd|Hk]; [exfalso; apply Hd, list_elem_of_here|].
        rewrite Hout by now right.
        apply (schedule_untouched lparms kernel n_disease ptd np binner bins
                 kernel_step d0 (seq 0 (numItems bins)) st s1 d0 k);
          [now right|exact Hpass].
    + assert (Hs1 : prob (agent_prob s1 d) k = prob (agent_prob st d) k).
      { apply (schedule_untouched lparms kernel n_disease ptd np binner bins
                 kernel_step d0 (seq 0 (numItems bins)) st s1 d k); [now left|exact Hpass]. }
      split.
      * intros Hd Hk. apply elem_of_cons in Hd as [->|Hd]; [congruence|].
        rewrite (Hin Hd Hk).
        apply expected_entry_entry; [exact kernel_step|exact Hs1].
      * intros Hor. rewrite Hout, Hs1; [reflexivity|].
        destruct Hor as [Hd|Hk]; [left|now right].
        intros Hr. apply Hd. now apply list_elem_of_further.
Qed.

Lemma interactAgents_entry st st' d k :
  interactAgents lparms kernel n_disease ptd np binner bins st = Some st' ->
  (d < n_disease -> k ∈ m_perm bins ->
   prob (agent_prob st' d) k
   = expected_entry kernel lparms ptd binner bins d k (agent_prob st d)) /\
  (n_disease <= d \/ k ∉ m_perm bins ->
   prob (agent_prob st' d) k = prob (agent_prob st d) k).
Proof.
  unfold interactAgents.
  destruct (AMREX_ALWAYS_ASSERT _); simpl; [|discriminate].
  intros Hrun.
  destruct (disease_loop_entry (seq 0 n_disease) (NoDup_seq _ _) st st' d k Hrun)
    as [Hin Hout].
  split.
  - intros Hd. apply Hin. apply elem_of_seq. lia.
  - intros [Hd|Hk]; apply Hout; [left|now right].
    intros Hr. apply elem_of_seq in Hr. lia.
Qed.

(** *** The order of the work items *)

Lemma scan_step_abort_state_free d i jj s s0 :
  is_Some (scan_step lparms kernel ptd np bins d i jj s) ->
  is_Some (scan_step lparms kernel ptd np bins d i jj s0).
Proof.
  unfold scan_step.
  destruct (m_perm bins !! jj) as [j|]; simpl; [|intros [? [=]]].
  destruct (j <? np); simpl; [|intros [? [=]]].
  intros _. destruct (i =? j); [eauto|].
  destruct (isInfectious lparms j ptd d); eauto.
Qed.

Lemma for_loop_all_Some (body : nat -> TileState T -> option (TileState T)) idx :
  (forall k s s0, is_Some (body k s) -> is_Some (body k s0)) ->
  forall st, is_Some (for_loop body idx st) <-> forall k, k ∈ idx -> is_Some (body k st).
Proof.
  intros Hfree. induction idx as [|a idx IH]; intros st; simpl.
  - split; [intros _ k Hk; inversion Hk|eauto].
  - split.
    + intros Hrun k Hk.
      destruct (body a st) as [s1|] eqn:Ha; simpl in Hrun;
        [|destruct Hrun as [? [=]]].
      apply elem_of_cons in Hk as [->|Hk]; [rewrite Ha; eauto|].
      apply (Hfree k s1). now apply (proj1 (IH s1)).
    + intros Hall. destruct (Hall a (list_elem_of_here _ _)) as [s1 Ha].
      rewrite Ha. simpl. apply IH. intros k Hk.
      apply (Hfree k st). apply Hall. now apply list_elem_of_further.
Qed.

Lemma work_item_abort_state_free d ii s s0 :
  is_Some (work_item lparms kernel ptd np binner bins d ii s) ->
  is_Some (work_item lparms kernel ptd np binner bins d ii s0).
Proof.
  unfold work_item.
  destruct (m_perm bins !! ii) as [i|]; simpl; [|intros [? [=]]].
  destruct (m_offsets bins !! binner i) as [cs|]; simpl; [|intros [? [=]]].
  destruct (m_offsets bins !! (binner i + 1)) as [ce|]; simpl; [|intros [? [=]]].
  destruct (i <? np); simpl; [|intros [? [=]]].
  destruct (notSusceptible lparms i ptd d); [eauto|].
  intros Hs. apply (for_loop_all_Some _ _ (scan_step_abort_state_free d i)).
  intros jj Hjj. apply (scan_step_abort_state_free d i jj s).
  now apply (proj1 (for_loop_all_Some _ _ (scan_step_abort_state_free d i) s) Hs).
Qed.

Lemma schedule_irrelevant d sched st :
  sched ≡ₚ seq 0 (numItems bins) ->
  (is_Some (for_loop (work_item lparms kernel ptd np binner bins d) sched st)
   <-> is_Some (interact_disease lparms kernel ptd np binner bins d st)) /\
  (forall s1 s2,
     for_loop (work_item lparms kernel ptd np binner bins d) sched st = Some s1 ->
     interact_disease lparms kernel ptd np binner bins d st = Some s2 ->
     forall d' k, prob (agent_prob s1 d') k = prob (agent_prob s2 d') k).
Proof.
  intros Hsched. unfold interact_disease, ParallelForRNG. split.
  - rewrite !(for_loop_all_Some _ _ (work_item_abort_state_free d)).
    split; intros Hall k Hk; apply Hall; [now rewrite Hsched|now rewrite <- Hsched].
  - intros s1 s2 H1 H2 d' k.
    assert (Hnd : NoDup sched) by (rewrite Hsched; apply NoDup_seq).
    destruct (decide (d' = d)) as [->|Hd].
    + destruct (decide (k ∈ m_perm bins)) as [Hk|Hk].
      * apply list_elem_of_lookup in Hk as [ii Hii].
        assert (Hin : ii ∈ seq 0 (numItems bins)).
        { apply elem_of_seq. apply lookup_lt_Some in Hii. unfold numItems. lia. }
        rewrite (proj1 (schedule_entry lparms kernel n_disease ptd np binner bins
                          kernel_step d sched Hperm Hnd st s1 ii k Hii H1))
          by now rewrite Hsched.
        now rewrite (proj1 (schedule_entry lparms kernel n_disease ptd np binner
                              bins kernel_step d (seq 0 (numItems bins)) Hperm
                              (NoDup_seq _ _) st s2 ii k Hii H2)).
      * rewrite (schedule_untouched lparms kernel n_disease ptd np binner bins
                   kernel_step d sched st s1 d k); [|now right|exact H1].
        symmetry.
        apply (schedule_untouched lparms kernel n_disease ptd np binner bins
                 kernel_step d (seq 0 (numItems bins)) st s2 d k);
          [now right|exact H2].
    + rewrite (schedule_untouched lparms kernel n_disease ptd np binner bins
                 kernel_step d sched st s1 d' k); [|now left|exact H1].
      symmetry.
      apply (schedule_untouched lparms kernel n_disease ptd np binner bins
               kernel_step d (seq 0 (numItems bins)) st s2 d' k);
        [now left|exact H2].
Qed.

End PassDiseases.

(** X1: what a pass leaves.  With a permutation array without repetitions,
    a pass of [interactAgents], workplace or neighborhood, that runs to its
    end leaves for every processed disease and every binned agent the
    expected entry: the old one for an agent that is not susceptible, and
    otherwise the old one after the kernel has been invoked, in bin order
    and with scale 1.0, for every other agent stored in the bin of the
    agent's cell that is infectious for the disease.  The arrays of other
    diseases and the entries of agents that are not binned keep their
    values. *)
Theorem pass_leaves_expected_entries {T : Type} `{RealOps T}
    (lparms : nat -> DiseaseParm T) (n_disease : nat) (ptd : ParticleTileData T)
    (np : nat) (binner : nat -> nat) (bins : DenseBins) (st : TileState T)
    (d k : nat) :
  NoDup (m_perm bins) ->
  (forall st',
     InteractionModWork.interactAgents lparms n_disease ptd np binner bins st
     = Some st' ->
     (d < n_disease -> k ∈ m_perm bins ->
      prob (agent_prob st' d) k
      = expected_entry binaryInteractionWork lparms ptd binner bins d k
          (agent_prob st d)) /\
     (n_disease <= d \/ k ∉ m_perm bins ->
      prob (agent_prob st' d) k = prob (agent_prob st d) k)) /\
  (forall st',
     InteractionModNborhood.interactAgents lparms n_disease ptd np binner bins st
     = Some st' ->
     (d < n_disease -> k ∈ m_perm bins ->
      prob (agent_prob st' d) k
      = expected_entry binaryInteractionNborhood lparms ptd binner bins d k
          (agent_prob st d)) /\
     (n_disease <= d \/ k ∉ m_perm bins ->
      prob (agent_prob st' d) k = prob (agent_prob st d) k)).
Proof.
  intros Hperm. split; intros st'.
  - apply interactAgents_entry; [apply binaryInteractionWork_step|exact Hperm].
  - apply interactAgents_entry; [apply binaryInteractionNborhood_step|exact Hperm].
Qed.

(** The office: after the workplace pass the susceptible agent 3 holds 0.95,
    the product for its one infectious cell mate, and the immune agent 0
    holds 1.0. *)
Lemma pass_leaves_expected_entries_witness :
  let ptd := Scenario.tile Scenario.office in
  let lparms := fun _ : nat => Scenario.flu in
  NoDup (m_perm Scenario.office_bins) /\
  exists st',
    InteractionModWork.interactAgents lparms 1 ptd 5 Scenario.office_binner
      Scenario.office_bins Scenario.fresh_tile = Some st' /\
    prob (agent_prob st' 0) 3 = 0.95%float /\
    prob (agent_prob st' 0) 0 = 1%float.
Proof.
  intros ptd lparms.
  assert (Hnd : NoDup (m_perm Scenario.office_bins)).
  { apply (bool_decide_unpack _). vm_compute. exact I. }
  split; [exact Hnd|].
  destruct (interactAgents_is_Some lparms binaryInteractionWork 1 ptd 5
              Scenario.office_binner Scenario.office_bins eq_refl
              Scenario.fresh_tile) as [st' Hrun].
  exists st'. split; [exact Hrun|].
  assert (Hin : forall k, k < 5 -> k ∈ m_perm Scenario.office_bins).
  { intros k Hk. apply (bool_decide_unpack _).
    do 5 (destruct k as [|k]; [vm_compute; exact I|]). lia. }
  split.
  - rewrite (proj1 (proj1 (pass_leaves_expected_entries lparms 1 ptd 5
                             Scenario.office_binner Scenario.office_bins
                             Scenario.fresh_tile 0 3 Hnd) st' Hrun));
      [reflexivity|lia|apply Hin; lia].
  - rewrite (proj1 (proj1 (pass_leaves_expected_entries lparms 1 ptd 5
                             Scenario.office_binner Scenario.office_bins
                             Scenario.fresh_tile 0 0 Hnd) st' Hrun));
      [reflexivity|lia|apply Hin; lia].
Defined.

(** X2: the order of work items, for both interaction models: with a permutation
    array without repetitions, running the work items of a disease in any
    order [sched] aborts exactly when running them in index order does, and
    otherwise leaves the same entries in every probability array. *)
Theorem parallel_order_irrelevant {T : Type} `{RealOps T}
    (lparms : nat -> DiseaseParm T) (ptd : ParticleTileData T)
    (np : nat) (binner : nat -> nat) (bins : DenseBins) (st : TileState T)
    (d : nat) (sched : list nat) :
  NoDup (m_perm bins) ->
  sched ≡ₚ seq 0 (numItems bins) ->
  ((is_Some (for_loop (work_item lparms binaryInteractionWork ptd np binner bins d)
               sched st)
    <-> is_Some (interact_disease lparms binaryInteractionWork ptd np binner bins d st))
   /\ forall s1 s2,
        for_loop (work_item lparms binaryInteractionWork ptd np binner bins d) sched st
        = Some s1 ->
        interact_disease lparms binaryInteractionWork ptd np binner bins d st
        = Some s2 ->
        forall d' k, prob (agent_prob s1 d') k = prob (agent_prob s2 d') k) /\
  ((is_Some (for_loop (work_item lparms binaryInteractionNborhood ptd np binner bins d)
               sched st)
    <-> is_Some (interact_disease lparms binaryInteractionNborhood ptd np binner bins
                   d st))
   /\ forall s1 s2,
        for_loop (work_item lparms binaryInteractionNborhood ptd np binner bins d)
          sched st = Some s1 ->
        interact_disease lparms binaryInteractionNborhood ptd np binner bins d st
        = Some s2 ->
        forall d' k, prob (agent_prob s1 d') k = prob (agent_prob s2 d') k).
Proof.
  intros Hperm Hsched. split.
  - apply (schedule_irrelevant lparms binaryInteractionWork 0 ptd np binner bins);
      [apply binaryInteractionWork_step|exact Hperm|exact Hsched].
  - apply (schedule_irrelevant lparms binaryInteractionNborhood 0 ptd np binner bins);
      [apply binaryInteractionNborhood_step|exact Hperm|exact Hsched].
Qed.

(** The office, with the work items of disease 0 run backwards. *)
Lemma parallel_order_irrelevant_witness :
  let ptd := Scenario.tile Scenario.office in
  let lparms := fun _ : nat => Scenario.flu in
  NoDup (m_perm Scenario.office_bins) /\
  [4; 3; 2; 1; 0] ≡ₚ seq 0 (numItems Scenario.office_bins) /\
  forall s1 s2,
    for_loop (work_item lparms binaryInteractionWork ptd 5 Scenario.office_binner
                Scenario.office_bins 0) [4; 3; 2; 1; 0] Scenario.fresh_tile = Some s1 ->
    interact_disease lparms binaryInteractionWork ptd 5 Scenario.office_binner
      Scenario.office_bins 0 Scenario.fresh_tile = Some s2 ->
    forall k, prob (agent_prob s1 0) k = prob (agent_prob s2 0) k.
Proof.
  intros ptd lparms.
  assert (Hnd : NoDup (m_perm Scenario.office_bins)).
  { apply (bool_decide_unpack _). vm_compute. exact I. }
  assert (Hsched : [4; 3; 2; 1; 0] ≡ₚ seq 0 (numItems Scenario.office_bins)).
  { change ([4; 3; 2; 1; 0] ≡ₚ reverse [4; 3; 2; 1; 0]).
    symmetry. apply reverse_Permutation. }
  split; [exact Hnd|]. split; [exact Hsched|].
  intros s1 s2 H1 H2 k.
  exact (proj2 (proj1 (parallel_order_irrelevant lparms ptd 5 Scenario.office_binner
                         Scenario.office_bins Scenario.fresh_tile 0 [4; 3; 2; 1; 0]
                         Hnd Hsched)) s1 s2 H1 H2 0 k).
Defined.

(** ** Agents a pass cannot affect *)

Section PassProtected.
Context {T : Type} `{RealOps T}.
Variable lparms : nat -> DiseaseParm T.
Variable kernel :
  nat -> nat -> ParticleTileData T -> DiseaseParm T -> T -> ProbArray T -> ProbArray T.
Variable n_disease : nat.
Variable ptd : ParticleTileData T.
Variable np : nat.
Variable binner : nat -> nat.
Variable bins : DenseBins.
Variable k : nat.

Hypothesis kernel_frame : forall a_i a_j ptd' lparm scale p k',
  k' <> a_j -> prob (kernel a_i a_j ptd' lparm scale p) k' = prob p k'.

(** As a target, [k] keeps its entry. *)
Hypothesis kernel_protects : forall a_i lparm scale p,
  prob (kernel a_i k ptd lparm scale p) k = prob p k.

Lemma invoke_protected d j i scale st d' :
  prob (agent_prob (invoke lparms kernel ptd d j i scale st) d') k
  = prob (agent_prob st d') k.
Proof.
  unfold invoke. simpl. destruct (decide (d' = d)) as [->|Hd].
  - rewrite fn_lookup_insert. destruct (decide (k = i)) as [<-|Hk].
    + apply kernel_protects.
    + now apply kernel_frame.
  - rewrite fn_lookup_insert_ne by congruence. reflexivity.
Qed.

Lemma interactAgents_protected st st' d :
  interactAgents lparms kernel n_disease ptd np binner bins st = Some st' ->
  prob (agent_prob st' d) k = prob (agent_prob st d) k.
Proof.
  unfold interactAgents.
  destruct (AMREX_ALWAYS_ASSERT _); simpl; [|discriminate].
  apply (for_loop_invariant
           (fun s => prob (agent_prob s d) k = prob (agent_prob st d) k));
    [|reflexivity].
  intros d0 s s' _ Hs. unfold interact_disease, ParallelForRNG.
  apply (for_loop_invariant
           (fun s0 => prob (agent_prob s0 d) k = prob (agent_prob st d) k));
    [|exact Hs].
  intros ii s0 s0' _ Hs0. unfold work_item.
  destruct (m_perm bins !! ii) as [i|]; simpl; [|discriminate].
  destruct (m_offsets bins !! binner i) as [cs|]; simpl; [|discriminate].
  destruct (m_offsets bins !! (binner i + 1)) as [ce|]; simpl; [|discriminate].
  destruct (i <? np); simpl; [|discriminate].
  destruct (notSusceptible lparms i ptd d0); [intros [= <-]; exact Hs0|].
  apply (for_loop_invariant
           (fun s1 => prob (agent_prob s1 d) k = prob (agent_prob st d) k));
    [|exact Hs0].
  intros jj s1 s1' _ Hs1. unfold scan_step.
  destruct (m_perm bins !! jj) as [j|]; simpl; [|discriminate].
  destruct (j <? np); simpl; [|discriminate].
  destruct (i =? j); [intros [= <-]; exact Hs1|].
  destruct (isInfectious lparms j ptd d0); intros [= <-]; [|exact Hs1].
  now rewrite invoke_protected.
Qed.

End PassProtected.

(** X3: a withdrawn agent is out of reach of both passes: whatever the bins
    hold and whoever is infectious, a pass that runs to its end leaves the
    agent's entry in the probability array of every disease as it was. *)
Theorem withdrawn_agent_unaffected_by_pass {T : Type} `{RealOps T}
    (lparms : nat -> DiseaseParm T) (n_disease : nat) (ptd : ParticleTileData T)
    (np : nat) (binner : nat -> nat) (bins : DenseBins) (st : TileState T)
    (k : nat) :
  m_idata ptd IntIdx.withdrawn k <> 0%Z ->
  (forall st' d,
     InteractionModWork.interactAgents lparms n_disease ptd np binner bins st
     = Some st' ->
     prob (agent_prob st' d) k = prob (agent_prob st d) k) /\
  (forall st' d,
     InteractionModNborhood.interactAgents lparms n_disease ptd np binner bins st
     = Some st' ->
     prob (agent_prob st' d) k = prob (agent_prob st d) k).
Proof.
  intros Hw.
  assert (Htest : forall a_i,
            truthy (m_idata ptd IntIdx.withdrawn a_i)
            || truthy (m_idata ptd IntIdx.withdrawn k) = true).
  { intros a_i. apply withdrawn_test_true. now right. }
  split; intros st' d.
  - apply interactAgents_protected.
    + intros. now apply binaryInteractionWork_frame.
    + intros a_i lparm scale p. now rewrite binaryInteractionWork_eq, Htest.
  - apply interactAgents_protected.
    + intros. now apply binaryInteractionNborhood_frame.
    + intros a_i lparm scale p. now rewrite binaryInteractionNborhood_eq, Htest.
Qed.

(** The office with agent 3 isolating: its infectious cell mate leaves its
    accumulator at 1.0. *)
Lemma withdrawn_agent_unaffected_by_pass_witness :
  let ptd := Scenario.tile ScenarioMore.quarantined in
  let lparms := fun _ : nat => Scenario.flu in
  m_idata ptd IntIdx.withdrawn 3 <> 0%Z /\
  exists st',
    InteractionModWork.interactAgents lparms 1 ptd 5 Scenario.office_binner
      Scenario.office_bins Scenario.fresh_tile = Some st' /\
    prob (agent_prob st' 0) 3 = 1%float.
Proof.
  intros ptd lparms.
  assert (Hw : m_idata ptd IntIdx.withdrawn 3 <> 0%Z) by (simpl; lia).
  split; [exact Hw|].
  destruct (interactAgents_is_Some lparms binaryInteractionWork 1 ptd 5
              Scenario.office_binner Scenario.office_bins eq_refl
              Scenario.fresh_tile) as [st' Hrun].
  exists st'. split; [exact Hrun|].
  now rewrite (proj1 (withdrawn_agent_unaffected_by_pass lparms 1 ptd 5
                        Scenario.office_binner Scenario.office_bins
                        Scenario.fresh_tile 3 Hw) st' 0 Hrun).
Defined.

(** X4: the workplace pass cannot reach an agent without a valid work
    location or without a workgroup: in any arithmetic in which 1.0 is a
    unit of multiplication (binary64 is one), a pass that runs to its end
    leaves the agent's entry for every disease as it was. *)
Theorem non_worker_unaffected_by_work_pass {T : Type} `{MulUnitLaws T}
    (lparms : nat -> DiseaseParm T) (n_disease : nat) (ptd : ParticleTileData T)
    (np : nat) (binner : nat -> nat) (bins : DenseBins) (st : TileState T)
    (k : nat) :
  (m_idata ptd IntIdx.work_i k < 0)%Z \/ m_idata ptd IntIdx.workgroup k = 0%Z ->
  forall st' d,
    InteractionModWork.interactAgents lparms n_disease ptd np binner bins st
    = Some st' ->
    prob (agent_prob st' d) k = prob (agent_prob st d) k.
Proof.
  intros Hk st' d. apply interactAgents_protected.
  - intros. now apply binaryInteractionWork_frame.
  - intros a_i lparm scale p. rewrite binaryInteractionWork_eq.
    destruct (_ || _); [reflexivity|].
    destruct (_ && _) eqn:Ht.
    + apply coworkers_test in Ht. destruct Ht as (Hg & _ & Hj & Heq).
      exfalso. destruct Hk as [Hk|Hk]; [lia|congruence].
    + rewrite Gpu_Atomic_Multiply_prob_eq. apply rmul_1_r.
Qed.

(** The office with agent 3 away from work (work_i = -1, workgroup 5): its
    accumulator stays at 1.0 in binary64. *)
Lemma non_worker_unaffected_by_work_pass_witness :
  let ptd := Scenario.tile ScenarioMore.remote in
  let lparms := fun _ : nat => Scenario.flu in
  ((m_idata ptd IntIdx.work_i 3 < 0)%Z \/ m_idata ptd IntIdx.workgroup 3 = 0%Z) /\
  exists st',
    InteractionModWork.interactAgents lparms 1 ptd 5 Scenario.office_binner
      Scenario.office_bins Scenario.fresh_tile = Some st' /\
    prob (agent_prob st' 0) 3 = 1%float.
Proof.
  intros ptd lparms.
  assert (Hk : (m_idata ptd IntIdx.work_i 3 < 0)%Z
               \/ m_idata ptd IntIdx.workgroup 3 = 0%Z) by (left; simpl; lia).
  split; [exact Hk|].
  destruct (interactAgents_is_Some lparms binaryInteractionWork 1 ptd 5
              Scenario.office_binner Scenario.office_bins eq_refl
              Scenario.fresh_tile) as [st' Hrun].
  exists st'. split; [exact Hrun|].
  now rewrite (non_worker_unaffected_by_work_pass lparms 1 ptd 5
                 Scenario.office_binner Scenario.office_bins
                 Scenario.fresh_tile 3 Hk st' 0 Hrun).
Defined.

(** ** Sources that cannot infect *)

Section PassHarmless.
Context {T : Type} `{RealOps T}.
Variable lparms : nat -> DiseaseParm T.
Variable kernel :
  nat -> nat -> ParticleTileData T -> DiseaseParm T -> T -> ProbArray T -> ProbArray T.
Variable n_disease : nat.
Variable ptd : ParticleTileData T.
Variable np : nat.
Variable binner : nat -> nat.
Variable bins : DenseBins.

(** A withdrawn source makes the kernel return at once. *)
Hypothesis kernel_withdrawn_source : forall a_i a_j lparm scale p,
  m_idata ptd IntIdx.withdrawn a_i <> 0%Z ->
  kernel a_i a_j ptd lparm scale p = p.

Hypothesis sources_withdrawn : forall d j,
  d < n_disease -> j ∈ m_perm bins -> isInfectious lparms j ptd d = true ->
  m_idata ptd IntIdx.withdrawn j <> 0%Z.

Lemma interactAgents_harmless st st' :
  interactAgents lparms kernel n_disease ptd np binner bins st = Some st' ->
  forall d, agent_prob st' d = agent_prob st d.
Proof.
  unfold interactAgents.
  destruct (AMREX_ALWAYS_ASSERT _); simpl; [|discriminate].
  apply (for_loop_invariant (fun s => forall d, agent_prob s d = agent_prob st d));
    [|reflexivity].
  intros d0 s s' Hd0 Hs. apply elem_of_seq in Hd0.
  unfold interact_disease, ParallelForRNG.
  apply (for_loop_invariant (fun s0 => forall d, agent_prob s0 d = agent_prob st d));
    [|exact Hs].
  intros ii s0 s0' _ Hs0. unfold work_item.
  destruct (m_perm bins !! ii) as [i|]; simpl; [|discriminate].
  destruct (m_offsets bins !! binner i) as [cs|]; simpl; [|discriminate].
  destruct (m_offsets bins !! (binner i + 1)) as [ce|]; simpl; [|discriminate].
  destruct (i <? np); simpl; [|discriminate].
  destruct (notSusceptible lparms i ptd d0); [intros [= <-]; exact Hs0|].
  apply (for_loop_invariant (fun s1 => forall d, agent_prob s1 d = agent_prob st d));
    [|exact Hs0].
  intros jj s1 s1' _ Hs1. unfold scan_step.
  destruct (m_perm bins !! jj) as [j|] eqn:Hj; simpl; [|discriminate].
  destruct (j <? np); simpl; [|discriminate].
  destruct (i =? j); [intros [= <-]; exact Hs1|].
  destruct (isInfectious lparms j ptd d0) eqn:Hinf; intros [= <-]; [|exact Hs1].
  intros d. unfold invoke. simpl.
  rewrite kernel_withdrawn_source.
  - destruct (decide (d = d0)) as [->|Hd].
    + rewrite fn_lookup_insert. apply Hs1.
    + rewrite fn_lookup_insert_ne by congruence. apply Hs1.
  - apply (sources_withdrawn d0 j); [lia| |exact Hinf].
    now apply list_elem_of_lookup_2 in Hj.
Qed.

End PassHarmless.

(** X5: if every binned agent that is infectious for a processed disease is
    withdrawn (in particular if no binned agent is infectious), a pass of
    either model that runs to its end returns every probability array as it
    received it: no entry has changed and no atomic multiply was issued. *)
Theorem isolated_sources_change_nothing {T : Type} `{RealOps T}
    (lparms : nat -> DiseaseParm T) (n_disease : nat) (ptd : ParticleTileData T)
    (np : nat) (binner : nat -> nat) (bins : DenseBins) (st : TileState T) :
  (forall d j,
     d < n_disease -> j ∈ m_perm bins -> isInfectious lparms j ptd d = true ->
     m_idata ptd IntIdx.withdrawn j <> 0%Z) ->
  (forall st' d,
     InteractionModWork.interactAgents lparms n_disease ptd np binner bins st
     = Some st' ->
     agent_prob st' d = agent_prob st d) /\
  (forall st' d,
     InteractionModNborhood.interactAgents lparms n_disease ptd np binner bins st
     = Some st' ->
     agent_prob st' d = agent_prob st d).
Proof.
  intros Hsrc. split; intros st' d Hrun.
  - apply (interactAgents_harmless lparms binaryInteractionWork n_disease ptd np
             binner bins); [|exact Hsrc|exact Hrun].
    intros a_i a_j lparm scale p Hw. rewrite binaryInteractionWork_eq.
    assert (Ht : truthy (m_idata ptd IntIdx.withdrawn a_i)
                 || truthy (m_idata ptd IntIdx.withdrawn a_j) = true)
      by (apply withdrawn_test_true; now left).
    now rewrite Ht.
  - apply (interactAgents_harmless lparms binaryInteractionNborhood n_disease ptd np
             binner bins); [|exact Hsrc|exact Hrun].
    intros a_i a_j lparm scale p Hw. rewrite binaryInteractionNborhood_eq.
    assert (Ht : truthy (m_idata ptd IntIdx.withdrawn a_i)
                 || truthy (m_idata ptd IntIdx.withdrawn a_j) = true)
      by (apply withdrawn_test_true; now left).
    now rewrite Ht.
Qed.

(** The office with both infectious agents isolating: the neighborhood pass
    returns the array of disease 0 untouched. *)
Lemma isolated_sources_change_nothing_witness :
  let ptd := Scenario.tile ScenarioMore.contained in
  let lparms := fun _ : nat => Scenario.flu in
  (forall d j,
     d < 1 -> j ∈ m_perm Scenario.office_bins ->
     isInfectious lparms j ptd d = true ->
     m_idata ptd IntIdx.withdrawn j <> 0%Z) /\
  exists st',
    InteractionModNborhood.interactAgents lparms 1 ptd 5 Scenario.office_binner
      Scenario.office_bins Scenario.fresh_tile = Some st' /\
    agent_prob st' 0 = Scenario.fresh.
Proof.
  intros ptd lparms.
  assert (Hsrc : forall d j,
            d < 1 -> j ∈ m_perm Scenario.office_bins ->
            isInfectious lparms j ptd d = true ->
            m_idata ptd IntIdx.withdrawn j <> 0%Z).
  { intros d j Hd Hj Hinf. assert (d = 0) as -> by lia.
    apply list_elem_of_lookup in Hj as [ii Hii].
    do 5 (destruct ii as [|ii]; [injection Hii as <-;
                                 first [discriminate Hinf|simpl; lia]|]).
    discriminate Hii. }
  split; [exact Hsrc|].
  destruct (interactAgents_is_Some lparms binaryInteractionNborhood 1 ptd 5
              Scenario.office_binner Scenario.office_bins eq_refl
              Scenario.fresh_tile) as [st' Hrun].
  exists st'. split; [exact Hrun|].
  exact (proj2 (isolated_sources_change_nothing lparms 1 ptd 5
                  Scenario.office_binner Scenario.office_bins Scenario.fresh_tile
                  Hsrc) st' 0 Hrun).
Defined.

(** ** Aborts *)

Lemma for_loop_abort {T : Type}
    (body : nat -> TileState T -> option (TileState T)) (idx : list nat) (k : nat) :
  k ∈ idx -> (forall s, body k s = None) ->
  forall st, for_loop body idx st = None.
Proof.
  intros Hk Hnone. induction idx as [|a idx IH]; intros st; [inversion Hk|].
  simpl. destruct (body a st) as [s1|] eqn:Ha; [|reflexivity]. simpl.
  apply elem_of_cons in Hk as [->|Hk]; [rewrite Hnone in Ha; discriminate|].
  now apply IH.
Qed.

Lemma interactAgents_abort {T : Type} `{RealOps T}
    (lparms : nat -> DiseaseParm T)
    (kernel : nat -> nat -> ParticleTileData T -> DiseaseParm T -> T ->
              ProbArray T -> ProbArray T)
    (n_disease : nat) (ptd : ParticleTileData T) (np : nat) (binner : nat -> nat)
    (bins : DenseBins) (st : TileState T) (ii i : nat) :
  m_perm bins !! ii = Some i -> np <= i -> 0 < n_disease ->
  interactAgents lparms kernel n_disease ptd np binner bins st = None.
Proof.
  intros Hi Hnp Hn. unfold interactAgents.
  destruct (AMREX_ALWAYS_ASSERT _); [|reflexivity]. simpl.
  apply (for_loop_abort _ _ 0); [apply elem_of_seq; lia|].
  intros s. unfold interact_disease, ParallelForRNG.
  apply (for_loop_abort _ _ ii).
  - apply elem_of_seq. apply lookup_lt_Some in Hi. unfold numItems. lia.
  - intros s0. unfold work_item. rewrite Hi. simpl.
    destruct (m_offsets bins !! binner i); [|reflexivity]. simpl.
    destruct (m_offsets bins !! (binner i + 1)); [|reflexivity]. simpl.
    apply Nat.ltb_ge in Hnp. now rewrite Hnp.
Qed.

(** X6: an index out of bounds aborts the pass.  If the permutation array
    holds an index that is not below the number of particles of the tile
    and there is a disease to process, neither pass returns: the work item
    of that entry fails its assertion [i < np] (or has already read outside
    the offsets array), whatever the other entries are. *)
Theorem out_of_range_index_aborts {T : Type} `{RealOps T}
    (lparms : nat -> DiseaseParm T) (n_disease : nat) (ptd : ParticleTileData T)
    (np : nat) (binner : nat -> nat) (bins : DenseBins) (st : TileState T)
    (ii i : nat) :
  m_perm bins !! ii = Some i -> np <= i -> 0 < n_disease ->
  InteractionModWork.interactAgents lparms n_disease ptd np binner bins st = None /\
  InteractionModNborhood.interactAgents lparms n_disease ptd np binner bins st = None.
Proof.
  intros Hi Hnp Hn. split; now apply (interactAgents_abort _ _ _ _ _ _ _ _ ii i).
Qed.

(** The office bins on a tile that holds four particles only: index 4 is
    out of bounds. *)
Lemma out_of_range_index_aborts_witness :
  let ptd := Scenario.tile Scenario.office in
  let lparms := fun _ : nat => Scenario.flu in
  m_perm Scenario.office_bins !! 4 = Some 4 /\
  InteractionModWork.interactAgents lparms 1 ptd 4 Scenario.office_binner
    Scenario.office_bins Scenario.fresh_tile = None /\
  InteractionModNborhood.interactAgents lparms 1 ptd 4 Scenario.office_binner
    Scenario.office_bins Scenario.fresh_tile = None.
Proof.
  intros ptd lparms. split; [reflexivity|].
  apply (out_of_range_index_aborts lparms 1 ptd 4 Scenario.office_binner
           Scenario.office_bins Scenario.fresh_tile 4 4); [reflexivity|lia|lia].
Defined.

(** ** Counting the atomic multiplies *)

Section PassAtomics.
Context {T : Type} `{RealOps T}.
Variable lparms : nat -> DiseaseParm T.
Variable kernel :
  nat -> nat -> ParticleTileData T -> DiseaseParm T -> T -> ProbArray T -> ProbArray T.
Variable n_disease : nat.
Variable ptd : ParticleTileData T.
Variable np : nat.
Variable binner : nat -> nat.
Variable bins : DenseBins.

(** One atomic multiply on the target's entry when neither agent is
    withdrawn, none otherwise. *)
Hypothesis kernel_atomics : forall a_i a_j lparm scale p,
  exists v,
    atomics (kernel a_i a_j ptd lparm scale p)
    = atomics p ++
      (if truthy (m_idata ptd IntIdx.withdrawn a_i)
          || truthy (m_idata ptd IntIdx.withdrawn a_j)
       then [] else [(a_j, v)]).

Lemma in_step_refl st : in_step ptd st st.
Proof.
  exists []. split; [now rewrite app_nil_r|].
  intros d. exists []. split; [now rewrite app_nil_r|reflexivity].
Qed.

Lemma atomic_targets_snoc d cs d0 j i :
  atomic_targets ptd d (cs ++ [(d0, j, i)])
  = atomic_targets ptd d cs ++
    (if (d0 =? d)
        && negb (truthy (m_idata ptd IntIdx.withdrawn j)
                 || truthy (m_idata ptd IntIdx.withdrawn i))
     then [i] else []).
Proof.
  unfold atomic_targets. rewrite omap_app. f_equal.
  cbn [omap list_omap]. now destruct (_ && _).
Qed.

Lemma invoke_in_step st s d0 j i scale :
  in_step ptd st s -> in_step ptd st (invoke lparms kernel ptd d0 j i scale s).
Proof.
  intros (new & Hcalls & Hops).
  exists (new ++ [(d0, j, i)]). split.
  - simpl. rewrite Hcalls. now rewrite app_assoc.
  - intros d. destruct (Hops d) as (ops & Hat & Hfst).
    rewrite atomic_targets_snoc. unfold invoke. simpl.
    destruct (decide (d = d0)) as [->|Hd].
    + rewrite fn_lookup_insert, Nat.eqb_refl. simpl.
      destruct (kernel_atomics j i (lparms d0) scale (agent_prob s d0)) as [v Hv].
      rewrite Hv, Hat.
      destruct (_ || _); simpl.
      * exists ops. rewrite !app_nil_r. split; [reflexivity|exact Hfst].
      * exists (ops ++ [(i, v)]). split; [now rewrite app_assoc|].
        rewrite map_app, Hfst. reflexivity.
    + rewrite fn_lookup_insert_ne by congruence.
      assert (Hf : (d0 =? d) = false) by (apply Nat.eqb_neq; congruence).
      rewrite Hf. simpl. exists ops. rewrite app_nil_r. split; assumption.
Qed.

Lemma interactAgents_in_step st st' :
  interactAgents lparms kernel n_disease ptd np binner bins st = Some st' ->
  in_step ptd st st'.
Proof.
  unfold interactAgents.
  destruct (AMREX_ALWAYS_ASSERT _); simpl; [|discriminate].
  apply (for_loop_invariant (in_step ptd st)); [|apply in_step_refl].
  intros d0 s s' _ Hs. unfold interact_disease, ParallelForRNG.
  apply (for_loop_invariant (in_step ptd st)); [|exact Hs].
  intros ii s0 s0' _ Hs0. unfold work_item.
  destruct (m_perm bins !! ii) as [i|]; simpl; [|discriminate].
  destruct (m_offsets bins !! binner i) as [cs|]; simpl; [|discriminate].
  destruct (m_offsets bins !! (binner i + 1)) as [ce|]; simpl; [|discriminate].
  destruct (i <? np); simpl; [|discriminate].
  destruct (notSusceptible lparms i ptd d0); [intros [= <-]; exact Hs0|].
  apply (for_loop_invariant (in_step ptd st)); [|exact Hs0].
  intros jj s1 s1' _ Hs1. unfold scan_step.
  destruct (m_perm bins !! jj) as [j|]; simpl; [|discriminate].
  destruct (j <? np); simpl; [|discriminate].
  destruct (i =? j); [intros [= <-]; exact Hs1|].
  destruct (isInfectious lparms j ptd d0); intros [= <-]; [|exact Hs1].
  now apply invoke_in_step.
Qed.

End PassAtomics.

(** X7: the atomic multiplies of a pass are those of its kernel invocations.
    A pass of either model that runs to its end extends the trace of atomic
    multiplies of every disease by exactly one operation for every kernel
    invocation it made for that disease on a pair neither of whom is
    withdrawn, on the target of that invocation and in the order of the
    invocations; invocations on a pair with a withdrawn agent add none. *)
Theorem atomic_multiplies_match_invocations {T : Type} `{RealOps T}
    (lparms : nat -> DiseaseParm T) (n_disease : nat) (ptd : ParticleTileData T)
    (np : nat) (binner : nat -> nat) (bins : DenseBins) (st : TileState T) :
  (forall st',
     InteractionModWork.interactAgents lparms n_disease ptd np binner bins st
     = Some st' -> in_step ptd st st') /\
  (forall st',
     InteractionModNborhood.interactAgents lparms n_disease ptd np binner bins st
     = Some st' -> in_step ptd st st').
Proof.
  split; intros st'; apply interactAgents_in_step.
  - intros a_i a_j lparm scale p. rewrite binaryInteractionWork_eq.
    destruct (_ || _); [exists rlit1; now rewrite app_nil_r|].
    eexists. reflexivity.
  - intros a_i a_j lparm scale p. rewrite binaryInteractionNborhood_eq.
    destruct (_ || _); [exists rlit1; now rewrite app_nil_r|].
    eexists. reflexivity.
Qed.

(** The quarantined office: the pass invokes the kernel for the pairs (1, 3)
    and (2, 4); agent 3 is isolating, so one atomic multiply is issued, on
    entry 4. *)
Lemma atomic_multiplies_match_invocations_witness :
  let ptd := Scenario.tile ScenarioMore.quarantined in
  let lparms := fun _ : nat => Scenario.flu in
  exists st',
    InteractionModWork.interactAgents lparms 1 ptd 5 Scenario.office_binner
      Scenario.office_bins Scenario.fresh_tile = Some st' /\
    in_step ptd Scenario.fresh_tile st' /\
    calls st' = [(0, 1, 3); (0, 2, 4)] /\
    map fst (atomics (agent_prob st' 0)) = [4].
Proof.
  intros ptd lparms.
  destruct (interactAgents_is_Some lparms binaryInteractionWork 1 ptd 5
              Scenario.office_binner Scenario.office_bins eq_refl
              Scenario.fresh_tile) as [st' Hrun].
  exists st'. split; [exact Hrun|].
  pose proof (proj1 (atomic_multiplies_match_invocations lparms 1 ptd 5
                       Scenario.office_binner Scenario.office_bins
                       Scenario.fresh_tile) st' Hrun) as Hstep.
  split; [exact Hstep|].
  assert (Hcalls : calls st' = [(0, 1, 3); (0, 2, 4)]).
  { revert Hrun. vm_compute. intros [= <-]. reflexivity. }
  split; [exact Hcalls|].
  destruct Hstep as (new & Hnew & Hops).
  destruct (Hops 0) as (ops & Hat & Hfst).
  rewrite Hat, map_app, Hfst. simpl in Hnew. rewrite <- Hnew, Hcalls. reflexivity.
Defined.

(** ** Well-formed rates *)

(** A property of the state that every kernel invocation of a pass keeps is
    kept by the pass. *)
Lemma interactAgents_invariant {T : Type} `{RealOps T}
    (lparms : nat -> DiseaseParm T)
    (kernel : nat -> nat -> ParticleTileData T -> DiseaseParm T -> T ->
              ProbArray T -> ProbArray T)
    (n_disease : nat) (ptd : ParticleTileData T) (np : nat) (binner : nat -> nat)
    (bins : DenseBins) (P : TileState T -> Prop) :
  (forall s d j i,
     d < n_disease -> j <> i -> isInfectious lparms j ptd d = true ->
     notSusceptible lparms i ptd d = false ->
     P s -> P (invoke lparms kernel ptd d j i rlit1 s)) ->
  forall st st',
    P st ->
    interactAgents lparms kernel n_disease ptd np binner bins st = Some st' ->
    P st'.
Proof.
  intros Hinv st st' HP. unfold interactAgents.
  destruct (AMREX_ALWAYS_ASSERT _); simpl; [|discriminate].
  apply (for_loop_invariant P); [|exact HP].
  intros d0 s s' Hd0 Hs. apply elem_of_seq in Hd0.
  unfold interact_disease, ParallelForRNG.
  apply (for_loop_invariant P); [|exact Hs].
  intros ii s0 s0' _ Hs0. unfold work_item.
  destruct (m_perm bins !! ii) as [i|]; simpl; [|discriminate].
  destruct (m_offsets bins !! binner i) as [cs|]; simpl; [|discriminate].
  destruct (m_offsets bins !! (binner i + 1)) as [ce|]; simpl; [|discriminate].
  destruct (i <? np); simpl; [|discriminate].
  destruct (notSusceptible lparms i ptd d0) eqn:Hns; [intros [= <-]; exact Hs0|].
  apply (for_loop_invariant P); [|exact Hs0].
  intros jj s1 s1' _ Hs1. unfold scan_step.
  destruct (m_perm bins !! jj) as [j|]; simpl; [|discriminate].
  destruct (j <? np); simpl; [|discriminate].
  destruct (i =? j) eqn:Hij; [intros [= <-]; exact Hs1|].
  destruct (isInfectious lparms j ptd d0) eqn:Hinf; intros [= <-]; [|exact Hs1].
  apply Hinv; try assumption; [lia|].
  apply Nat.eqb_neq in Hij. congruence.
Qed.

(** In exact arithmetic a factor between 0 and 1 lowers a nonnegative
    entry and keeps it nonnegative. *)
Lemma work_kernel_range (a_i a_j : nat) (ptd : ParticleTileData R)
    (lparm : DiseaseParm R) (p : ProbArray R) :
  (0 <= infect lparm * vac_eff lparm * xmit_work lparm <= 1)%R ->
  (0 <= prob p a_j)%R ->
  (0 <= prob (binaryInteractionWork a_i a_j ptd lparm 1%R p) a_j <= prob p a_j)%R.
Proof.
  intros Hr Hp. rewrite binaryInteractionWork_eq.
  destruct (_ || _); [lra|].
  rewrite Gpu_Atomic_Multiply_prob_eq.
  destruct (_ && _); unfold pair_factor, hazard; simpl; nra.
Qed.

Lemma nborhood_kernel_range (a_i a_j : nat) (ptd : ParticleTileData R)
    (lparm : DiseaseParm R) (p : ProbArray R) :
  (forall rate, rate ∈ [xmit_comm lparm; xmit_comm_SC lparm;
                        xmit_hood lparm; xmit_hood_SC lparm] ->
     0 <= infect lparm * vac_eff lparm * rate (m_idata ptd IntIdx.age_group a_j) <= 1)%R ->
  (0 <= prob p a_j)%R ->
  (0 <= prob (binaryInteractionNborhood a_i a_j ptd lparm 1%R p) a_j <= prob p a_j)%R.
Proof.
  intros Hr Hp. rewrite binaryInteractionNborhood_eq.
  destruct (_ || _); [lra|]. cbv zeta.
  rewrite Gpu_Atomic_Multiply_prob_eq.
  assert (Hc : (0 <= pair_factor (hazard lparm) (comm_rate ptd lparm a_i a_j) 1 <= 1)%R).
  { unfold pair_factor, hazard, comm_rate. simpl.
    destruct (0 <=? _)%Z.
    - pose proof (Hr (xmit_comm lparm) ltac:(repeat constructor)). lra.
    - pose proof (Hr (xmit_comm_SC lparm) ltac:(repeat constructor)). lra. }
  assert (Hh : (0 <= pair_factor (hazard lparm) (hood_rate ptd lparm a_i a_j) 1 <= 1)%R).
  { unfold pair_factor, hazard, hood_rate. simpl.
    destruct (0 <=? _)%Z.
    - pose proof (Hr (xmit_hood lparm) ltac:(repeat constructor)). lra.
    - pose proof (Hr (xmit_hood_SC lparm) ltac:(repeat constructor)). lra. }
  revert Hc Hh.
  generalize (pair_factor (hazard lparm) (comm_rate ptd lparm a_i a_j) 1%R).
  generalize (pair_factor (hazard lparm) (hood_rate ptd lparm a_i a_j) 1%R).
  intros fh fc Hc Hh.
  destruct (_ =? _)%Z; simpl.
  - assert (0 <= fc * fh <= 1)%R by nra. nra.
  - nra.
Qed.

(** X8: probabilities stay probabilities, in exact arithmetic.  If an entry
    of the probability array of disease [d] lies between 0 and 1 and the
    hazard times the rate lies between 0 and 1 (for the workplace pass the
    rate xmit_work, for the neighborhood pass the four rate tables at the
    agent's age group), a pass that runs to its end leaves the entry between
    0 and its old value: the escape probability never rises and never
    leaves [0, 1]. *)
Theorem probabilities_stay_probabilities
    (lparms : nat -> DiseaseParm R) (n_disease : nat) (ptd : ParticleTileData R)
    (np : nat) (binner : nat -> nat) (bins : DenseBins) (st : TileState R)
    (d k : nat) :
  (0 <= prob (agent_prob st d) k <= 1)%R ->
  ((0 <= infect (lparms d) * vac_eff (lparms d) * xmit_work (lparms d) <= 1)%R ->
   forall st',
     InteractionModWork.interactAgents lparms n_disease ptd np binner bins st
     = Some st' ->
     (0 <= prob (agent_prob st' d) k <= prob (agent_prob st d) k)%R) /\
  ((forall rate, rate ∈ [xmit_comm (lparms d); xmit_comm_SC (lparms d);
                         xmit_hood (lparms d); xmit_hood_SC (lparms d)] ->
      0 <= infect (lparms d) * vac_eff (lparms d)
           * rate (m_idata ptd IntIdx.age_group k) <= 1)%R ->
   forall st',
     InteractionModNborhood.interactAgents lparms n_disease ptd np binner bins st
     = Some st' ->
     (0 <= prob (agent_prob st' d) k <= prob (agent_prob st d) k)%R).
Proof.
  intros Hp. split; intros Hr st'.
  - apply (interactAgents_invariant lparms binaryInteractionWork n_disease ptd np
             binner bins
             (fun s => (0 <= prob (agent_prob s d) k <= prob (agent_prob st d) k)%R));
      [|lra].
    intros s d0 j i _ _ _ _ Hs. unfold invoke. simpl.
    destruct (decide (d = d0)) as [<-|Hd];
      [|rewrite fn_lookup_insert_ne by congruence; exact Hs].
    rewrite fn_lookup_insert.
    destruct (decide (k = i)) as [<-|Hk];
      [|rewrite binaryInteractionWork_frame by exact Hk; exact Hs].
    pose proof (work_kernel_range j k ptd (lparms d) (agent_prob s d) Hr
                  ltac:(lra)). lra.
  - apply (interactAgents_invariant lparms binaryInteractionNborhood n_disease ptd
             np binner bins
             (fun s => (0 <= prob (agent_prob s d) k <= prob (agent_prob st d) k)%R));
      [|lra].
    intros s d0 j i _ _ _ _ Hs. unfold invoke. simpl.
    destruct (decide (d = d0)) as [<-|Hd];
      [|rewrite fn_lookup_insert_ne by congruence; exact Hs].
    rewrite fn_lookup_insert.
    destruct (decide (k = i)) as [<-|Hk];
      [|rewrite binaryInteractionNborhood_frame by exact Hk; exact Hs].
    pose proof (nborhood_kernel_range j k ptd (lparms d) (agent_prob s d) Hr
                  ltac:(lra)). lra.
Qed.

Lemma office_sources_exact :
  scanned_sources (fun _ : nat => Scenario.exact_flu)
    (ScenarioMore.exact_sick_tile Scenario.office) 0 3
    (bucket Scenario.office_bins (Scenario.office_binner 3))
  = [1%nat].
Proof.
  change (bucket Scenario.office_bins (Scenario.office_binner 3))
    with [0%nat; 1%nat; 3%nat].
  unfold scanned_sources, isInfectious. cbn [List.filter].
  change (status (ScenarioMore.exact_sick_tile Scenario.office) 0 0)
    with Status.immune.
  change (status (ScenarioMore.exact_sick_tile Scenario.office) 0 1)
    with Status.infected.
  change (disease_counter (ScenarioMore.exact_sick_tile Scenario.office) 0 1)
    with 4%R.
  change (incubation_length Scenario.exact_flu) with 3%R.
  cbn [Status.eqb Nat.eqb negb andb rleb R_ops].
  destruct (Rle_dec 3 4) as [_|Hn]; [reflexivity|exfalso; apply Hn; lra].
Qed.

(** The office in exact arithmetic, hazard 0.5, with agents 1 and 2
    infectious: agent 3 shares its cell with agent 1.  The workplace pass
    (xmit_work 0.1) multiplies its entry by 0.95 and leaves it at 0.95; the
    neighborhood pass multiplies it by 0.875 * 0.775 and leaves it at
    0.678125.  Both lie between 0 and the old value 1. *)
Lemma probabilities_stay_probabilities_witness :
  let ptd := ScenarioMore.exact_sick_tile Scenario.office in
  let lparms := fun _ : nat => Scenario.exact_flu in
  let old := prob (agent_prob ScenarioMore.exact_fresh_tile 0%nat) 3%nat in
  (exists st',
     InteractionModWork.interactAgents lparms 1 ptd 5 Scenario.office_binner
       Scenario.office_bins ScenarioMore.exact_fresh_tile = Some st' /\
     prob (agent_prob st' 0%nat) 3%nat = (95 / 100)%R /\
     (0 <= prob (agent_prob st' 0%nat) 3%nat <= old)%R) /\
  (exists st',
     InteractionModNborhood.interactAgents lparms 1 ptd 5 Scenario.office_binner
       Scenario.office_bins ScenarioMore.exact_fresh_tile = Some st' /\
     prob (agent_prob st' 0%nat) 3%nat = (678125 / 1000000)%R /\
     (0 <= prob (agent_prob st' 0%nat) 3%nat <= old)%R).
Proof.
  intros ptd lparms old.
  assert (Hp : (0 <= old <= 1)%R) by (unfold old; simpl; lra).
  assert (Hnd : NoDup (m_perm Scenario.office_bins)).
  { apply (bool_decide_unpack _). vm_compute. exact I. }
  assert (Hin : 3%nat ∈ m_perm Scenario.office_bins).
  { apply (bool_decide_unpack _). vm_compute. exact I. }
  split.
  - destruct (interactAgents_is_Some lparms binaryInteractionWork 1 ptd 5
                Scenario.office_binner Scenario.office_bins eq_refl
                ScenarioMore.exact_fresh_tile) as [st' Hrun].
    exists st'. split; [exact Hrun|]. split.
    + rewrite (proj1 (interactAgents_entry lparms binaryInteractionWork 1 ptd 5
                        Scenario.office_binner Scenario.office_bins
                        binaryInteractionWork_step Hnd _ st' 0%nat 3%nat Hrun)
                 ltac:(lia) Hin).
      unfold expected_entry.
      replace (notSusceptible lparms 3 ptd 0) with false by reflexivity.
      unfold lparms, ptd. rewrite office_sources_exact.
      unfold apply_sources. cbn [foldl].
      rewrite binaryInteractionWork_eq.
      match goal with
      | |- context [if ?c then _ else Gpu_Atomic_Multiply _ _ _] =>
          replace c with false by reflexivity
      end.
      rewrite Gpu_Atomic_Multiply_prob_eq.
      match goal with
      | |- context [if ?c then rmul rlit1 _ else rlit1] =>
          replace c with true by reflexivity
      end.
      unfold pair_factor, hazard. simpl. lra.
    + apply (proj1 (probabilities_stay_probabilities lparms 1 ptd 5
                      Scenario.office_binner Scenario.office_bins
                      ScenarioMore.exact_fresh_tile 0 3 Hp));
        [simpl; lra|exact Hrun].
  - destruct (interactAgents_is_Some lparms binaryInteractionNborhood 1 ptd 5
                Scenario.office_binner Scenario.office_bins eq_refl
                ScenarioMore.exact_fresh_tile) as [st' Hrun].
    exists st'. split; [exact Hrun|]. split.
    + rewrite (proj1 (interactAgents_entry lparms binaryInteractionNborhood 1
                        ptd 5 Scenario.office_binner Scenario.office_bins
                        binaryInteractionNborhood_step Hnd _ st' 0%nat 3%nat
                        Hrun) ltac:(lia) Hin).
      unfold expected_entry.
      replace (notSusceptible lparms 3 ptd 0) with false by reflexivity.
      unfold lparms, ptd. rewrite office_sources_exact.
      unfold apply_sources. cbn [foldl].
      rewrite binaryInteractionNborhood_eq.
      match goal with
      | |- context [if ?c then _ else _] =>
          replace c with false by reflexivity
      end.
      cbv zeta. rewrite Gpu_Atomic_Multiply_prob_eq.
      match goal with
      | |- context [if ?c then rmul (rmul rlit1 _) _ else _] =>
          replace c with true by reflexivity
      end.
      unfold pair_factor, hazard, comm_rate, hood_rate. simpl.
      unfold Scenario.exact_by_age. simpl. lra.
    + apply (proj2 (probabilities_stay_probabilities lparms 1 ptd 5
                      Scenario.office_binner Scenario.office_bins
                      ScenarioMore.exact_fresh_tile 0 3 Hp));
        [|exact Hrun].
      intros rate Hrate.
      repeat (apply elem_of_cons in Hrate as [->|Hrate];
              [simpl; unfold Scenario.exact_by_age; simpl; lra|]).
      inversion Hrate.
Defined.

(** * The driver: [get_geometry] *)

Module DriverFacts.
Import Driver.

(** ** The census grid *)

Lemma fits_int_between (z : Z) :
  (0 <= z <= INT_MAX)%Z -> fits_int z = true.
Proof.
  intros Hz. unfold fits_int, INT_MIN, INT_MAX in *.
  apply andb_true_iff. split; apply Z.leb_le; lia.
Qed.

Lemma widen_returns (s n : Z) :
  (0 < s)%Z -> (n + s <= INT_MAX)%Z ->
  forall fuel iv0,
    (0 <= iv0 <= n / s + 1)%Z ->
    Z.to_nat (n / s + 1 - iv0) + 1 <= fuel ->
    widen fuel iv0 s n = Returns (n / s + 1)%Z.
Proof.
  intros Hs Hmax.
  assert (Hlow : (s * (n / s) <= n)%Z) by (apply Z.mul_div_le; lia).
  assert (Hup : (n < s * Z.succ (n / s))%Z) by (apply Z.mul_succ_div_gt; lia).
  induction fuel as [|fuel IH]; intros iv0 Hiv Hfuel; [lia|].
  cbn [widen].
  assert (Hprod : (0 <= iv0 * s <= INT_MAX)%Z) by nia.
  rewrite (fits_int_between _ Hprod). cbn [negb].
  destruct (Z.leb_spec (iv0 * s) n) as [Hle|Hgt].
  - assert (Hiv' : (iv0 <= n / s)%Z) by nia.
    rewrite fits_int_between by nia.
    apply IH; lia.
  - f_equal. nia.
Qed.

Lemma widen_zero_width (n : Z) :
  (0 <= n)%Z ->
  forall fuel iv0 r, widen fuel iv0 0 n <> Returns r.
Proof.
  intros Hn. induction fuel as [|fuel IH]; intros iv0 r; cbn [widen]; [discriminate|].
  rewrite Z.mul_0_r. change (fits_int 0) with true. cbn [negb].
  destruct (Z.leb_spec 0 n) as [_|Hlt]; [|lia].
  destruct (fits_int (iv0 + 1)); [apply IH|discriminate].
Qed.

(** ** Ranges of integers *)

Lemma seqZ_one (m : Z) : seqZ m 1 = [m].
Proof.
  unfold seqZ. change (Z.to_nat 1) with 1. cbn [seq fmap list_fmap].
  reflexivity.
Qed.

Lemma seqZ_snoc (k : nat) :
  seqZ 0 (Z.of_nat (S k)) = seqZ 0 (Z.of_nat k) ++ [Z.of_nat k].
Proof.
  replace (Z.of_nat (S k)) with (Z.of_nat k + 1)%Z by lia.
  rewrite seqZ_app by lia. now rewrite seqZ_one.
Qed.

End DriverFacts.

(** X9: the census grid holds every community.  In the census case, if the
    rounded square root [s] of the number of communities [n] is positive
    with [s * s <= n], and [n + s] fits an [int], [get_geometry] returns
    (given fuel for the [n / s + 2] tests of its loop) the domain from
    (0, 0) to (n / s, s - 1): it has more cells than there are communities,
    and one column fewer would not. *)
Theorem census_domain_holds_every_community (fuel : nat)
    (demo : Driver.DemographicData) (params : Driver.TestParams) (s : Z) :
  let n := Driver.Ncommunity demo in
  Driver.ic_type params = ICType.Census ->
  int_floor_sqrt n = Some s ->
  (0 < s)%Z -> (s * s <= n)%Z -> (n + s <= INT_MAX)%Z ->
  Z.to_nat (n / s) + 2 <= fuel ->
  exists g,
    Driver.get_geometry fuel demo params = Returns g /\
    Driver.Domain g
    = {| Driver.smallEnd := (0, 0)%Z; Driver.bigEnd := (n / s, s - 1)%Z |} /\
    (n < Driver.numPts (Driver.Domain g) <= n + s)%Z.
Proof.
  intros n Hic Hsqrt Hs Hsq Hmax Hfuel. subst n.
  unfold Driver.get_geometry. rewrite Hic, Hsqrt.
  assert (Hlow : (s * (Driver.Ncommunity demo / s) <= Driver.Ncommunity demo)%Z)
    by (apply Z.mul_div_le; lia).
  assert (Hup : (Driver.Ncommunity demo
                 < s * Z.succ (Driver.Ncommunity demo / s))%Z)
    by (apply Z.mul_succ_div_gt; lia).
  rewrite (DriverFacts.widen_returns s (Driver.Ncommunity demo) Hs Hmax fuel s);
    [|nia|nia].
  eexists. split; [reflexivity|]. cbn [Driver.Domain]. split.
  - f_equal. f_equal. lia.
  - unfold Driver.numPts. cbn [Driver.smallEnd Driver.bigEnd fst snd]. nia.
Qed.

(** Ten communities: the rounded root is 3, the grid has 4 x 3 cells. *)
Lemma census_domain_holds_every_community_witness :
  let demo := Driver.communities 10 in
  let params := {| Driver.ic_type := ICType.Census; Driver.size := (0, 0)%Z;
                   Driver.nsteps := 0 |} in
  int_floor_sqrt 10 = Some 3%Z /\
  exists g,
    Driver.get_geometry 6 demo params = Returns g /\
    Driver.Domain g
    = {| Driver.smallEnd := (0, 0)%Z; Driver.bigEnd := (3, 2)%Z |} /\
    (10 < Driver.numPts (Driver.Domain g) <= 13)%Z.
Proof.
  intros demo params.
  assert (Hsqrt : int_floor_sqrt 10 = Some 3%Z) by (vm_compute; reflexivity).
  split; [exact Hsqrt|].
  exact (census_domain_holds_every_community 6 demo params 3 eq_refl Hsqrt
           ltac:(lia) ltac:(simpl; lia) ltac:(unfold INT_MAX; simpl; lia)
           ltac:(vm_compute; lia)).
Defined.

(** X10: a census without communities never gets a geometry.  If the
    rounded square root of a nonnegative number of communities is 0 (as it
    is for 0 communities), the loop of [get_geometry] tests [iv0 * 0 <= n]
    forever, until the increment of [iv0] overflows: for no amount of fuel
    does the call return. *)
Theorem empty_census_never_returns (fuel : nat)
    (demo : Driver.DemographicData) (params : Driver.TestParams)
    (g : Driver.Geometry) :
  Driver.ic_type params = ICType.Census ->
  (0 <= Driver.Ncommunity demo)%Z ->
  int_floor_sqrt (Driver.Ncommunity demo) = Some 0%Z ->
  Driver.get_geometry fuel demo params <> Returns g.
Proof.
  intros Hic Hn Hsqrt. unfold Driver.get_geometry. rewrite Hic, Hsqrt.
  destruct (Driver.widen fuel 0 0 (Driver.Ncommunity demo)) as [r| | |] eqn:Hw;
    try discriminate.
  exfalso. exact (DriverFacts.widen_zero_width _ Hn fuel 0%Z r Hw).
Qed.

(** No community at all, and fuel for a thousand iterations. *)
Lemma empty_census_never_returns_witness :
  let demo := Driver.communities 0 in
  let params := {| Driver.ic_type := ICType.Census; Driver.size := (0, 0)%Z;
                   Driver.nsteps := 0 |} in
  int_floor_sqrt 0 = Some 0%Z /\
  forall g, Driver.get_geometry 1000 demo params <> Returns g.
Proof.
  intros demo params.
  assert (Hsqrt : int_floor_sqrt 0 = Some 0%Z) by (vm_compute; reflexivity).
  split; [exact Hsqrt|].
  intros g.
  exact (empty_census_never_returns 1000 demo params g eq_refl
           ltac:(simpl; lia) Hsqrt).
Defined.

(** * The worker-flow matrix: [read_workerflow] *)

Module WorkerflowFacts.
Import Driver Workerflow.

Lemma bind_Returns {A B : Type} (x : Outcome A) (f : A -> Outcome B) (b : B) :
  bind x f = Returns b -> exists a, x = Returns a /\ f a = Returns b.
Proof. destruct x as [a| | |]; try discriminate. intros Hf. now exists a. Qed.

Lemma is_unit_spec (demo : DemographicData) (i : Z) :
  is_unit demo i = true <-> (0 <= i < Nunit demo)%Z.
Proof. unfold is_unit. rewrite andb_true_iff, Z.leb_le, Z.ltb_lt. tauto. Qed.

Lemma fits_unsigned_spec (z : Z) :
  fits_unsigned z = true <-> (0 <= z <= UINT_MAX)%Z.
Proof. unfold fits_unsigned. rewrite andb_true_iff, !Z.leb_le. tauto. Qed.

Lemma wrap_fits (z : Z) : fits_unsigned z = true -> wrap z = z.
Proof.
  rewrite fits_unsigned_spec. unfold wrap, UINT_MAX. intros Hz.
  apply Z.mod_small. lia.
Qed.

Lemma wrap_add_l (a b : Z) : wrap (a + wrap b) = wrap (a + b).
Proof. unfold wrap. apply Zplus_mod_idemp_r. Qed.

(** Loops that write each entry of their range once. *)
Lemma foldl_const_row (v : Z) (l : list Z) (row : Row) (j : Z) :
  foldl (fun (r : Row) (k : Z) => <[k := v]> r) row l j
  = if decide (j ∈ l) then v else row j.
Proof.
  revert row. induction l as [|k l IH]; intros row; cbn [foldl].
  - destruct (decide (j ∈ [])) as [Hin|]; [inversion Hin|reflexivity].
  - rewrite IH. destruct (decide (j ∈ l)) as [Hin|Hout].
    + rewrite decide_True by (now apply elem_of_cons; right). reflexivity.
    + destruct (decide (j = k)) as [->|Hne].
      * rewrite decide_True by (apply elem_of_cons; now left).
        apply fn_lookup_insert.
      * rewrite decide_False by (rewrite elem_of_cons; tauto).
        now apply fn_lookup_insert_ne.
Qed.

Lemma zero_row_lookup (nunit : Z) (row : Row) (j : Z) :
  zero_row nunit row j = if decide (0 <= j < nunit)%Z then 0%Z else row j.
Proof.
  unfold zero_row. rewrite foldl_const_row.
  destruct (decide (j ∈ seqZ 0 nunit)) as [Hin|Hout];
    rewrite elem_of_seqZ in *.
  - rewrite decide_True by lia. reflexivity.
  - rewrite decide_False by lia. reflexivity.
Qed.

(** Loops over the rows: row [r] is what the body makes of it, the other
    rows do not matter. *)
Lemma foldl_rows (cond : Z -> bool) (f : Z -> Row -> Row) (l : list Z) :
  NoDup l ->
  forall (flow : Flow) (r : Z),
    foldl (fun (fl : Flow) (i : Z) =>
             if cond i then <[i := f i (fl i)]> fl else fl) flow l r
    = if decide (r ∈ l) then (if cond r then f r (flow r) else flow r)
      else flow r.
Proof.
  induction 1 as [|i l Hi Hnd IH]; intros flow r; cbn [foldl].
  - destruct (decide (r ∈ [])) as [Hin|]; [inversion Hin|reflexivity].
  - rewrite IH. destruct (decide (r = i)) as [->|Hne].
    + rewrite decide_False by exact Hi.
      rewrite decide_True by (apply elem_of_cons; now left).
      destruct (cond i); [apply fn_lookup_insert|reflexivity].
    + assert (Hrow : (if cond i then <[i := f i (flow i)]> flow else flow) r
                     = flow r).
      { destruct (cond i); [now apply fn_lookup_insert_ne|reflexivity]. }
      rewrite Hrow.
      destruct (decide (r ∈ l)) as [Hin|Hout].
      * rewrite decide_True by (apply elem_of_cons; now right). reflexivity.
      * rewrite decide_False by (rewrite elem_of_cons; tauto). reflexivity.
Qed.

Lemma for_each_rows (cond : Z -> bool) (f : Z -> Row -> Outcome Row)
    (l : list Z) :
  NoDup l ->
  forall (flow flow' : Flow),
    for_each (fun (fl : Flow) (i : Z) =>
                if cond i
                then bind (f i (fl i)) (fun row => Returns (<[i := row]> fl))
                else Returns fl) l flow = Returns flow' ->
    forall r,
      if decide (r ∈ l) then
        (if cond r then f r (flow r) = Returns (flow' r) else flow' r = flow r)
      else flow' r = flow r.
Proof.
  induction 1 as [|i l Hi Hnd IH]; intros flow flow' Hrun r; cbn [for_each] in Hrun.
  - injection Hrun as <-.
    destruct (decide (r ∈ [])) as [Hin|]; [inversion Hin|reflexivity].
  - apply bind_Returns in Hrun as (fl1 & Hstep & Hrest).
    specialize (IH _ _ Hrest r).
    destruct (decide (r = i)) as [->|Hne].
    + rewrite decide_False in IH by exact Hi.
      rewrite decide_True by (apply elem_of_cons; now left).
      destruct (cond i).
      * apply bind_Returns in Hstep as (row & Hrow & Hfl).
        injection Hfl as <-. rewrite Hrow, IH. f_equal. symmetry.
        apply fn_lookup_insert.
      * injection Hstep as <-. exact IH.
    + assert (Hrow : fl1 r = flow r).
      { destruct (cond i).
        - apply bind_Returns in Hstep as (row & Hrow & Hfl).
          injection Hfl as <-. now apply fn_lookup_insert_ne.
        - now injection Hstep as <-. }
      destruct (decide (r ∈ l)) as [Hin|Hout].
      * rewrite decide_True by (apply elem_of_cons; now right).
        rewrite Hrow in IH. exact IH.
      * rewrite decide_False by (rewrite elem_of_cons; tauto).
        now rewrite IH.
Qed.


Lemma flow_insert_eq (flow : Flow) (i : Z) (row : Row) :
  (<[i := row]> flow) i = row.
Proof. apply fn_lookup_insert. Qed.

Lemma flow_insert_ne (flow : Flow) (i k : Z) (row : Row) :
  i <> k -> (<[i := row]> flow) k = flow k.
Proof. apply fn_lookup_insert_ne. Qed.

Lemma row_insert_eq (row : Row) (j v : Z) : (<[j := v]> row) j = v.
Proof. apply fn_lookup_insert. Qed.

Lemma row_insert_ne (row : Row) (j k v : Z) :
  j <> k -> (<[j := v]> row) k = row k.
Proof. apply fn_lookup_insert_ne. Qed.

(** *** Allocation and the records of the file *)

Lemma allocate_lookup (demo : DemographicData) (memory : Flow) (i j : Z) :
  allocate demo memory i j
  = if is_unit demo i && truthy (Unit_on_proc demo i) && is_unit demo j
    then 0%Z else memory i j.
Proof.
  unfold allocate.
  rewrite (foldl_rows (fun i => truthy (Unit_on_proc demo i))
             (fun _ => zero_row (Nunit demo)) _ (NoDup_seqZ _ _)).
  destruct (decide (i ∈ seqZ 0 (Nunit demo))) as [Hin|Hout];
    rewrite elem_of_seqZ in *.
  - rewrite (proj2 (is_unit_spec demo i)) by lia. cbn [andb].
    destruct (truthy (Unit_on_proc demo i)); [|reflexivity]. cbn [andb].
    rewrite zero_row_lookup.
    destruct (decide (0 <= j < Nunit demo)%Z) as [Hj|Hj].
    + now rewrite (proj2 (is_unit_spec demo j)).
    + destruct (is_unit demo j) eqn:Hu; [|reflexivity].
      apply is_unit_spec in Hu. lia.
  - destruct (is_unit demo i) eqn:Hu; [|reflexivity].
    apply is_unit_spec in Hu. lia.
Qed.

Lemma read_record_entry (demo : DemographicData) (flow flow' : Flow)
    (w : Work) (i j : Z) :
  read_record demo flow w = Returns flow' ->
  flow' i j
  = if (myIDtoUnit demo (from w) =? i)%Z && (myIDtoUnit demo (to w) =? j)%Z
       && truthy (Unit_on_proc demo i)
       && negb (Start demo (j + 1) =? Start demo j)%Z
    then number w else flow i j.
Proof.
  unfold read_record.
  destruct (Z.eqb_spec (myIDtoUnit demo (from w)) i) as [<-|Hi]; cbn [andb].
  - destruct (truthy (Unit_on_proc demo (myIDtoUnit demo (from w)))).
    2:{ intros [= <-]. now rewrite andb_false_r. }
    destruct (fits_int (myIDtoUnit demo (to w) + 1)); cbn [negb];
      [|discriminate].
    destruct (Z.eqb_spec (myIDtoUnit demo (to w)) j) as [<-|Hj]; cbn [andb].
    + destruct (negb _); [|now intros [= <-]].
      destruct (_ && _); [|discriminate]. intros [= <-].
      now rewrite flow_insert_eq, row_insert_eq.
    + destruct (negb _); [|now intros [= <-]].
      destruct (_ && _); [|discriminate]. intros [= <-].
      now rewrite flow_insert_eq, row_insert_ne.
  - destruct (truthy _); [|now intros [= <-]].
    destruct (fits_int _); cbn [negb]; [|discriminate].
    destruct (negb _); [|now intros [= <-]].
    destruct (_ && _); [|discriminate]. intros [= <-].
    now rewrite flow_insert_ne.
Qed.

Lemma records_entry (demo : DemographicData) (records : list Work) (i j : Z) :
  forall flow flow',
    for_each (read_record demo) records flow = Returns flow' ->
    flow' i j
    = if truthy (Unit_on_proc demo i)
         && negb (Start demo (j + 1) =? Start demo j)%Z
      then match list.last (records_between demo records i j) with
           | Some w => number w
           | None => flow i j
           end
      else flow i j.
Proof.
  induction records as [|w records IH]; intros flow flow' Hrun;
    cbn [for_each] in Hrun.
  - injection Hrun as <-. cbn. now destruct (_ && _).
  - apply bind_Returns in Hrun as (fl1 & Hstep & Hrest).
    rewrite (IH _ _ Hrest), (read_record_entry _ _ _ _ i j Hstep).
    unfold records_between. cbn [List.filter].
    destruct (truthy (Unit_on_proc demo i)); cbn [andb];
      [|now rewrite andb_false_r].
    destruct (negb (Start demo (j + 1) =? Start demo j)%Z);
      [|now rewrite andb_false_r].
    rewrite !andb_true_r.
    destruct ((myIDtoUnit demo (from w) =? i)%Z
              && (myIDtoUnit demo (to w) =? j)%Z); [|reflexivity].
    rewrite last_cons. now destruct (list.last _).
Qed.

Lemma records_return (demo : DemographicData) (records : list Work) :
  (Nunit demo <= INT_MAX)%Z ->
  Forall (fun w => is_unit demo (myIDtoUnit demo (from w)) = true
                   /\ is_unit demo (myIDtoUnit demo (to w)) = true) records ->
  forall flow, exists flow', for_each (read_record demo) records flow = Returns flow'.
Proof.
  intros Hn. induction 1 as [|w records [Hi Hj] _ IH]; intros flow;
    cbn [for_each].
  - now eexists.
  - assert (Hstep : exists fl1, read_record demo flow w = Returns fl1).
    { unfold read_record. rewrite Hi, Hj. cbn [andb].
      apply is_unit_spec in Hj.
      rewrite DriverFacts.fits_int_between by (unfold INT_MAX in *; lia). cbn [negb].
      destruct (truthy _); [|now eexists].
      destruct (negb _); now eexists. }
    destruct Hstep as (fl1 & ->). cbn [bind]. apply IH.
Qed.


(** *** Cumulative numbers *)

Lemma foldr_add_shift (l : list Z) (x : Z) :
  foldr Z.add x l = (foldr Z.add 0 l + x)%Z.
Proof. induction l as [|y l IH]; cbn [foldr]; lia. Qed.

Lemma partial_sum_0 (row : Row) : partial_sum row 0 = row 0%Z.
Proof.
  unfold partial_sum. change (0 + 1)%Z with 1%Z.
  rewrite DriverFacts.seqZ_one. cbn [fmap list_fmap foldr]. lia.
Qed.

Lemma partial_sum_succ (row : Row) (j : Z) :
  (0 <= j)%Z -> partial_sum row (j + 1) = (partial_sum row j + row (j + 1))%Z.
Proof.
  intros Hj. unfold partial_sum.
  rewrite (seqZ_app 0 (j + 1) 1) by lia.
  rewrite fmap_app, foldr_app, DriverFacts.seqZ_one.
  cbn [fmap list_fmap foldr]. rewrite foldr_add_shift.
  replace (0 + (j + 1))%Z with (j + 1)%Z by lia. lia.
Qed.

Lemma partial_sum_ext (row row' : Row) (j : Z) :
  (forall k, (0 <= k <= j)%Z -> row k = row' k) ->
  partial_sum row j = partial_sum row' j.
Proof.
  intros Hext. unfold partial_sum. f_equal. apply list_fmap_ext.
  intros _ k Hk%list_elem_of_lookup_2%elem_of_seqZ. apply Hext. lia.
Qed.

Lemma partial_sum_mono (row : Row) (j j' : Z) :
  (forall k, (0 <= k <= j)%Z -> 0 <= row k)%Z ->
  (0 <= j' <= j)%Z -> (partial_sum row j' <= partial_sum row j)%Z.
Proof.
  intros Hpos [Hj' Hj].
  assert (Hn : forall n : nat, (j' + Z.of_nat n <= j)%Z ->
                 (partial_sum row j' <= partial_sum row (j' + Z.of_nat n))%Z).
  { induction n as [|n IH]; intros Hle.
    - replace (j' + Z.of_nat 0)%Z with j' by lia. lia.
    - replace (j' + Z.of_nat (S n))%Z with (j' + Z.of_nat n + 1)%Z by lia.
      rewrite partial_sum_succ by lia.
      pose proof (Hpos (j' + Z.of_nat n + 1)%Z ltac:(lia)).
      pose proof (IH ltac:(lia)). lia. }
  specialize (Hn (Z.to_nat (j - j'))).
  replace (j' + Z.of_nat (Z.to_nat (j - j')))%Z with j in Hn by lia.
  apply Hn. lia.
Qed.

Lemma accumulate_loop (row : Row) (m : nat) (j : Z) :
  foldl (fun (r : Row) (k : Z) => <[k := wrap (r k + r (k - 1))%Z]> r) row
    (seqZ 1 (Z.of_nat m)) j
  = if decide (1 <= j <= Z.of_nat m)%Z then wrap (partial_sum row j) else row j.
Proof.
  revert j. induction m as [|m IH]; intros j.
  - cbn [foldl]. rewrite decide_False by lia. reflexivity.
  - replace (Z.of_nat (S m)) with (Z.of_nat m + 1)%Z by lia.
    rewrite (seqZ_app 1 (Z.of_nat m) 1), foldl_app, DriverFacts.seqZ_one by lia.
    cbn [foldl].
    destruct (decide (j = 1 + Z.of_nat m)%Z) as [->|Hne].
    + rewrite row_insert_eq, decide_True by lia.
      rewrite (IH (1 + Z.of_nat m)%Z), decide_False by lia.
      rewrite (IH (1 + Z.of_nat m - 1)%Z).
      replace (1 + Z.of_nat m - 1)%Z with (Z.of_nat m) by lia.
      replace (1 + Z.of_nat m)%Z with (Z.of_nat m + 1)%Z by lia.
      rewrite partial_sum_succ by lia.
      destruct (decide (1 <= Z.of_nat m <= Z.of_nat m)%Z) as [Hm|Hm].
      * rewrite wrap_add_l. f_equal. lia.
      * replace (Z.of_nat m) with 0%Z by lia.
        rewrite partial_sum_0. f_equal. lia.
    + rewrite row_insert_ne by lia. rewrite IH.
      destruct (decide (1 <= j <= Z.of_nat m)%Z).
      * rewrite decide_True by lia. reflexivity.
      * rewrite decide_False by lia. reflexivity.
Qed.

Lemma accumulate_row_lookup (nunit : Z) (row : Row) (j : Z) :
  accumulate_row nunit row j
  = if decide (1 <= j < nunit)%Z then wrap (partial_sum row j) else row j.
Proof.
  unfold accumulate_row.
  destruct (Z.le_gt_cases 0 (nunit - 1)) as [Hn|Hn].
  - rewrite <- (Z2Nat.id (nunit - 1)) at 1 by exact Hn.
    rewrite accumulate_loop.
    destruct (decide (1 <= j < nunit)%Z).
    + rewrite decide_True by lia. reflexivity.
    + rewrite decide_False by lia. reflexivity.
  - rewrite seqZ_nil by lia. cbn [foldl].
    rewrite decide_False by lia. reflexivity.
Qed.

Lemma accumulate_lookup (demo : DemographicData) (flow : Flow) (i j : Z) :
  accumulate demo flow i j
  = if is_unit demo i && truthy (Unit_on_proc demo i)
       && (1 <=? j)%Z && (j <? Nunit demo)%Z
    then wrap (partial_sum (flow i) j) else flow i j.
Proof.
  unfold accumulate.
  rewrite (foldl_rows (fun i => truthy (Unit_on_proc demo i))
             (fun _ => accumulate_row (Nunit demo)) _ (NoDup_seqZ _ _)).
  destruct (decide (i ∈ seqZ 0 (Nunit demo))) as [Hin|Hout];
    rewrite elem_of_seqZ in *.
  - rewrite (proj2 (is_unit_spec demo i)) by lia. cbn [andb].
    destruct (truthy (Unit_on_proc demo i)); [|reflexivity]. cbn [andb].
    rewrite accumulate_row_lookup.
    destruct (decide (1 <= j < Nunit demo)%Z) as [Hj|Hj].
    + rewrite (proj2 (Z.leb_le 1 j)), (proj2 (Z.ltb_lt j _)) by lia.
      reflexivity.
    + destruct (Z.leb_spec 1 j), (Z.ltb_spec j (Nunit demo));
        cbn [andb]; try reflexivity; lia.
  - destruct (is_unit demo i) eqn:Hu; [|reflexivity].
    apply is_unit_spec in Hu. lia.
Qed.

(** *** Scaling *)

Lemma for_each_entries (g : Z -> Outcome Z) (l : list Z) :
  NoDup l ->
  forall (row row' : Row),
    for_each (fun (r : Row) (j : Z) =>
                bind (g (r j)) (fun v => Returns (<[j := v]> r))) l row
    = Returns row' ->
    forall j,
      if decide (j ∈ l) then g (row j) = Returns (row' j) else row' j = row j.
Proof.
  induction 1 as [|k l Hk Hnd IH]; intros row row' Hrun j; cbn [for_each] in Hrun.
  - injection Hrun as <-.
    destruct (decide (j ∈ [])) as [Hin|]; [inversion Hin|reflexivity].
  - apply bind_Returns in Hrun as (r1 & Hstep & Hrest).
    apply bind_Returns in Hstep as (v & Hv & Hr1). injection Hr1 as <-.
    specialize (IH _ _ Hrest j).
    destruct (decide (j = k)) as [->|Hne].
    + rewrite decide_False in IH by exact Hk.
      rewrite decide_True by (apply elem_of_cons; now left).
      rewrite Hv, IH. f_equal. symmetry. apply row_insert_eq.
    + rewrite row_insert_ne in IH by congruence.
      destruct (decide (j ∈ l)) as [Hin|Hout].
      * rewrite decide_True by (apply elem_of_cons; now right). exact IH.
      * rewrite decide_False by (rewrite elem_of_cons; tauto). exact IH.
Qed.

Lemma rescale_row_lookup (nunit : Z) (scale : float) (row row' : Row) (j : Z) :
  rescale_row nunit scale row = Returns row' ->
  if decide (0 <= j < nunit)%Z
  then unsigned_of (rint (double_of_Z (row j) * scale)%float) = Returns (row' j)
  else row' j = row j.
Proof.
  intros Hrun.
  pose proof (for_each_entries
                (fun v => unsigned_of (rint (double_of_Z v * scale)%float))
                _ (NoDup_seqZ 0 nunit) row row' Hrun j) as Hj.
  destruct (decide (j ∈ seqZ 0 nunit)) as [Hin|Hout];
    rewrite elem_of_seqZ in *.
  - rewrite decide_True by lia. exact Hj.
  - rewrite decide_False by lia. exact Hj.
Qed.

Lemma rescale_row_of (demo : DemographicData) (flow flow' : Flow) (i : Z) :
  rescale demo flow = Returns flow' ->
  if is_unit demo i && truthy (Unit_on_proc demo i) && truthy (Population demo i)
  then exists scale, scale_of (Population demo i) = Returns scale
                     /\ rescale_row (Nunit demo) scale (flow i) = Returns (flow' i)
  else flow' i = flow i.
Proof.
  intros Hrun.
  pose proof (for_each_rows
                (fun i => truthy (Unit_on_proc demo i) && truthy (Population demo i))
                (rescale_unit demo) _ (NoDup_seqZ 0 (Nunit demo)) flow flow' Hrun i)
    as Hi.
  destruct (decide (i ∈ seqZ 0 (Nunit demo))) as [Hin|Hout];
    rewrite elem_of_seqZ in *.
  - rewrite (proj2 (is_unit_spec demo i)) by lia. cbn [andb].
    destruct (truthy (Unit_on_proc demo i) && truthy (Population demo i));
      [|exact Hi].
    unfold rescale_unit in Hi. apply bind_Returns in Hi as (scale & Hs & Hrow).
    now exists scale.
  - destruct (is_unit demo i) eqn:Hu; [|exact Hi].
    apply is_unit_spec in Hu. lia.
Qed.

Lemma scaled_zero (scale : float) (v : Z) :
  unsigned_of (rint (double_of_Z 0 * scale)%float) = Returns v -> v = 0%Z.
Proof.
  unfold rint. rewrite mul_spec.
  change (Prim2SF (double_of_Z 0)) with (S754_zero false).
  destruct (Prim2SF scale) as [s|s| |s m e]; cbn; congruence.
Qed.

(** *** The destination unit *)

Lemma search_Returns (nunit : Z) (row : Row) (irnd : Z) :
  forall fuel to t,
    search fuel nunit row irnd to = Returns t ->
    (0 <= to <= t)%Z /\ (t < nunit)%Z /\ (irnd < row t)%Z
    /\ forall k, (to <= k < t)%Z -> (row k <= irnd)%Z.
Proof.
  induction fuel as [|fuel IH]; intros to t; cbn [search]; [discriminate|].
  destruct (Z.leb_spec 0 to), (Z.ltb_spec to nunit); cbn [andb negb];
    try discriminate.
  destruct (Z.leb_spec (row to) irnd).
  - destruct (fits_int (to + 1)); [|discriminate].
    intros (Hto & Ht & Hrow & Hbelow)%IH. repeat split; try lia.
    intros k Hk. destruct (decide (k = to)) as [->|]; [lia|].
    apply Hbelow. lia.
  - intros [= <-]. repeat split; try lia.
Qed.

Lemma search_finds (nunit : Z) (row : Row) (irnd : Z) :
  (nunit <= INT_MAX)%Z ->
  forall fuel to,
    (0 <= to)%Z ->
    (exists t, (to <= t < nunit)%Z /\ (irnd < row t)%Z) ->
    Z.to_nat (nunit - to) <= fuel ->
    exists t, search fuel nunit row irnd to = Returns t.
Proof.
  intros Hmax. induction fuel as [|fuel IH]; intros to Hto (t & Ht & Hrow) Hfuel.
  - lia.
  - cbn [search].
    rewrite (proj2 (Z.leb_le 0 to)), (proj2 (Z.ltb_lt to nunit)) by lia.
    cbn [andb negb].
    destruct (Z.leb_spec (row to) irnd); [|now eexists].
    rewrite DriverFacts.fits_int_between by lia.
    apply IH; [lia| |lia].
    exists t. split; [|exact Hrow].
    destruct (decide (t = to)) as [->|]; lia.
Qed.


(** *** From the file to the destination *)

Lemma rescale_equal_entries (demo : DemographicData) (flow flow' : Flow)
    (i j j' : Z) :
  rescale demo flow = Returns flow' ->
  is_unit demo j = true -> is_unit demo j' = true ->
  flow i j = flow i j' -> flow' i j = flow' i j'.
Proof.
  intros Hrun Hj%is_unit_spec Hj'%is_unit_spec Heq.
  pose proof (rescale_row_of demo flow flow' i Hrun) as Hrow.
  destruct (_ && _) in Hrow.
  - destruct Hrow as (scale & _ & Hrow).
    pose proof (rescale_row_lookup _ _ _ _ j Hrow) as H1.
    pose proof (rescale_row_lookup _ _ _ _ j' Hrow) as H2.
    rewrite decide_True in H1 by lia. rewrite decide_True in H2 by lia.
    rewrite Heq, H2 in H1. now injection H1.
  - now rewrite Hrow.
Qed.

Lemma rescale_zero_entry (demo : DemographicData) (flow flow' : Flow) (i j : Z) :
  rescale demo flow = Returns flow' ->
  is_unit demo j = true -> flow i j = 0%Z -> flow' i j = 0%Z.
Proof.
  intros Hrun Hj%is_unit_spec Hz.
  pose proof (rescale_row_of demo flow flow' i Hrun) as Hrow.
  destruct (_ && _) in Hrow.
  - destruct Hrow as (scale & _ & Hrow).
    pose proof (rescale_row_lookup _ _ _ _ j Hrow) as H1.
    rewrite decide_True, Hz in H1 by lia.
    exact (scaled_zero _ _ H1).
  - now rewrite Hrow.
Qed.

Lemma loaded_entry (demo : DemographicData) (records : list Work)
    (memory flow : Flow) (i j : Z) :
  for_each (read_record demo) records (allocate demo memory) = Returns flow ->
  is_unit demo i = true -> truthy (Unit_on_proc demo i) = true ->
  is_unit demo j = true ->
  flow i j
  = if (Start demo (j + 1) =? Start demo j)%Z then 0%Z
    else match list.last (records_between demo records i j) with
         | Some w => number w
         | None => 0%Z
         end.
Proof.
  intros Hrun Hi Hon Hj.
  rewrite (records_entry _ _ i j _ _ Hrun), allocate_lookup, Hi, Hon, Hj.
  cbn [andb]. now destruct (Start demo (j + 1) =? Start demo j)%Z.
Qed.

Lemma loaded_entry_fits (demo : DemographicData) (records : list Work)
    (memory flow : Flow) (i j : Z) :
  Forall (fun w => fits_unsigned (number w) = true) records ->
  for_each (read_record demo) records (allocate demo memory) = Returns flow ->
  is_unit demo i = true -> truthy (Unit_on_proc demo i) = true ->
  is_unit demo j = true ->
  fits_unsigned (flow i j) = true.
Proof.
  intros Hnum Hrun Hi Hon Hj.
  rewrite (loaded_entry _ _ _ _ i j Hrun Hi Hon Hj).
  destruct (Start demo (j + 1) =? Start demo j)%Z; [reflexivity|].
  destruct (list.last _) as [w|] eqn:Hlast; [|reflexivity].
  apply last_Some_elem_of, list_elem_of_In in Hlast.
  apply filter_In in Hlast as [Hin _].
  rewrite Forall_forall in Hnum. apply Hnum. exact Hin.
Qed.

Lemma accumulated_zero_entry (demo : DemographicData) (flow : Flow) (i j : Z) :
  is_unit demo i = true -> truthy (Unit_on_proc demo i) = true ->
  (1 <= j < Nunit demo)%Z ->
  fits_unsigned (flow i 0%Z) = true ->
  flow i j = 0%Z ->
  accumulate demo flow i j = accumulate demo flow i (j - 1)%Z.
Proof.
  intros Hi Hon Hj Hfit Hz.
  rewrite !accumulate_lookup, Hi, Hon. cbn [andb].
  rewrite (proj2 (Z.leb_le 1 j)), (proj2 (Z.ltb_lt j _)) by lia.
  rewrite (proj2 (Z.ltb_lt (j - 1) _)) by lia. cbn [andb].
  replace j with (j - 1 + 1)%Z at 1 by lia.
  rewrite partial_sum_succ by lia.
  replace (j - 1 + 1)%Z with j by lia. rewrite Hz, Z.add_0_r.
  destruct (Z.leb_spec 1 (j - 1)); [reflexivity|].
  replace (j - 1)%Z with 0%Z by lia.
  rewrite partial_sum_0. now apply wrap_fits.
Qed.

End WorkerflowFacts.

(** X13: what the records leave in the matrix.  If every unit id of the
    file is mapped to a unit, the loop over the records runs to its end,
    and the entry for a unit [i] on this processor and a unit [j] is then:
    0 if unit [j] has no communities or no record goes from [i] to [j], and
    otherwise the number of the last such record; what the memory held
    before does not matter. *)
Theorem records_fill_matrix (demo : Driver.DemographicData)
    (records : list Workerflow.Work) (memory : Workerflow.Flow) (i j : Z) :
  (Driver.Nunit demo <= INT_MAX)%Z ->
  Forall (fun w =>
            Workerflow.is_unit demo (Driver.myIDtoUnit demo (Workerflow.from w)) = true
            /\ Workerflow.is_unit demo (Driver.myIDtoUnit demo (Workerflow.to w)) = true)
         records ->
  Workerflow.is_unit demo i = true ->
  truthy (Driver.Unit_on_proc demo i) = true ->
  Workerflow.is_unit demo j = true ->
  exists flow,
    for_each (Workerflow.read_record demo) records (Workerflow.allocate demo memory)
    = Returns flow /\
    flow i j
    = if (Driver.Start demo (j + 1) =? Driver.Start demo j)%Z then 0%Z
      else match list.last (Workerflow.records_between demo records i j) with
           | Some w => Workerflow.number w
           | None => 0%Z
           end.
Proof.
  intros Hmax Hrecs Hi Hon Hj.
  destruct (WorkerflowFacts.records_return demo records Hmax Hrecs
              (Workerflow.allocate demo memory)) as (flow & Hrun).
  exists flow. split; [exact Hrun|].
  exact (WorkerflowFacts.loaded_entry _ _ _ _ i j Hrun Hi Hon Hj).
Qed.

(** The two records from the first to the third unit: the later one, 20,
    is stored. *)
Lemma records_fill_matrix_witness :
  exists flow,
    for_each (Workerflow.read_record Towns.towns) Towns.file
      (Workerflow.allocate Towns.towns Towns.garbage) = Returns flow /\
    flow 0%Z 2%Z = 20%Z.
Proof.
  apply (records_fill_matrix Towns.towns Towns.file Towns.garbage 0%Z 2%Z).
  - vm_compute. discriminate.
  - repeat constructor.
  - reflexivity.
  - reflexivity.
  - reflexivity.
Defined.

(** X14: cumulative numbers.  For a unit [i] on this processor whose row
    holds [unsigned int]s, the conversion loop leaves in every entry [j]
    the sum of the entries [0 .. j] of the row modulo 2^32; if the sum of
    the whole row fits an [unsigned int], the entry is that sum itself and
    the row is nondecreasing. *)
Theorem cumulative_numbers (demo : Driver.DemographicData)
    (flow : Workerflow.Flow) (i j : Z) :
  Workerflow.is_unit demo i = true ->
  truthy (Driver.Unit_on_proc demo i) = true ->
  Workerflow.is_unit demo j = true ->
  (forall k, Workerflow.is_unit demo k = true -> fits_unsigned (flow i k) = true) ->
  Workerflow.accumulate demo flow i j = wrap (Workerflow.partial_sum (flow i) j) /\
  ((Workerflow.partial_sum (flow i) (Driver.Nunit demo - 1) <= UINT_MAX)%Z ->
   Workerflow.accumulate demo flow i j = Workerflow.partial_sum (flow i) j /\
   forall j', (0 <= j' <= j)%Z ->
     (Workerflow.accumulate demo flow i j' <= Workerflow.accumulate demo flow i j)%Z).
Proof.
  intros Hi Hon Hj Hfit.
  assert (Hpos : forall k, (0 <= k <= Driver.Nunit demo - 1)%Z -> (0 <= flow i k)%Z).
  { intros k Hk.
    pose proof (Hfit k (proj2 (WorkerflowFacts.is_unit_spec demo k) ltac:(lia))) as Hf.
    apply WorkerflowFacts.fits_unsigned_spec in Hf. lia. }
  assert (Hacc : forall k, Workerflow.is_unit demo k = true ->
            Workerflow.accumulate demo flow i k
            = wrap (Workerflow.partial_sum (flow i) k)).
  { intros k Hk. rewrite WorkerflowFacts.accumulate_lookup, Hi, Hon. cbn [andb].
    pose proof (proj1 (WorkerflowFacts.is_unit_spec demo k) Hk) as Hk'.
    rewrite (proj2 (Z.ltb_lt k _)) by lia.
    destruct (Z.leb_spec 1 k); cbn [andb]; [reflexivity|].
    replace k with 0%Z by lia. rewrite WorkerflowFacts.partial_sum_0.
    symmetry. apply WorkerflowFacts.wrap_fits, Hfit.
    apply WorkerflowFacts.is_unit_spec. lia. }
  split; [exact (Hacc j Hj)|].
  intros Htotal.
  pose proof (proj1 (WorkerflowFacts.is_unit_spec demo j) Hj) as Hj'.
  assert (Hsmall : forall k, (0 <= k <= Driver.Nunit demo - 1)%Z ->
            Workerflow.accumulate demo flow i k = Workerflow.partial_sum (flow i) k).
  { intros k Hk.
    rewrite Hacc by (apply WorkerflowFacts.is_unit_spec; lia).
    apply WorkerflowFacts.wrap_fits, WorkerflowFacts.fits_unsigned_spec.
    pose proof (WorkerflowFacts.partial_sum_mono (flow i) _ k Hpos
                  ltac:(lia)) as Hle.
    pose proof (WorkerflowFacts.partial_sum_mono (flow i) k 0
                  ltac:(intros; apply Hpos; lia) ltac:(lia)) as Hge.
    rewrite WorkerflowFacts.partial_sum_0 in Hge.
    pose proof (Hpos 0%Z ltac:(lia)). lia. }
  split; [apply Hsmall; lia|].
  intros j' Hj'j. rewrite !Hsmall by lia.
  apply WorkerflowFacts.partial_sum_mono; [|lia].
  intros k Hk. apply Hpos. lia.
Qed.

(** A row 30, 0, 20 becomes 30, 30, 50. *)
Lemma cumulative_numbers_witness :
  let flow : Workerflow.Flow :=
    fun _ j => match j with 0 => 30 | 2 => 20 | _ => 0 end%Z in
  Workerflow.accumulate Towns.towns flow 0%Z 2%Z = 50%Z.
Proof.
  intros flow.
  destruct (cumulative_numbers Towns.towns flow 0%Z 2%Z eq_refl eq_refl eq_refl)
    as [_ Hsum].
  - intros k Hk%WorkerflowFacts.is_unit_spec. cbn in Hk.
    assert (k = 0 \/ k = 1 \/ k = 2)%Z as [->|[->| ->]] by lia; reflexivity.
  - destruct Hsum as [-> _]; [vm_compute; discriminate|reflexivity].
Defined.

(** X15: the destination unit of a draw.  For an agent living in a unit
    on this processor, the choice of the destination stops within [Nunit]
    tests without reading outside the row: if the draw is below the last
    entry of the row, [to] is the first unit whose entry exceeds the draw;
    otherwise [to] is left uninitialised. *)
Theorem destination_is_first_above_draw (fuel : nat)
    (demo : Driver.DemographicData) (flow : Workerflow.Flow) (from irnd : Z) :
  Workerflow.is_unit demo from = true ->
  truthy (Driver.Unit_on_proc demo from) = true ->
  (Driver.Nunit demo <= INT_MAX)%Z ->
  Z.to_nat (Driver.Nunit demo) <= fuel ->
  if (irnd <? flow from (Driver.Nunit demo - 1))%Z then
    exists to,
      Workerflow.destination fuel demo flow from irnd = Returns (Some to) /\
      (0 <= to < Driver.Nunit demo)%Z /\ (irnd < flow from to)%Z /\
      forall k, (0 <= k < to)%Z -> (flow from k <= irnd)%Z
  else Workerflow.destination fuel demo flow from irnd = Returns None.
Proof.
  intros Hfrom Hon Hmax Hfuel. unfold Workerflow.destination.
  rewrite Hfrom, Hon. cbn [andb].
  apply WorkerflowFacts.is_unit_spec in Hfrom.
  destruct (Z.ltb_spec irnd (flow from (Driver.Nunit demo - 1)%Z)) as [Hlt|Hge];
    [|reflexivity].
  destruct (WorkerflowFacts.search_finds (Driver.Nunit demo) (flow from) irnd
              Hmax fuel 0%Z ltac:(lia)
              ltac:(exists (Driver.Nunit demo - 1)%Z; split; [lia|exact Hlt])
              ltac:(lia)) as (t & Ht).
  exists t. rewrite Ht. cbn [bind]. split; [reflexivity|].
  apply WorkerflowFacts.search_Returns in Ht as (H0 & Hn & Hrow & Hbelow).
  repeat split; try lia. exact Hbelow.
Qed.

(** In the row 30, 30, 50 the draw 30 goes to the third unit. *)
Lemma destination_is_first_above_draw_witness :
  let flow : Workerflow.Flow :=
    fun _ j => match j with 0 => 30 | 1 => 30 | _ => 50 end%Z in
  exists to,
    Workerflow.destination 3 Towns.towns flow 0 30 = Returns (Some to) /\
    (0 <= to < 3)%Z /\ (30 < flow 0%Z to)%Z /\
    forall k, (0 <= k < to)%Z -> (flow 0%Z k <= 30)%Z.
Proof.
  intros flow.
  exact (destination_is_first_above_draw 3 Towns.towns flow 0%Z 30%Z eq_refl eq_refl
           ltac:(vm_compute; discriminate) ltac:(vm_compute; lia)).
Defined.

(** X16: a destination has communities.  Whatever the file holds and
    however the rows are scaled: if [read_workerflow] has left a matrix and
    the choice of the destination for a draw returns a unit, that unit has
    communities ([Start[to+1] != Start[to]]), so that a community can be
    drawn in it. *)
Theorem destination_has_communities (fuel : nat)
    (demo : Driver.DemographicData) (records : list Workerflow.Work)
    (memory : Workerflow.Flow) (from irnd to : Z) :
  Forall (fun w => fits_unsigned (Workerflow.number w) = true) records ->
  (0 <= irnd)%Z ->
  bind (Workerflow.read_workerflow demo records memory)
    (fun flow => Workerflow.destination fuel demo flow from irnd)
  = Returns (Some to) ->
  Driver.Start demo (to + 1) <> Driver.Start demo to.
Proof.
  intros Hnum Hirnd Hrun Hempty.
  apply WorkerflowFacts.bind_Returns in Hrun as (flow & Hread & Hdest).
  unfold Workerflow.read_workerflow in Hread.
  apply WorkerflowFacts.bind_Returns in Hread as (loaded & Hload & Hscale).
  unfold Workerflow.destination in Hdest.
  destruct (Workerflow.is_unit demo from) eqn:Hfrom; [|discriminate].
  destruct (truthy (Driver.Unit_on_proc demo from)) eqn:Hon; [|discriminate].
  cbn [andb] in Hdest.
  destruct (irnd <? _)%Z; [|discriminate].
  apply WorkerflowFacts.bind_Returns in Hdest as (t & Hsearch & [= ->]).
  apply WorkerflowFacts.search_Returns in Hsearch as (H0 & Hn & Hrow & Hbelow).
  assert (Hto : Workerflow.is_unit demo to = true)
    by (apply WorkerflowFacts.is_unit_spec; lia).
  assert (Hzero : loaded from to = 0%Z).
  { rewrite (WorkerflowFacts.loaded_entry _ _ _ _ from to Hload Hfrom Hon Hto).
    now rewrite Hempty, Z.eqb_refl. }
  destruct (decide (to = 0%Z)) as [->|Hpos].
  - assert (Hacc : Workerflow.accumulate demo loaded from 0%Z = 0%Z).
    { rewrite WorkerflowFacts.accumulate_lookup, Hfrom, Hon. cbn [andb].
      exact Hzero. }
    rewrite (WorkerflowFacts.rescale_zero_entry _ _ _ from 0%Z Hscale Hto Hacc)
      in Hrow.
    lia.
  - assert (Hacc : Workerflow.accumulate demo loaded from to
                   = Workerflow.accumulate demo loaded from (to - 1)%Z).
    { apply WorkerflowFacts.accumulated_zero_entry; try assumption; [lia|].
      apply (WorkerflowFacts.loaded_entry_fits demo records memory);
        try assumption.
      apply WorkerflowFacts.is_unit_spec. lia. }
    rewrite (WorkerflowFacts.rescale_equal_entries _ _ _ from to (to - 1)%Z
               Hscale Hto
               ltac:(apply WorkerflowFacts.is_unit_spec; lia) Hacc) in Hrow.
    pose proof (Hbelow (to - 1)%Z ltac:(lia)). lia.
Qed.

(** The draw 30 of a resident of the first unit passes over the second
    unit, which has no communities, and goes to the third. *)
Lemma destination_has_communities_witness :
  Driver.Start Towns.towns (2 + 1) <> Driver.Start Towns.towns 2.
Proof.
  apply (destination_has_communities 3 Towns.towns Towns.file Towns.garbage
           0%Z 30%Z 2%Z).
  - repeat constructor.
  - lia.
  - vm_compute. reflexivity.
Defined.

(** X17: the rows of other processors.  [read_workerflow] neither reads
    nor writes the row of a unit that is not on this processor (it has
    not allocated it): a matrix it leaves holds in that row what the memory
    held. *)
Theorem rows_of_other_processors_untouched (demo : Driver.DemographicData)
    (records : list Workerflow.Work) (memory flow : Workerflow.Flow) (i j : Z) :
  truthy (Driver.Unit_on_proc demo i) = false ->
  Workerflow.read_workerflow demo records memory = Returns flow ->
  flow i j = memory i j.
Proof.
  intros Hoff Hread. unfold Workerflow.read_workerflow in Hread.
  apply WorkerflowFacts.bind_Returns in Hread as (loaded & Hload & Hscale).
  pose proof (WorkerflowFacts.rescale_row_of demo _ _ i Hscale) as Hrow.
  rewrite Hoff, andb_false_r in Hrow. cbn [andb] in Hrow.
  rewrite Hrow, WorkerflowFacts.accumulate_lookup, Hoff, andb_false_r.
  cbn [andb].
  rewrite (WorkerflowFacts.records_entry _ _ i j _ _ Hload), Hoff. cbn [andb].
  rewrite WorkerflowFacts.allocate_lookup, Hoff, andb_false_r. reflexivity.
Qed.

(** The row of the third unit still holds what the memory held. *)
Lemma rows_of_other_processors_untouched_witness :
  exists flow,
    Workerflow.read_workerflow Towns.towns Towns.file Towns.garbage = Returns flow /\
    flow 2%Z 0%Z = 77%Z.
Proof.
  destruct (Workerflow.read_workerflow Towns.towns Towns.file Towns.garbage)
    as [flow| | |] eqn:Hread.
  - exists flow. split; [reflexivity|].
    exact (rows_of_other_processors_untouched Towns.towns Towns.file
             Towns.garbage flow 2%Z 0%Z eq_refl Hread).
  - vm_compute in Hread. discriminate.
  - vm_compute in Hread. discriminate.
  - vm_compute in Hread. discriminate.
Defined.

(** * The run: [runAgent] *)

Module MainFacts.
Import Driver Main.

(** ** The evolution loop *)

Lemma plot_steps_app l k : plot_steps (l ++ k) = plot_steps l ++ plot_steps k.
Proof. unfold plot_steps. apply omap_app. Qed.

Lemma plot_steps_step i :
  plot_steps (step i) = if (Z.rem i 168 =? 0)%Z then [i] else [].
Proof. unfold step. now destruct (Z.rem i 168 =? 0)%Z, (Z.rem i 24 =? 0)%Z. Qed.

Lemma count_app c l k : count c (l ++ k) = count c l + count c k.
Proof. unfold count. now rewrite List.filter_app, length_app. Qed.

(** The plot files written inside the loop of [k] steps. *)
Lemma plot_steps_loop (k : nat) :
  plot_steps (concat (map step (seqZ 0 (Z.of_nat k))))
  = map (Z.mul 168) (seqZ 0 ((Z.of_nat k + 167) / 168)).
Proof.
  induction k as [|k IH]; [reflexivity|].
  rewrite DriverFacts.seqZ_snoc, map_app, concat_app, plot_steps_app, IH.
  cbn [map concat]. rewrite app_nil_r, plot_steps_step.
  rewrite Z.rem_mod_nonneg by lia.
  destruct (Z.eqb_spec (Z.of_nat k mod 168) 0) as [Hm|Hm].
  - replace ((Z.of_nat (S k) + 167) / 168)%Z
      with ((Z.of_nat k + 167) / 168 + 1)%Z
      by (rewrite Nat2Z.inj_succ; Z.div_mod_to_equations; lia).
    rewrite seqZ_app; [|apply Z.div_pos; lia|lia]. rewrite map_app. f_equal.
    rewrite DriverFacts.seqZ_one. cbn [map]. f_equal. Z.div_mod_to_equations. lia.
  - replace ((Z.of_nat (S k) + 167) / 168)%Z
      with ((Z.of_nat k + 167) / 168)%Z
      by (rewrite Nat2Z.inj_succ; Z.div_mod_to_equations; lia).
    now rewrite app_nil_r.
Qed.


Lemma count_step_once c i :
  c ∈ [Call.updateStatus; Call.interactAgents; Call.moveAgentsRandomWalk;
       Call.Redistribute; Call.printTotals] ->
  count c (step i) = 1.
Proof.
  intros Hc. unfold step.
  repeat (apply elem_of_cons in Hc as [->|Hc];
          [now destruct (Z.rem i 168 =? 0)%Z, (Z.rem i 24 =? 0)%Z|]).
  inversion Hc.
Qed.

Lemma count_step_travel i :
  count Call.moveRandomTravel (step i) = if (Z.rem i 24 =? 0)%Z then 1 else 0.
Proof. unfold step. now destruct (Z.rem i 168 =? 0)%Z, (Z.rem i 24 =? 0)%Z. Qed.

Lemma count_loop_once c (k : nat) :
  c ∈ [Call.updateStatus; Call.interactAgents; Call.moveAgentsRandomWalk;
       Call.Redistribute; Call.printTotals] ->
  count c (concat (map step (seqZ 0 (Z.of_nat k)))) = k.
Proof.
  intros Hc. induction k as [|k IH]; [reflexivity|].
  rewrite DriverFacts.seqZ_snoc, map_app, concat_app, count_app, IH.
  cbn [map concat]. rewrite app_nil_r, (count_step_once c _ Hc). lia.
Qed.

Lemma count_loop_travel (k : nat) :
  count Call.moveRandomTravel (concat (map step (seqZ 0 (Z.of_nat k))))
  = Z.to_nat ((Z.of_nat k + 23) / 24).
Proof.
  induction k as [|k IH]; [reflexivity|].
  rewrite DriverFacts.seqZ_snoc, map_app, concat_app, count_app, IH.
  cbn [map concat]. rewrite app_nil_r, count_step_travel.
  rewrite Z.rem_mod_nonneg by lia.
  destruct (Z.eqb_spec (Z.of_nat k mod 24) 0) as [Hm|Hm];
    rewrite Nat2Z.inj_succ; Z.div_mod_to_equations; lia.
Qed.

Lemma count_outside c (p : TestParams) :
  c ∈ [Call.updateStatus; Call.interactAgents; Call.moveAgentsRandomWalk;
       Call.Redistribute; Call.printTotals; Call.moveRandomTravel] ->
  count c (calls p)
  = count c (concat (map step (seqZ 0 (nsteps p)))).
Proof.
  intros Hc. unfold calls. rewrite !count_app.
  repeat (apply elem_of_cons in Hc as [->|Hc];
          [destruct (ic_type p), (Z.rem (nsteps p) 168 =? 0)%Z; cbn; lia|]).
  inversion Hc.
Qed.

(** The plot files of a run that reaches its end. *)
Lemma plot_steps_calls (params : TestParams) :
  ((0 <= nsteps params)%Z ->
   plot_steps (calls params)
   = map (Z.mul 168) (seqZ 0 (nsteps params / 168 + 1))) /\
  ((nsteps params < 0)%Z ->
   plot_steps (calls params)
   = if (Z.rem (nsteps params) 168 =? 0)%Z then [nsteps params] else []).
Proof.
  assert (Hsplit : plot_steps (calls params)
                   = plot_steps (concat (map step (seqZ 0 (nsteps params))))
                     ++ (if (Z.rem (nsteps params) 168 =? 0)%Z
                         then [nsteps params] else [])).
  { unfold calls. rewrite !plot_steps_app.
    destruct (ic_type params), (Z.rem (nsteps params) 168 =? 0)%Z; reflexivity. }
  rewrite Hsplit. split; intros Hn.
  - rewrite <- (Z2Nat.id (nsteps params)) at 1 by exact Hn.
    rewrite plot_steps_loop, Z2Nat.id by exact Hn.
    rewrite Z.rem_mod_nonneg by lia.
    destruct (Z.eqb_spec (nsteps params mod 168) 0) as [Hm|Hm].
    + replace ((nsteps params + 167) / 168)%Z
        with (nsteps params / 168)%Z by (Z.div_mod_to_equations; lia).
      rewrite seqZ_app; [|apply Z.div_pos; lia|lia].
      rewrite map_app, DriverFacts.seqZ_one. cbn [map]. do 2 f_equal.
      Z.div_mod_to_equations. lia.
    + rewrite app_nil_r. do 2 f_equal. Z.div_mod_to_equations. lia.
  - rewrite seqZ_nil by lia. reflexivity.
Qed.

(** How often a run that reaches its end makes the calls of a step. *)
Lemma count_calls (params : TestParams) :
  count Call.updateStatus (calls params) = Z.to_nat (nsteps params) /\
  count Call.interactAgents (calls params) = Z.to_nat (nsteps params) /\
  count Call.moveAgentsRandomWalk (calls params) = Z.to_nat (nsteps params) /\
  count Call.Redistribute (calls params) = Z.to_nat (nsteps params) /\
  count Call.printTotals (calls params) = Z.to_nat (nsteps params) /\
  count Call.moveRandomTravel (calls params)
  = Z.to_nat ((nsteps params + 23) / 24).
Proof.
  assert (Hloop : seqZ 0 (nsteps params)
                  = seqZ 0 (Z.of_nat (Z.to_nat (nsteps params)))).
  { destruct (Z.le_gt_cases 0 (nsteps params)) as [Hn|Hn].
    - now rewrite Z2Nat.id.
    - rewrite !seqZ_nil by lia. reflexivity. }
  repeat split.
  1-5: rewrite count_outside, Hloop by (repeat constructor);
       apply count_loop_once; repeat constructor.
  rewrite count_outside, Hloop by (repeat constructor).
  rewrite count_loop_travel.
  destruct (Z.le_gt_cases 0 (nsteps params)) as [Hn|Hn].
  - now rewrite Z2Nat.id.
  - assert (Hz : Z.to_nat (nsteps params) = 0) by lia.
    assert (Hq : ((nsteps params + 23) / 24 <= 0)%Z)
      by (Z.div_mod_to_equations; lia).
    rewrite Hz. change (Z.to_nat ((Z.of_nat 0 + 23) / 24)) with 0.
    symmetry. apply Z2Nat.nonpos. exact Hq.
Qed.

(** The run returns the calls of a complete run, and only where both
    [get_geometry] and [read_workerflow] return. *)
Lemma runAgent_Returns (fuel : nat) (params : TestParams)
    (demo : DemographicData) (file : option (list Workerflow.Work))
    (memory : Workerflow.Flow) (atOffset : Box -> Z -> Z * Z)
    (tiles : list Tile) (trace : list Call.t) :
  runAgent fuel params demo file memory atOffset tiles = Returns trace <->
  trace = calls params /\
  exists geom, get_geometry fuel demo params = Returns geom /\
    exists r, read_workerflow fuel demo file memory (atOffset (Domain geom)) tiles
              = Returns r.
Proof.
  unfold runAgent. split.
  - intros (geom & Hgeom & Hrest)%WorkerflowFacts.bind_Returns.
    apply WorkerflowFacts.bind_Returns in Hrest as (r & Hr & [= <-]).
    split; [reflexivity|]. exists geom. split; [exact Hgeom|]. now exists r.
  - intros (-> & geom & -> & r & Hr). cbn [bind]. rewrite Hr. reflexivity.
Qed.

End MainFacts.





(** ** The workplace pass in closed form *)

Lemma apply_sources_iter {T : Type} `{RealOps T}
    (kernel : nat -> nat -> ParticleTileData T -> DiseaseParm T -> T ->
              ProbArray T -> ProbArray T)
    (i : nat) (ptd : ParticleTileData T) (lparm : DiseaseParm T) (scale : T)
    (counts : nat -> bool) (g : T -> T) :
  (forall j p, prob (kernel j i ptd lparm scale p) i
               = if counts j then g (prob p i) else prob p i) ->
  forall srcs p,
    prob (apply_sources kernel srcs i ptd lparm scale p) i
    = Nat.iter (length (List.filter counts srcs)) g (prob p i).
Proof.
  intros Hstep. unfold apply_sources.
  induction srcs as [|j srcs IH]; intros p; cbn [foldl List.filter].
  - reflexivity.
  - rewrite IH, Hstep. destruct (counts j); [|reflexivity].
    cbn [length]. now rewrite Nat.iter_succ_r.
Qed.

(** X18: the workplace pass in closed form.  In any arithmetic in which
    1.0 is a unit of multiplication (binary64 is one), a workplace pass
    that runs to its end on a permutation array without repetitions has
    multiplied the entry of every binned agent, for every processed
    disease, by the factor [1 - infect * vac_eff * xmit_work * 1.0] once
    for each of the agent's infectious coworkers in its bin, and by
    nothing else. *)
Theorem work_pass_closed_form {T : Type} `{MulUnitLaws T}
    (lparms : nat -> DiseaseParm T) (n_disease : nat) (ptd : ParticleTileData T)
    (np : nat) (binner : nat -> nat) (bins : DenseBins) (st st' : TileState T)
    (d k : nat) :
  NoDup (m_perm bins) -> d < n_disease -> k ∈ m_perm bins ->
  InteractionModWork.interactAgents lparms n_disease ptd np binner bins st
  = Some st' ->
  prob (agent_prob st' d) k
  = Nat.iter (length (infectious_coworkers lparms ptd binner bins d k))
      (fun p => rmul p (pair_factor (hazard (lparms d)) (xmit_work (lparms d))
                          rlit1))
      (prob (agent_prob st d) k).
Proof.
  intros Hnd Hd Hk Hrun.
  rewrite (proj1 (interactAgents_entry lparms binaryInteractionWork n_disease
                    ptd np binner bins binaryInteractionWork_step Hnd st st'
                    d k Hrun) Hd Hk).
  unfold expected_entry, infectious_coworkers.
  destruct (notSusceptible lparms k ptd d); [reflexivity|].
  apply apply_sources_iter. intros j p.
  rewrite binaryInteractionWork_eq.
  destruct (_ || _); cbn [negb andb]; [reflexivity|].
  rewrite Gpu_Atomic_Multiply_prob_eq.
  destruct (_ && _).
  - now rewrite rmul_1_l.
  - now rewrite rmul_1_r.
Qed.

(** The desks in one cell: agent 0 has the infectious coworkers 1 and 3
    (agent 2 is of another workgroup) and ends, in binary64, at
    1.0 * 0.95 * 0.95. *)
Lemma work_pass_closed_form_witness :
  let ptd := Scenario.tile Scenario.desks in
  let lparms := fun _ : nat => Scenario.flu in
  let binner := fun _ : nat => 0 in
  let bins := {| m_perm := [0; 1; 2; 3]; m_offsets := [0; 4] |} in
  exists st',
    InteractionModWork.interactAgents lparms 1 ptd 4 binner bins
      Scenario.fresh_tile = Some st' /\
    infectious_coworkers lparms ptd binner bins 0 0 = [1; 3] /\
    prob (agent_prob st' 0) 0
    = (1 * (1 - 0.5 * 1 * 0.1 * 1) * (1 - 0.5 * 1 * 0.1 * 1))%float.
Proof.
  intros ptd lparms binner bins.
  destruct (interactAgents_is_Some lparms binaryInteractionWork 1 ptd 4
              binner bins eq_refl Scenario.fresh_tile) as [st' Hrun].
  exists st'. split; [exact Hrun|].
  split; [vm_compute; reflexivity|].
  rewrite (work_pass_closed_form lparms 1 ptd 4 binner bins
             Scenario.fresh_tile st' 0 0).
  - vm_compute. reflexivity.
  - apply (bool_decide_unpack _). vm_compute. exact I.
  - lia.
  - apply (bool_decide_unpack _). vm_compute. exact I.
  - exact Hrun.
Defined.
